(** * flashbots-docs: the tutorial snippets and the code-of-conduct page

    The repository is a documentation site.  Two pieces of it are code:

    - the TypeScript snippets of the guide "Using Events"
      ([transactionIsRelatedToPair], [approveTokenToRouter], and the
      [PAIR_ADDRESS] binding of [main]);
    - the webpack chunk 3725, whose module 3905 is the MDX runtime
      ([kt], called [m] inside the module) and whose module 5449 is the
      code-of-conduct page component ([d]).

    Each is embedded below the way it is written and the properties the
    specification states about it are proved on the embedding. *)

From Stdlib Require Import ZArith Ascii String Lia.
From stdpp Require Import base option list strings gmap.

Local Open Scope string_scope.
Local Open Scope Z_scope.
Local Set Warnings "-register-all".

(** ** JavaScript data *)

(** A field of a TypeScript interface declared [f?: T] and filled by the
    event stream with [null] when the sender did not share it has three
    shapes at run time. *)
Inductive nullable (A : Type) : Type :=
| undefined : nullable A
| null : nullable A
| present (a : A) : nullable A.
Arguments undefined {A}.
Arguments null {A}.
Arguments present {A} a.

(** [x === s] for [s] a string: true exactly when [x] is that string. *)
Definition strict_eq_string (x : nullable string) (s : string) : bool :=
  match x with
  | present a => String.eqb a s
  | _ => false
  end.

(** [x || []] for an array-typed [x]: [null] and [undefined] are falsy, an
    array (also the empty one) is truthy. *)
Definition or_empty {A : Type} (x : nullable (list A)) : list A :=
  match x with
  | present l => l
  | _ => []
  end.

(** [Array.prototype.some]: left to right, stops at the first hit. *)
Fixpoint some {A : Type} (f : A -> bool) (l : list A) : bool :=
  match l with
  | [] => false
  | x :: l' => if f x then true else some f l'
  end.

(** [String.prototype.toLowerCase] on strings of ASCII characters (an
    address is one: [0x] and forty hexadecimal digits). *)
Definition lower_ascii (c : ascii) : ascii :=
  let n := nat_of_ascii c in
  if (Nat.leb 65 n && Nat.leb n 90)%bool then ascii_of_nat (n + 32) else c.

Fixpoint toLowerCase (s : string) : string :=
  match s with
  | EmptyString => EmptyString
  | String c s' => String (lower_ascii c) (toLowerCase s')
  end.

(** ** Pending transactions (guide "Using Events") *)

(** A log of an event, as printed by the guide:
    [{ address: '0x82..', topics: [Array], data: '0x' }]. *)
Record LogParams : Type := {
  address : string;
  topics : list string;
  data : string
}.

(** [IPendingTransaction], with the seven fields of the guide's console
    output.  Only [hash] is always shared. *)
Record IPendingTransaction : Type := {
  hash : string;
  logs : nullable (list LogParams);
  to : nullable string;
  functionSelector : nullable string;
  callData : nullable string;
  gasUsed : nullable Z;
  mevGasPrice : nullable Z
}.

(** The event [tx] with its [logs] field replaced. *)
Definition with_logs (l : nullable (list LogParams)) (tx : IPendingTransaction)
    : IPendingTransaction :=
  {| hash := hash tx; logs := l; to := to tx;
     functionSelector := functionSelector tx; callData := callData tx;
     gasUsed := gasUsed tx; mevGasPrice := mevGasPrice tx |}.

(** [[
function transactionIsRelatedToPair(pendingTx: IPendingTransaction, PAIR_ADDRESS: string) {
    return pendingTx.to === PAIR_ADDRESS ||
        ((pendingTx.logs || []).some(log => log.address === PAIR_ADDRESS))
}
]] *)
Definition transactionIsRelatedToPair
    (pendingTx : IPendingTransaction) (PAIR_ADDRESS : string) : bool :=
  strict_eq_string (to pendingTx) PAIR_ADDRESS ||
  some (fun log => String.eqb (address log) PAIR_ADDRESS)
       (or_empty (logs pendingTx)).

(** The WETH/DAI pair of the guide, in the checksummed form the factory
    returns, and the binding of [main]:
    [const PAIR_ADDRESS = (await uniswapFactoryContract.getPair(..)).toLowerCase()]. *)
Definition WETH_DAI_PAIR : string := "0xA478c2975Ab1Ea89e8196811F51A7B7Ade33eB11".

Definition PAIR_ADDRESS_of (getPair_result : string) : string :=
  toLowerCase getPair_result.

(** The first event of the guide's console output (its topics are elided
    there). *)
Definition event_1 : IPendingTransaction := {|
  hash := "0x26aba6f3c5083d58915161efb0cd0f713418cdd7a95425cdde451efd1dfb5dff";
  logs := present
    [ {| address := "0x8255ffbb54bbb825cc544b67ccf36526e6101f5e"; topics := []; data := "Ox" |};
      {| address := "0x8255ffbb54bbb825cc544b67ccf36526e6101f5e"; topics := []; data := "Ox" |} ];
  to := null;
  functionSelector := null;
  callData := null;
  gasUsed := undefined;
  mevGasPrice := undefined
|}.

(** *** The same function on untyped values

    TypeScript types are erased at run time.  To state that the call does
    not throw, the function is also embedded over plain JavaScript values,
    where reading a property of [null] or [undefined] and calling a method
    that is not there raise a [TypeError]. *)
Module Dyn.

Inductive value : Type :=
| VUndefined
| VNull
| VBoolean (b : bool)
| VBigInt (z : Z)
| VString (s : string)
| VArray (items : list value)
| VObject (fields : list (string * value)).

Inductive completion (A : Type) : Type :=
| Normal (a : A)
| TypeError.
Arguments Normal {A} a.
Arguments TypeError {A}.

Definition bind {A B : Type} (c : completion A) (k : A -> completion B) : completion B :=
  match c with
  | Normal a => k a
  | TypeError => TypeError
  end.

#[global] Instance completion_ret : MRet completion := @Normal.
#[global] Instance completion_bind : MBind completion := fun A B k c => bind c k.

Fixpoint assoc (name : string) (fields : list (string * value)) : value :=
  match fields with
  | [] => VUndefined
  | (k, v) :: fields' => if String.eqb k name then v else assoc name fields'
  end.

(** [v.name], for a [name] that no built-in prototype defines ([to],
    [logs], [address]). *)
Definition get (v : value) (name : string) : completion value :=
  match v with
  | VUndefined | VNull => TypeError
  | VObject fields => Normal (assoc name fields)
  | _ => Normal VUndefined
  end.

(** [v === s] for [s] a string. *)
Definition strict_eq_string (v : value) (s : string) : bool :=
  match v with
  | VString a => String.eqb a s
  | _ => false
  end.

Definition truthy (v : value) : bool :=
  match v with
  | VUndefined | VNull => false
  | VBoolean b => b
  | VBigInt z => negb (z =? 0)
  | VString s => negb (String.eqb s "")
  | VArray _ | VObject _ => true
  end.

(** [a || b] *)
Definition or (a b : value) : value := if truthy a then a else b.

(** [items.some(f)]: an exception of the callback propagates; elements
    after the first hit are not visited. *)
Fixpoint some (f : value -> completion bool) (items : list value) : completion bool :=
  match items with
  | [] => Normal false
  | x :: items' =>
      match f x with
      | TypeError => TypeError
      | Normal true => Normal true
      | Normal false => some f items'
      end
  end.

(** [v.some(f)]: only arrays have the method among the values of the model. *)
Definition call_some (v : value) (f : value -> completion bool) : completion bool :=
  match v with
  | VArray items => some f items
  | _ => TypeError
  end.

Definition transactionIsRelatedToPair
    (pendingTx : value) (PAIR_ADDRESS : string) : completion value :=
  to_ ← get pendingTx "to";
  if strict_eq_string to_ PAIR_ADDRESS then mret (VBoolean true)
  else
    logs_ ← get pendingTx "logs";
    hit ← call_some (or logs_ (VArray []))
            (fun log => a ← get log "address"; mret (strict_eq_string a PAIR_ADDRESS));
    mret (VBoolean hit).

(** The run-time shape of a typed event. *)
Definition of_nullable {A : Type} (f : A -> value) (x : nullable A) : value :=
  match x with
  | undefined => VUndefined
  | null => VNull
  | present a => f a
  end.

Definition of_log (log : LogParams) : value :=
  VObject [ ("address", VString (address log));
            ("topics", VArray (map VString (topics log)));
            ("data", VString (data log)) ].

Definition of_tx (tx : IPendingTransaction) : value :=
  VObject [ ("hash", VString (hash tx));
            ("logs", of_nullable (fun l => VArray (map of_log l)) (logs tx));
            ("to", of_nullable VString (to tx));
            ("functionSelector", of_nullable VString (functionSelector tx));
            ("callData", of_nullable VString (callData tx));
            ("gasUsed", of_nullable VBigInt (gasUsed tx));
            ("mevGasPrice", of_nullable VBigInt (mevGasPrice tx)) ].

End Dyn.

(** ** Approving the router (guide "Using Events") *)
Module Approve.

(** What the function asks of its environment: two [eth_call]s on the token
    contract, the console, [process.exit], and one transaction.  Every
    awaited call is taken to resolve. *)
Inductive event : Type -> Type :=
| allowance (token owner spender : string) : event Z
| balanceOf (token owner : string) : event Z
| console_error (msg : string) : event unit
| console_log (msg : string) : event unit
| process_exit (code : Z) : event Empty_set
| approve (token sender spender : string) (amount : Z) : event unit.

Inductive prog (A : Type) : Type :=
| Ret (a : A)
| Vis {X : Type} (e : event X) (k : X -> prog A).
Arguments Ret {A} a.
Arguments Vis {A X} e k.

Fixpoint bind {A B : Type} (p : prog A) (f : A -> prog B) : prog B :=
  match p with
  | Ret a => f a
  | Vis e k => Vis e (fun x => bind (k x) f)
  end.

Definition trigger {X : Type} (e : event X) : prog X := Vis e Ret.

#[global] Instance prog_ret : MRet prog := @Ret.
#[global] Instance prog_bind : MBind prog := fun A B f p => bind p f.

(** [2n**256n - 1n] *)
Definition MAX_UINT256 : Z := 2 ^ 256 - 1.

(** [[
async function approveTokenToRouter( tokenAddress: string, routerAddress: string ) {
    const tokenContract = new Contract(tokenAddress, ERC20_ABI, executorWallet)
    const allowance = await tokenContract.allowance(executorWallet.address, routerAddress)
    const balance = await tokenContract.balanceOf(executorWallet.address)
    if (balance == 0n) {
        console.error("No token balance for " + tokenAddress)
        process.exit(1)
    }
    if (allowance >= balance) {
        console.log("Token already approved")
        return
    }
    await tokenContract.approve(routerAddress, 2n**256n - 1n)
}
]]
    [executorWallet] is a binding of the enclosing file; its address is a
    parameter here. *)
Definition approveTokenToRouter
    (executorWallet tokenAddress routerAddress : string) : prog unit :=
  allowance_ ← trigger (allowance tokenAddress executorWallet routerAddress);
  balance ← trigger (balanceOf tokenAddress executorWallet);
  (if balance =? 0 then
     trigger (console_error ("No token balance for " +:+ tokenAddress));;
     dead ← trigger (process_exit 1);
     match dead : Empty_set with end
   else mret tt);;
  if allowance_ >=? balance then
    trigger (console_log "Token already approved");;
    mret tt
  else
    trigger (approve tokenAddress executorWallet routerAddress MAX_UINT256).

(** *** The environment: an ERC-20 ledger, a mempool and a console *)

Record approve_tx : Type := {
  tx_token : string;
  tx_sender : string;
  tx_spender : string;
  tx_amount : Z
}.

Record world : Type := {
  allowances : gmap (string * string * string) Z;  (* token, owner, spender *)
  balances : gmap (string * string) Z;             (* token, owner *)
  mempool : list approve_tx;                       (* sent, oldest first *)
  stdout : list string;
  stderr : list string
}.

(** Solidity mappings read zero where nothing was written. *)
Definition allowance_of (w : world) (token owner spender : string) : Z :=
  default 0 (allowances w !! (token, owner, spender)).

Definition balance_of (w : world) (token owner : string) : Z :=
  default 0 (balances w !! (token, owner)).

Definition send (t : approve_tx) (w : world) : world :=
  {| allowances := allowances w; balances := balances w;
     mempool := mempool w ++ [t];
     stdout := stdout w; stderr := stderr w |}.

Definition print_out (msg : string) (w : world) : world :=
  {| allowances := allowances w; balances := balances w;
     mempool := mempool w;
     stdout := stdout w ++ [msg]; stderr := stderr w |}.

Definition print_err (msg : string) (w : world) : world :=
  {| allowances := allowances w; balances := balances w;
     mempool := mempool w;
     stdout := stdout w; stderr := stderr w ++ [msg] |}.

(** An event either answers or ends the process with an exit code. *)
Definition handle {X : Type} (e : event X) (w : world) : (X + Z) * world :=
  match e in event X return (X + Z) * world with
  | allowance token owner spender => (inl (allowance_of w token owner spender), w)
  | balanceOf token owner => (inl (balance_of w token owner), w)
  | console_error msg => (inl tt, print_err msg w)
  | console_log msg => (inl tt, print_out msg w)
  | process_exit code => (inr code, w)
  | approve token sender spender amount =>
      (inl tt, send {| tx_token := token; tx_sender := sender;
                       tx_spender := spender; tx_amount := amount |} w)
  end.

Inductive outcome (A : Type) : Type :=
| Returned (a : A)
| Exited (code : Z).
Arguments Returned {A} a.
Arguments Exited {A} code.

Fixpoint run {A : Type} (p : prog A) (w : world) : outcome A * world :=
  match p with
  | Ret a => (Returned a, w)
  | Vis e k =>
      match handle e w with
      | (inl x, w') => run (k x) w'
      | (inr code, w') => (Exited code, w')
      end
  end.

(** ERC-20 [approve(spender, amount)] sets the allowance of the sender for
    the spender to [amount]; mining the mempool applies the pending
    approvals in order. *)
Definition apply_approve (ledger : gmap (string * string * string) Z) (t : approve_tx)
    : gmap (string * string * string) Z :=
  <[(tx_token t, tx_sender t, tx_spender t) := tx_amount t]> ledger.

Definition mine (w : world) : world :=
  {| allowances := foldl apply_approve (allowances w) (mempool w);
     balances := balances w;
     mempool := [];
     stdout := stdout w; stderr := stderr w |}.

(** A bot wallet that holds [balance] WETH and has approved the router
    for [allowance_] of it. *)
Definition wallet : string := "0xExecutor".
Definition weth : string := "0xWETH".
Definition router : string := "0xRouter".

Definition world_of (allowance_ balance : Z) : world :=
  {| allowances := {[ (weth, wallet, router) := allowance_ ]};
     balances := {[ (weth, wallet) := balance ]};
     mempool := []; stdout := []; stderr := [] |}.

End Approve.


(** ** The bot's [main] (guide "Using Events") *)
Module Main.

(** The bindings [main] takes from the code above it in [src/index.ts]. *)
Record bindings : Type := {
  authSigner_address : string;
  executorWallet_address : string;
  SELL_TOKEN_ADDRESS : string;
  BUY_TOKEN_ADDRESS : string;
  UNISWAP_V2_ADDRESS : string
}.

(** The callback [main] hands to [mevshare.on('transaction', ..)]:
[[
async ( pendingTx: IPendingTransaction ) => {
    if (!transactionIsRelatedToPair(pendingTx, PAIR_ADDRESS)) {
        console.log('skipping tx: ' + pendingTx.hash)
        return
    }
    console.log(`It's a match: ${ pendingTx.hash }`)
}
]] *)
Definition callback (PAIR_ADDRESS : string) (pendingTx : IPendingTransaction)
    : Approve.prog unit :=
  if negb (transactionIsRelatedToPair pendingTx PAIR_ADDRESS) then
    Approve.trigger (Approve.console_log ("skipping tx: " +:+ hash pendingTx));;
    mret tt
  else
    Approve.trigger (Approve.console_log ("It's a match: " +:+ hash pendingTx)).

(** What [main] asks of its environment: what [approveTokenToRouter] asks,
    the factory's [getPair], the wallet's [getNonce], and the registration
    of a listener on the event stream. *)
Inductive event : Type -> Type :=
| io {X : Type} (e : Approve.event X) : event X
| getPair (tokenA tokenB : string) : event string
| getNonce (address blockTag : string) : event Z
| on_transaction (listener : IPendingTransaction -> Approve.prog unit) : event unit.

Inductive prog (A : Type) : Type :=
| Ret (a : A)
| Vis {X : Type} (e : event X) (k : X -> prog A).
Arguments Ret {A} a.
Arguments Vis {A X} e k.

Fixpoint bind {A B : Type} (p : prog A) (f : A -> prog B) : prog B :=
  match p with
  | Ret a => f a
  | Vis e k => Vis e (fun x => bind (k x) f)
  end.

Definition trigger {X : Type} (e : event X) : prog X := Vis e Ret.

#[global] Instance prog_ret : MRet prog := @Ret.
#[global] Instance prog_bind : MBind prog := fun A B f p => bind p f.

(** A call of a function of the file, such as [approveTokenToRouter]. *)
Fixpoint call {A : Type} (p : Approve.prog A) : prog A :=
  match p with
  | Approve.Ret a => Ret a
  | Approve.Vis e k => Vis (io e) (fun x => call (k x))
  end.

(** [[
async function main() {
    console.log('mev-share auth address: ' + authSigner.address)
    console.log('executor address: ' + executorWallet.address)
    const PAIR_ADDRESS = (await uniswapFactoryContract.getPair(SELL_TOKEN_ADDRESS, BUY_TOKEN_ADDRESS)).toLowerCase()
    await approveTokenToRouter(SELL_TOKEN_ADDRESS, UNISWAP_V2_ADDRESS)
    const nonce = await executorWallet.getNonce('latest')

    mevshare.on('transaction', async ( pendingTx: IPendingTransaction ) => { .. })
}
]] *)
Definition main (b : bindings) : prog unit :=
  trigger (io (Approve.console_log ("mev-share auth address: " +:+ authSigner_address b)));;
  trigger (io (Approve.console_log ("executor address: " +:+ executorWallet_address b)));;
  pair ← trigger (getPair (SELL_TOKEN_ADDRESS b) (BUY_TOKEN_ADDRESS b));
  let PAIR_ADDRESS := toLowerCase pair in
  call (Approve.approveTokenToRouter (executorWallet_address b)
          (SELL_TOKEN_ADDRESS b) (UNISWAP_V2_ADDRESS b));;
  nonce ← trigger (getNonce (executorWallet_address b) "latest");
  trigger (on_transaction (callback PAIR_ADDRESS)).

(** *** The environment of [main] *)

Record world : Type := {
  chain : Approve.world;
  pairs : gmap (string * string) string;     (* the factory: tokenA, tokenB *)
  nonces : gmap string Z;                    (* by account *)
  listeners : list (IPendingTransaction -> Approve.prog unit)  (* oldest first *)
}.

Definition with_chain (c : Approve.world) (w : world) : world :=
  {| chain := c; pairs := pairs w; nonces := nonces w; listeners := listeners w |}.

Definition listen (f : IPendingTransaction -> Approve.prog unit) (w : world) : world :=
  {| chain := chain w; pairs := pairs w; nonces := nonces w;
     listeners := listeners w ++ [f] |}.

(** The factory answers the zero address for a pair it has not created. *)
Definition ZERO_ADDRESS : string := "0x0000000000000000000000000000000000000000".

Definition pair_of (w : world) (tokenA tokenB : string) : string :=
  default ZERO_ADDRESS (pairs w !! (tokenA, tokenB)).

Definition nonce_of (w : world) (address : string) : Z :=
  default 0 (nonces w !! address).

Definition handle {X : Type} (e : event X) (w : world) : (X + Z) * world :=
  match e in event X return (X + Z) * world with
  | io e' => let r := Approve.handle e' (chain w) in (r.1, with_chain r.2 w)
  | getPair tokenA tokenB => (inl (pair_of w tokenA tokenB), w)
  | getNonce address _ => (inl (nonce_of w address), w)
  | on_transaction f => (inl tt, listen f w)
  end.

Fixpoint run {A : Type} (p : prog A) (w : world) : Approve.outcome A * world :=
  match p with
  | Ret a => (Approve.Returned a, w)
  | Vis e k =>
      match handle e w with
      | (inl x, w') => run (k x) w'
      | (inr code, w') => (Approve.Exited code, w')
      end
  end.

(** The event stream hands a pending transaction to the listeners in the
    order they were registered. *)
Fixpoint deliver_to (fs : list (IPendingTransaction -> Approve.prog unit))
    (tx : IPendingTransaction) (c : Approve.world) : Approve.outcome unit * Approve.world :=
  match fs with
  | [] => (Approve.Returned tt, c)
  | f :: fs' =>
      match Approve.run (f tx) c with
      | (Approve.Returned _, c') => deliver_to fs' tx c'
      | (Approve.Exited code, c') => (Approve.Exited code, c')
      end
  end.

Definition deliver (tx : IPendingTransaction) (w : world) : Approve.outcome unit * world :=
  let r := deliver_to (listeners w) tx (chain w) in
  (r.1, with_chain r.2 w).

(** The bot of the guide on a chain where its wallet holds [balance] WETH,
    has approved the router for [allowance_], and the factory knows the
    WETH/DAI pair under its checksummed address. *)
Definition bot : bindings :=
  {| authSigner_address := "0xAuth";
     executorWallet_address := Approve.wallet;
     SELL_TOKEN_ADDRESS := Approve.weth;
     BUY_TOKEN_ADDRESS := "0xDAI";
     UNISWAP_V2_ADDRESS := Approve.router |}.

Definition start (allowance_ balance : Z) : world :=
  {| chain := Approve.world_of allowance_ balance;
     pairs := {[ (Approve.weth, "0xDAI") := WETH_DAI_PAIR ]};
     nonces := ∅;
     listeners := [] |}.

End Main.

(** ** Untyped events: when the predicate throws *)

(** [v == null] *)
Definition untyped_nullish (v : Dyn.value) : bool :=
  match v with
  | Dyn.VUndefined | Dyn.VNull => true
  | _ => false
  end.

(** [v.name] of a value that is neither [null] nor [undefined]. *)
Definition untyped_field (v : Dyn.value) (name : string) : Dyn.value :=
  match v with
  | Dyn.VObject fields => Dyn.assoc name fields
  | _ => Dyn.VUndefined
  end.

(** [log.address === PAIR_ADDRESS] for a [log] that is neither [null] nor
    [undefined]. *)
Definition address_is (PAIR_ADDRESS : string) (log : Dyn.value) : bool :=
  Dyn.strict_eq_string (untyped_field log "address") PAIR_ADDRESS.

(** An array of logs with a [null] or [undefined] entry that no log with
    the pair address precedes. *)
Definition broken_before_hit (PAIR_ADDRESS : string) (items : list Dyn.value) : Prop :=
  exists (before : list Dyn.value) (bad : Dyn.value) (after : list Dyn.value),
    items = (before ++ bad :: after)%list
    /\ untyped_nullish bad = true
    /\ Forall (fun log => untyped_nullish log = false
                          /\ address_is PAIR_ADDRESS log = false) before.
(** ** The webpack chunk 3725 ([assets/js/4c4ecbe6.b82ca909.js]) *)
Module Chunk3725.

(** *** Objects and the heap

    The chunk builds objects, writes their properties and hands them on by
    reference, so objects live in a heap and values point into it. *)
Definition loc : Type := nat.

(** A [VFunction] is a function or component known by its name alone: it
    has no properties that are read from it.  A component that carries
    properties ([defaultProps]) is a [VRef] to an object that holds them. *)
Inductive val : Type :=
| VUndefined
| VNull
| VBoolean (b : bool)
| VString (s : string)
| VFunction (name : string)
| VRef (l : loc).

#[global] Instance val_eq_dec : EqDecision val.
Proof. solve_decision. Defined.

(** Own enumerable properties, in insertion order. *)
Abbreviation fields := (list (string * val)).

Inductive object : Type :=
| Object (fs : fields)
| Array (items : list val)
| ReactElement (type key ref props _owner : val).

Abbreviation heap := (list object).

(** A computation reads and writes the heap; [None] is a [TypeError] (the
    chunk runs in strict mode) or a step on a kind of object the chunk
    never takes (an array used as a property bag, an element written to,
    a call of a function whose code the chunk does not hold). *)
Definition M (A : Type) : Type := heap -> option (A * heap).

#[global] Instance M_ret : MRet M := fun A a h => Some (a, h).
#[global] Instance M_bind : MBind M := fun A B f m h =>
  match m h with
  | Some (a, h') => f a h'
  | None => None
  end.

Definition throw {A : Type} : M A := fun _ => None.

Fixpoint for_each {A : Type} (body : A -> M unit) (l : list A) : M unit :=
  match l with
  | [] => mret tt
  | x :: l' => fun h =>
      match body x h with
      | Some (_, h') => for_each body l' h'
      | None => None
      end
  end.

Fixpoint assoc (k : string) (fs : fields) : val :=
  match fs with
  | [] => VUndefined
  | (k', v) :: fs' => if String.eqb k' k then v else assoc k fs'
  end.

(** [o[k] = x]: an existing property keeps its place, a new one goes last. *)
Fixpoint assoc_set (k : string) (x : val) (fs : fields) : fields :=
  match fs with
  | [] => [(k, x)]
  | (k', v) :: fs' =>
      if String.eqb k' k then (k, x) :: fs' else (k', v) :: assoc_set k x fs'
  end.

Definition alloc (o : object) : M val :=
  fun h => Some (VRef (length h), (h ++ [o])%list).

Definition load (l : loc) : M object :=
  fun h => match h !! l with
           | Some o => Some (o, h)
           | None => None
           end.

Definition store (l : loc) (o : object) : M unit :=
  fun h => if (l <? length h)%nat then Some (tt, <[l := o]> h) else None.

Definition truthy (v : val) : bool :=
  match v with
  | VUndefined | VNull => false
  | VBoolean b => b
  | VString s => negb (String.eqb s "")
  | VFunction _ | VRef _ => true
  end.

Definition is_string (v : val) : bool :=
  match v with
  | VString _ => true
  | _ => false
  end.

Definition nullish (v : val) : bool :=
  match v with
  | VUndefined | VNull => true
  | _ => false
  end.

(** [v[k]] for the property names of the chunk, none of which is an array
    index, [length], or a member of a built-in prototype. *)
Definition get (v : val) (k : string) : M val :=
  match v with
  | VUndefined | VNull => throw
  | VRef l =>
      o ← load l;
      match o with
      | Object fs => mret (assoc k fs)
      | Array _ => mret VUndefined
      | ReactElement type key ref props _owner =>
          mret (if String.eqb k "type" then type
                else if String.eqb k "key" then key
                else if String.eqb k "ref" then ref
                else if String.eqb k "props" then props
                else if String.eqb k "_owner" then _owner
                else VUndefined)
      end
  | _ => mret VUndefined
  end.

(** [v[k] = x] *)
Definition set (v : val) (k : string) (x : val) : M unit :=
  match v with
  | VRef l =>
      o ← load l;
      match o with
      | Object fs => store l (Object (assoc_set k x fs))
      | _ => throw
      end
  | _ => throw
  end.

(** The keys that [for (k in v) if (hasOwnProperty.call(v, k))] and
    [Object.keys(v)] visit (the callers test [v] for [null] before they
    ask for [Object.keys]). *)
Definition own_keys (v : val) : M (list string) :=
  match v with
  | VUndefined | VNull | VBoolean _ => mret []
  | VRef l =>
      o ← load l;
      match o with
      | Object fs => mret (fs.*1)
      | _ => throw
      end
  | _ => throw
  end.

(** [new Array(n)]; a hole reads as [undefined]. *)
Definition new_Array (n : nat) : M val := alloc (Array (replicate n VUndefined)).

Definition items_of (v : val) : M (list val) :=
  match v with
  | VRef l =>
      o ← load l;
      match o with
      | Array items => mret items
      | _ => throw
      end
  | _ => throw
  end.

(** [a[i] = x]; past the end the array grows, the gap left as holes. *)
Definition set_index (a : val) (i : nat) (x : val) : M unit :=
  match a with
  | VRef l =>
      o ← load l;
      match o with
      | Array items =>
          if (i <? length items)%nat then store l (Array (<[i := x]> items))
          else store l (Array (items ++ replicate (i - length items) VUndefined ++ [x]))
      | _ => throw
      end
  | _ => throw
  end.

(** [a.indexOf(k) >= 0] for a string [k] *)
Definition includes (a : val) (k : string) : M bool :=
  items ← items_of a;
  mret (bool_decide (VString k ∈ items)).

(** *** Imports that live in other chunks *)

(** Module 7462, Babel's [_extends] helper (not in this chunk; it is
    [Object.assign]):
[[
function _extends(target) {
  for (var i = 1; i < arguments.length; i++) {
    var source = arguments[i];
    for (var key in source)
      if (Object.prototype.hasOwnProperty.call(source, key)) target[key] = source[key];
  }
  return target;
}
]] *)
Definition _extends (arguments : list val) : M val :=
  match arguments with
  | [] => throw
  | target :: sources =>
      if nullish target then throw
      else
        for_each (fun source =>
          keys ← own_keys source;
          for_each (fun key => x ← get source key; set target key x) keys) sources;;
        mret target
  end.

(** Module 3366, Babel's [_objectWithoutPropertiesLoose] helper; module
    3905 of this chunk carries the same function inlined in its [c]:
[[
function(e,t){if(null==e)return{};var n,o,i={},r=Object.keys(e);
  for(o=0;o<r.length;o++)n=r[o],t.indexOf(n)>=0||(i[n]=e[n]);return i}
]] *)
Definition objectWithoutPropertiesLoose (e t : val) : M val :=
  if nullish e then alloc (Object [])
  else
    i ← alloc (Object []);
    r ← own_keys e;
    for_each (fun n =>
      excluded ← includes t n;
      if excluded : bool then mret tt else x ← get e n; set i n x) r;;
    mret i.

(** The values that are no objects. *)
Definition primitive (v : val) : bool :=
  match v with
  | VUndefined | VNull | VBoolean _ | VString _ => true
  | VFunction _ | VRef _ => false
  end.

(** ['' + v], exact on the primitives.  An object is given the text of the
    default [Object.prototype.toString] and a function its name; the text
    of a function, the joined items of an array and an object's own
    [toString] or [valueOf] are outside the model, so what is stated of a
    string made from a value is stated for primitives. *)
Definition to_string (v : val) : string :=
  match v with
  | VUndefined => "undefined"
  | VNull => "null"
  | VBoolean true => "true"
  | VBoolean false => "false"
  | VString s => s
  | VFunction name => "function " +:+ name
  | VRef _ => "[object Object]"
  end.

Definition RESERVED_PROPS (k : string) : bool :=
  String.eqb k "key" || String.eqb k "ref" || String.eqb k "__self" || String.eqb k "__source".

(** [hasValidKey(config) ? '' + config.key : null] and
    [hasValidRef(config) ? config.ref : null]; valid is [!== undefined]. *)
Definition key_of (k : val) : val :=
  match k with
  | VUndefined => VNull
  | _ => VString (to_string k)
  end.

Definition ref_of (r : val) : val :=
  match r with
  | VUndefined => VNull
  | _ => r
  end.

(** *** The current owner

    React keeps a pointer to the component it last started to render in
    [ReactCurrentOwner.current], a binding of module 7294 that the chunk
    cannot write: [null] outside a render, else a fiber.  It is one value
    throughout a call of the chunk's functions, [owner] below, and every
    function that makes an element depends on it. *)
Section current_owner.
Variable owner : val.

(** Module 7294, React: [createElement(type, config, ...children)].  The
    new element has the given type, [key] and [ref] taken out of [config],
    a fresh props object with the other own properties of [config] and
    the children (one child as it is, several in a fresh array), and
    [ReactCurrentOwner.current] under [_owner].  The step that fills
    missing props from [type.defaultProps] is left out: the types the
    chunk itself passes ([MDXCreateElement], [Fragment], the provider)
    have none, and what is stated of the props an arbitrary type receives
    is stated for a type without [defaultProps] (see [defaultProps_of]). *)
Definition createElement (arguments : list val) : M val :=
  let type := nth 0 arguments VUndefined in
  let config := nth 1 arguments VUndefined in
  let children := drop 2 arguments in
  props ← alloc (Object []);
  '(key, ref) ←
    (if nullish config then mret (VNull, VNull)
     else
       r ← get config "ref";
       k ← get config "key";
       keys ← own_keys config;
       for_each (fun propName =>
         if RESERVED_PROPS propName then mret tt
         else x ← get config propName; set props propName x) keys;;
       mret (key_of k, ref_of r));
  match children with
  | [] => mret tt
  | [child] => set props "children" child
  | _ => childArray ← alloc (Array children); set props "children" childArray
  end;;
  alloc (ReactElement type key ref props owner).

(** *** Module 3905: the MDX runtime *)

(** [d], the [forwardRef] component the runtime exports as
    [MDXCreateElement]; [kt] only passes it on as an element type. *)
Definition MDXCreateElement : val := VFunction "MDXCreateElement".

(** [[
function m(e,t){var n=arguments,i=t&&t.mdxType;
  if("string"==typeof e||i){
    var r=n.length,a=new Array(r);a[0]=d;var c={};
    for(var l in t)hasOwnProperty.call(t,l)&&(c[l]=t[l]);
    c.originalType=e,c.mdxType="string"==typeof e?e:i,a[1]=c;
    for(var s=2;s<r;s++)a[s]=n[s];
    return o.createElement.apply(null,a)}
  return o.createElement.apply(null,n)}
]]
    exported as [kt]. *)
Definition kt (n : list val) : M val :=
  let e := nth 0 n VUndefined in
  let t := nth 1 n VUndefined in
  i ← (if truthy t then get t "mdxType" else mret t);
  if is_string e || truthy i then
    let r := length n in
    a ← new_Array r;
    set_index a 0 MDXCreateElement;;
    c ← alloc (Object []);
    ls ← own_keys t;
    for_each (fun l => x ← get t l; set c l x) ls;;
    set c "originalType" e;;
    set c "mdxType" (if is_string e then e else i);;
    set_index a 1 c;;
    for_each (fun s => set_index a s (nth s n VUndefined)) (seq 2 (r - 2));;
    arguments ← items_of a;
    createElement arguments
  else createElement n.

(** *** Module 5449: the code-of-conduct page *)

(** The argument list of one [(0,r.kt)(type, props, ...children)] call of
    the page body: the type is a string literal, the props are [null] or an
    object literal of string literals, a child is a string literal or
    another such call. *)
Inductive jsx : Type :=
| Text (s : string)
| Kt (type : string) (props : option (list (string * string))) (children : list jsx).

(** A string literal with [\n] escapes, line by line. *)
Definition lines (ls : list string) : string :=
  String.concat (String (ascii_of_nat 10) EmptyString) ls.

(** Arguments are evaluated left to right, then the call is made. *)
Fixpoint eval (j : jsx) : M val :=
  match j with
  | Text s => mret (VString s)
  | Kt type props children => fun h =>
      match (match props with
             | None => mret VNull
             | Some fs => alloc (Object (map (fun kv => (kv.1, VString kv.2)) fs))
             end) h with
      | None => None
      | Some (t, h1) =>
          match (fix eval_all (js : list jsx) : M (list val) :=
                   match js with
                   | [] => mret []
                   | j' :: js' => fun h =>
                       match eval j' h with
                       | None => None
                       | Some (v, h') =>
                           match eval_all js' h' with
                           | None => None
                           | Some (vs, h'') => Some (v :: vs, h'')
                           end
                       end
                   end) children h1 with
          | None => None
          | Some (vs, h2) => kt (VString type :: t :: vs) h2
          end
      end
  end.

Fixpoint eval_all (js : list jsx) : M (list val) :=
  match js with
  | [] => mret []
  | j :: js' => v ← eval j; vs ← eval_all js'; mret (v :: vs)
  end.

(** The children of the page's wrapper, in source order. *)
Definition content : list jsx :=
  [
    Kt "p" None
      [ Text "At Flashbots we contribute with the larger free software community to illuminate the dark forest." ];
    Kt "p" None
      [ Text "You are welcome here <3." ];
    Kt "p" None
      [ Text "We just ask you to be nice. Please start by reading our code of conduct." ];
    Kt "h3" (Some [("id", "contributor-covenant-code-of-conduct")])
      [ Text "Contributor Covenant Code of Conduct" ];
    Kt "h4" (Some [("id", "our-pledge")])
      [ Text "Our Pledge" ];
    Kt "p" None
      [ Text (lines [ "We as members, contributors, and leaders pledge to make participation in our";
                     "community a harassment-free experience for everyone, regardless of age, body";
                     "size, visible or invisible disability, ethnicity, sex characteristics, gender";
                     "identity and expression, level of experience, education, socio-economic status,";
                     "nationality, personal appearance, race, caste, color, religion, or sexual";
                     "identity and orientation." ]) ];
    Kt "p" None
      [ Text (lines [ "We pledge to act and interact in ways that contribute to an open, welcoming,";
                     "diverse, inclusive, and healthy community." ]) ];
    Kt "h4" (Some [("id", "our-standards")])
      [ Text "Our Standards" ];
    Kt "p" None
      [ Text (lines [ "Examples of behavior that contributes to a positive environment for our";
                     "community include:" ]) ];
    Kt "ul" None
      [ Kt "li" (Some [("parentName", "ul")])
          [ Text "Demonstrating empathy and kindness toward other people" ];
        Kt "li" (Some [("parentName", "ul")])
          [ Text "Being respectful of differing opinions, viewpoints, and experiences" ];
        Kt "li" (Some [("parentName", "ul")])
          [ Text "Giving and gracefully accepting constructive feedback" ];
        Kt "li" (Some [("parentName", "ul")])
          [ Text (lines [ "Accepting responsibility and apologizing to those affected by our mistakes,";
                         "and learning from the experience" ]) ];
        Kt "li" (Some [("parentName", "ul")])
          [ Text (lines [ "Focusing on what is best not just for us as individuals, but for the overall";
                         "community" ]) ] ];
    Kt "p" None
      [ Text "Examples of unacceptable behavior include:" ];
    Kt "ul" None
      [ Kt "li" (Some [("parentName", "ul")])
          [ Text (lines [ "The use of sexualized language or imagery, and sexual attention or advances of";
                         "any kind" ]) ];
        Kt "li" (Some [("parentName", "ul")])
          [ Text "Trolling, insulting or derogatory comments, and personal or political attacks" ];
        Kt "li" (Some [("parentName", "ul")])
          [ Text "Public or private harassment" ];
        Kt "li" (Some [("parentName", "ul")])
          [ Text (lines [ "Publishing others' private information, such as a physical or email address,";
                         "without their explicit permission" ]) ];
        Kt "li" (Some [("parentName", "ul")])
          [ Text (lines [ "Other conduct which could reasonably be considered inappropriate in a";
                         "professional setting" ]) ] ];
    Kt "h4" (Some [("id", "enforcement-responsibilities")])
      [ Text "Enforcement Responsibilities" ];
    Kt "p" None
      [ Text (lines [ "Community leaders are responsible for clarifying and enforcing our standards of";
                     "acceptable behavior and will take appropriate and fair corrective action in";
                     "response to any behavior that they deem inappropriate, threatening, offensive,";
                     "or harmful." ]) ];
    Kt "p" None
      [ Text (lines [ "Community leaders have the right and responsibility to remove, edit, or reject";
                     "comments, commits, code, wiki edits, issues, and other contributions that are";
                     "not aligned to this Code of Conduct, and will communicate reasons for moderation";
                     "decisions when appropriate." ]) ];
    Kt "h4" (Some [("id", "scope")])
      [ Text "Scope" ];
    Kt "p" None
      [ Text (lines [ "This Code of Conduct applies within all community spaces, and also applies when";
                     "an individual is officially representing the community in public spaces.";
                     "Examples of representing our community include using an official e-mail address,";
                     "posting via an official social media account, or acting as an appointed";
                     "representative at an online or offline event." ]) ];
    Kt "h4" (Some [("id", "enforcement")])
      [ Text "Enforcement" ];
    Kt "p" None
      [ Text (lines [ "Instances of abusive, harassing, or otherwise unacceptable behavior may be";
                     "reported to the community leaders responsible for enforcement writing an";
                     "email to " ]);
        Kt "a" (Some [("parentName", "p"); ("href", "mailto:leo@flashbots.net")])
          [ Text "leo@flashbots.net" ];
        Text (lines [ " or contacting elopio#8526 in";
                     "" ]);
        Kt "a" (Some [("parentName", "p"); ("href", "https://discord.com/invite/7hvTycdNcK")])
          [ Text "Discord" ];
        Text (lines [ ".";
                     "All complaints will be reviewed and investigated promptly and fairly." ]) ];
    Kt "p" None
      [ Text (lines [ "All community leaders are obligated to respect the privacy and security of the";
                     "reporter of any incident." ]) ];
    Kt "h4" (Some [("id", "enforcement-guidelines")])
      [ Text "Enforcement Guidelines" ];
    Kt "p" None
      [ Text (lines [ "Community leaders will follow these Community Impact Guidelines in determining";
                     "the consequences for any action they deem in violation of this Code of Conduct:" ]) ];
    Kt "h5" (Some [("id", "1-correction")])
      [ Text "1. Correction" ];
    Kt "p" None
      [ Kt "strong" (Some [("parentName", "p")])
          [ Text "Community Impact" ];
        Text (lines [ ": Use of inappropriate language or other behavior deemed";
                     "unprofessional or unwelcome in the community." ]) ];
    Kt "p" None
      [ Kt "strong" (Some [("parentName", "p")])
          [ Text "Consequence" ];
        Text (lines [ ": A private, written warning from community leaders, providing";
                     "clarity around the nature of the violation and an explanation of why the";
                     "behavior was inappropriate. A public apology may be requested." ]) ];
    Kt "h5" (Some [("id", "2-warning")])
      [ Text "2. Warning" ];
    Kt "p" None
      [ Kt "strong" (Some [("parentName", "p")])
          [ Text "Community Impact" ];
        Text (lines [ ": A violation through a single incident or series of";
                     "actions." ]) ];
    Kt "p" None
      [ Kt "strong" (Some [("parentName", "p")])
          [ Text "Consequence" ];
        Text (lines [ ": A warning with consequences for continued behavior. No";
                     "interaction with the people involved, including unsolicited interaction with";
                     "those enforcing the Code of Conduct, for a specified period of time. This";
                     "includes avoiding interactions in community spaces as well as external channels";
                     "like social media. Violating these terms may lead to a temporary or permanent";
                     "ban." ]) ];
    Kt "h5" (Some [("id", "3-temporary-ban")])
      [ Text "3. Temporary Ban" ];
    Kt "p" None
      [ Kt "strong" (Some [("parentName", "p")])
          [ Text "Community Impact" ];
        Text (lines [ ": A serious violation of community standards, including";
                     "sustained inappropriate behavior." ]) ];
    Kt "p" None
      [ Kt "strong" (Some [("parentName", "p")])
          [ Text "Consequence" ];
        Text (lines [ ": A temporary ban from any sort of interaction or public";
                     "communication with the community for a specified period of time. No public or";
                     "private interaction with the people involved, including unsolicited interaction";
                     "with those enforcing the Code of Conduct, is allowed during this period.";
                     "Violating these terms may lead to a permanent ban." ]) ];
    Kt "h5" (Some [("id", "4-permanent-ban")])
      [ Text "4. Permanent Ban" ];
    Kt "p" None
      [ Kt "strong" (Some [("parentName", "p")])
          [ Text "Community Impact" ];
        Text (lines [ ": Demonstrating a pattern of violation of community";
                     "standards, including sustained inappropriate behavior, harassment of an";
                     "individual, or aggression toward or disparagement of classes of individuals." ]) ];
    Kt "p" None
      [ Kt "strong" (Some [("parentName", "p")])
          [ Text "Consequence" ];
        Text (lines [ ": A permanent ban from any sort of public interaction within the";
                     "community." ]) ];
    Kt "h4" (Some [("id", "attribution")])
      [ Text "Attribution" ];
    Kt "p" None
      [ Text "This Code of Conduct is adapted from the ";
        Kt "a" (Some [("parentName", "p"); ("href", "https://www.contributor-covenant.org")])
          [ Text "Contributor Covenant" ];
        Text (lines [ ",";
                     "version 2.1, available at";
                     "" ]);
        Kt "a" (Some [("parentName", "p"); ("href", "https://www.contributor-covenant.org/version/2/1/code_of_conduct.html")])
          [ Text "https://www.contributor-covenant.org/version/2/1/code_of_conduct.html" ];
        Text "." ];
    Kt "p" None
      [ Text (lines [ "Community Impact Guidelines were inspired by";
                     "" ]);
        Kt "a" (Some [("parentName", "p"); ("href", "https://github.com/mozilla/diversity")])
          [ Text "Mozilla's code of conduct enforcement ladder" ];
        Text "." ];
    Kt "p" None
      [ Text (lines [ "For answers to common questions about this code of conduct, see the FAQ at";
                     "" ]);
        Kt "a" (Some [("parentName", "p"); ("href", "https://www.contributor-covenant.org/faq")])
          [ Text "https://www.contributor-covenant.org/faq" ];
        Text (lines [ ". Translations are available at";
                     "" ]);
        Kt "a" (Some [("parentName", "p"); ("href", "https://www.contributor-covenant.org/translations")])
          [ Text "https://www.contributor-covenant.org/translations" ];
        Text "." ]
  ].

(** The bindings of the module body that the page component closes over:
[[
a=["components"], ...,
u=[{value:"Contributor Covenant Code of Conduct",id:"contributor-covenant-code-of-conduct",children:[]}],
p={toc:u}
]] *)
Record module_5449 : Type := {
  var_a : val;
  var_u : val;
  var_p : val
}.

(** The module body up to the declaration of [d]; [c] (the front matter)
    and [s] (the metadata) are exported and not used by [d]. *)
Definition init : M module_5449 :=
  a ← alloc (Array [VString "components"]);
  c ← alloc (Object [("title", VString "code of conduct")]);
  tags ← alloc (Array []);
  frontMatter ← alloc (Object [("title", VString "code of conduct")]);
  previous ← alloc (Object [("title", VString "new to mev?");
                            ("permalink", VString "/new-to-mev")]);
  next ← alloc (Object [("title", VString "overview");
                        ("permalink", VString "/flashbots-auction/overview")]);
  s ← alloc (Object
    [ ("unversionedId", VString "code-of-conduct");
      ("id", VString "code-of-conduct");
      ("isDocsHomePage", VBoolean false);
      ("title", VString "code of conduct");
      ("description", VString "At Flashbots we contribute with the larger free software community to illuminate the dark forest.");
      ("source", VString "@site/docs/code-of-conduct.mdx");
      ("sourceDirName", VString ".");
      ("slug", VString "/code-of-conduct");
      ("permalink", VString "/code-of-conduct");
      ("tags", tags);
      ("version", VString "current");
      ("frontMatter", frontMatter);
      ("sidebar", VString "docs");
      ("previous", previous);
      ("next", next) ]);
  children ← alloc (Array []);
  heading ← alloc (Object [ ("value", VString "Contributor Covenant Code of Conduct");
                            ("id", VString "contributor-covenant-code-of-conduct");
                            ("children", children) ]);
  u ← alloc (Array [heading]);
  p ← alloc (Object [("toc", u)]);
  mret {| var_a := a; var_u := u; var_p := p |}.

(** [[
function d(e){var t=e.components,n=(0,i.Z)(e,a);
  return(0,r.kt)("wrapper",(0,o.Z)({},p,n,{components:t,mdxType:"MDXLayout"}),
    (0,r.kt)("p",null,"At Flashbots we contribute ..."), ...)}
]] *)
Definition d (env : module_5449) (e : val) : M val :=
  t ← get e "components";
  n ← objectWithoutPropertiesLoose e (var_a env);
  target ← alloc (Object []);
  literal ← alloc (Object [("components", t); ("mdxType", VString "MDXLayout")]);
  config ← _extends [target; var_p env; n; literal];
  children ← eval_all content;
  kt (VString "wrapper" :: config :: children).

(** *** Element trees

    What a render returns, read back from the heap: an element with its
    type, key, ref, its props other than [children] (object-valued props by
    reference, as React compares them) and the trees of its children.
    The private [_owner] of an element is not part of its tree. *)
Inductive tree : Type :=
| Leaf (v : val)
| Element (type key ref : val) (props : fields) (children : list tree).

Definition cell (h : heap) (v : val) : option object :=
  match v with
  | VRef l => h !! l
  | _ => None
  end.

Definition without (k : string) (fs : fields) : fields :=
  List.filter (fun kv => negb (String.eqb kv.1 k)) fs.

(** The children behind [props.children]: none for [undefined], the items
    of an array, or the one child. *)
Definition children_of (rec : val -> option tree) (h : heap) (child : val)
    : option (list tree) :=
  match child with
  | VUndefined => Some []
  | _ =>
      match cell h child with
      | Some (Array items) => mapM rec items
      | _ => t ← rec child; Some [t]
      end
  end.

(** [n] bounds the depth of the tree read. *)
Fixpoint reify (n : nat) (h : heap) (v : val) : option tree :=
  match cell h v with
  | Some (ReactElement type key ref props _) =>
      match n with
      | O => None
      | S n' =>
          match cell h props with
          | Some (Object fs) =>
              children ← children_of (reify n' h) h (assoc "children" fs);
              Some (Element type key ref (without "children" fs) children)
          | _ => None
          end
      end
  | Some _ => Some (Leaf v)
  | None =>
      match v with
      | VRef _ => None
      | _ => Some (Leaf v)
      end
  end.

(** *** The page as a function of its props *)

(** The target of a copy loop after the loop: for each key in turn, unless
    skipped, [tgt[key] = src[key]]. *)
Definition copy_fields (skip : string -> bool) (src : fields) (keys : list string)
    (tgt : fields) : fields :=
  foldl (fun acc k => if skip k then acc else assoc_set k (assoc k src) acc) tgt keys.

Definition copy_all (src tgt : fields) : fields :=
  copy_fields (fun _ => false) src (src.*1) tgt.

(** The cells [createElement(type, config, ...children)] appends to a heap
    of [base] cells when [config] is an object with the fields [cfs]: the
    props, the array of the children when there are several, the element. *)
Definition createElement_cells (base : nat) (type : val) (cfs : fields)
    (children : list val) : list object :=
  let key := key_of (assoc "key" cfs) in
  let ref := ref_of (assoc "ref" cfs) in
  let props := copy_fields RESERVED_PROPS cfs (cfs.*1) [] in
  match children with
  | [] => [Object props; ReactElement type key ref (VRef base) owner]
  | [child] =>
      [Object (assoc_set "children" child props);
       ReactElement type key ref (VRef base) owner]
  | _ =>
      [Object (assoc_set "children" (VRef (S base)) props); Array children;
       ReactElement type key ref (VRef base) owner]
  end.

(** The props [kt] hands to [createElement] for a string type. *)
Definition mdx_props (type : string) (config : fields) : fields :=
  assoc_set "mdxType" (VString type)
    (assoc_set "originalType" (VString type) (copy_all config [])).

(** The cells [kt(type, config, ...children)] appends for a string type:
    the argument array, the props [c], and the cells of [createElement]. *)
Definition kt_cells (base : nat) (type : string) (config : fields)
    (children : list val) : list object :=
  [Array (MDXCreateElement :: VRef (S base) :: children);
   Object (mdx_props type config)]
  ++ createElement_cells (S (S base)) MDXCreateElement (mdx_props type config) children.

(** The element [kt(type, config, ...children)] returns, for at least one
    child. *)
Definition mdx_element (type : string) (config : fields) (children : list tree) : tree :=
  let c := mdx_props type config in
  Element MDXCreateElement
    (key_of (assoc "key" c))
    (ref_of (assoc "ref" c))
    (without "children" (copy_fields RESERVED_PROPS c (c.*1) []))
    children.

Fixpoint tree_of (j : jsx) : tree :=
  match j with
  | Text s => Leaf (VString s)
  | Kt type props children =>
      mdx_element type
        (match props with
         | None => []
         | Some fs => map (fun kv => (kv.1, VString kv.2)) fs
         end)
        (map tree_of children)
  end.

Fixpoint depth (j : jsx) : nat :=
  match j with
  | Text _ => 0
  | Kt _ _ children => S (foldr (fun j' m => Nat.max (depth j') m) 0%nat children)
  end.

(** Every call of the page body passes at least one child. *)
Fixpoint has_children (j : jsx) : bool :=
  match j with
  | Text _ => true
  | Kt _ _ children =>
      match children with
      | [] => false
      | _ => forallb has_children children
      end
  end.

(** The second argument of the wrapper call, [{toc: u, ...rest,
    components, mdxType: "MDXLayout"}] with [rest] the props other than
    [components]. *)
Definition config_fields (env : module_5449) (props : fields) : fields :=
  let rest := copy_fields (fun k => bool_decide (VString k ∈ [VString "components"]))
                props (props.*1) [] in
  copy_all [("components", assoc "components" props); ("mdxType", VString "MDXLayout")]
    (copy_all rest (copy_all [("toc", var_u env)] [])).

Definition page (env : module_5449) (props : fields) : tree :=
  mdx_element "wrapper" (config_fields env props) (map tree_of content).

(** The value [v] is a child with the tree [t]: a primitive other than
    [undefined] or an element, read back as [t] with any bound from [N] on. *)
Definition child_at (h : heap) (N : nat) (v : val) (t : tree) : Prop :=
  (forall n, (N <= n)%nat -> reify n h v = Some t) /\
  v <> VUndefined /\
  (forall items, cell h v <> Some (Array items)).

(** On every heap the call [j] returns, appends cells and leaves the rest
    of the heap as it was, and its value reads back as [tree_of j]. *)
Definition evaluates (j : jsx) : Prop :=
  forall h : heap, exists (v : val) (new : heap),
    eval j h = Some (v, (h ++ new)%list) /\
    child_at (h ++ new)%list (depth j) v (tree_of j).

(** The second argument of a [kt] call: [null], or an object. *)
Definition config_at (h : heap) (t : val) (cfs : fields) : Prop :=
  (t = VNull /\ cfs = []) \/ cell h t = Some (Object cfs).

(** The heap holds the module's bindings as the module body left them. *)
Definition module_ok (env : module_5449) (h : heap) : Prop :=
  cell h (var_a env) = Some (Array [VString "components"]) /\
  cell h (var_p env) = Some (Object [("toc", var_u env)]).

(** *** Module 3905: the helpers of the MDX runtime

    As before an object is its own enumerable data properties; an own
    property named [__proto__], which an assignment would turn into the
    prototype, is outside the model. *)

(** [[
function i(e,t,n){return t in e?Object.defineProperty(e,t,
  {value:n,enumerable:!0,configurable:!0,writable:!0}):e[t]=n,e}
]]
    Babel's [_defineProperty]: on both arms [e] ends with the own data
    property [t] holding [n], an existing property keeping its place. *)
Definition _defineProperty (e : val) (t : string) (n : val) : M val :=
  set e t n;; mret e.

(** [[
function r(e,t){var n=Object.keys(e);if(Object.getOwnPropertySymbols){
  var o=Object.getOwnPropertySymbols(e);t&&(o=o.filter(..enumerable..)),n.push.apply(n,o)}
  return n}
]]
    Babel's [ownKeys]; the objects of the model have no symbol keys, so the
    flag [t] changes nothing. *)
Definition ownKeys (e : val) (t : bool) : M (list string) := own_keys e.

(** [Object.defineProperties(e, Object.getOwnPropertyDescriptors(n))]: every
    own property of [n] is defined on [e]; [e] has to be an object. *)
Definition defineProperties (e n : val) : M unit :=
  match e with
  | VRef _ =>
      keys ← own_keys n;
      for_each (fun k => x ← get n k; set e k x) keys
  | _ => throw
  end.

(** One turn of the loop of [a]: the source [arguments[t]], or [{}] in its
    place when it is [null] or [undefined], is copied key by key for an odd
    [t] and through its property descriptors for an even [t]. *)
Definition spread_source (e : val) (t : nat) (argument : val) : M unit :=
  n ← (if nullish argument then alloc (Object []) else mret argument);
  if Nat.odd t then
    keys ← ownKeys n true;
    for_each (fun k => x ← get n k; _defineProperty e k x;; mret tt) keys
  else defineProperties e n.

Fixpoint spread_from (e : val) (t : nat) (sources : list val) : M unit :=
  match sources with
  | [] => mret tt
  | n :: sources' => fun h =>
      match spread_source e t n h with
      | Some (_, h') => spread_from e (S t) sources' h'
      | None => None
      end
  end.

(** [[
function a(e){for(var t=1;t<arguments.length;t++){
  var n=null!=arguments[t]?arguments[t]:{};
  t%2?r(Object(n),!0).forEach((function(t){i(e,t,n[t])}))
     :Object.getOwnPropertyDescriptors
       ?Object.defineProperties(e,Object.getOwnPropertyDescriptors(n))
       :r(Object(n)).forEach(..)}
  return e}
]]
    Babel's [_objectSpread2]. *)
Definition _objectSpread2 (arguments : list val) : M val :=
  let e := nth 0 arguments VUndefined in
  spread_from e 1 (drop 1 arguments);;
  mret e.

(** [[
function c(e,t){if(null==e)return{};var n,o,i=function(e,t){..}(e,t);
  if(Object.getOwnPropertySymbols){var r=Object.getOwnPropertySymbols(e);
    for(o=0;o<r.length;o++)n=r[o],t.indexOf(n)>=0||
      Object.prototype.propertyIsEnumerable.call(e,n)&&(i[n]=e[n])}
  return i}
]]
    Babel's [_objectWithoutProperties]; the inner function is
    [objectWithoutPropertiesLoose], and the loop over the symbol keys
    visits none. *)
Definition _objectWithoutProperties (e t : val) : M val :=
  if nullish e then alloc (Object [])
  else objectWithoutPropertiesLoose e t.

(** *** Module 3905: components *)

(** The bindings of the module body that its components close over:
    the default value [{}] handed to [createContext] for [l], and
[[
p={inlineCode:"code",wrapper:function(e){var t=e.children;return o.createElement(o.Fragment,{},t)}}
]] *)
Record module_3905 : Type := {
  context_default : val;
  var_p_3905 : val
}.

Definition init_3905 : M module_3905 :=
  default_value ← alloc (Object []);
  p ← alloc (Object [("inlineCode", VString "code"); ("wrapper", VFunction "wrapper")]);
  mret {| context_default := default_value; var_p_3905 := p |}.

(** The function stored at [p.wrapper]. *)
Definition wrapper (e : val) : M val :=
  t ← get e "children";
  config ← alloc (Object []);
  createElement [VFunction "Fragment"; config; t].

(** [[
s=function(e){var t=o.useContext(l),n=t;
  return e&&(n="function"==typeof e?e(t):a(a({},t),e)),n}
]]
    exported as [useMDXComponents] in the package.  [context] is what
    [useContext(l)] answers in this render: the value of the nearest
    provider, or the default.  A function [e] is code of the caller. *)
Definition useMDXComponents (context : val) (e : val) : M val :=
  let t := context in
  if truthy e then
    match e with
    | VFunction _ => throw
    | _ =>
        target ← alloc (Object []);
        inner ← _objectSpread2 [target; t];
        _objectSpread2 [inner; e]
    end
  else mret t.

(** [[
u=function(e){var t=s(e.components);return o.createElement(l.Provider,{value:t},e.children)}
]]
    exported as [Zo]. *)
Definition MDXProvider (context : val) (e : val) : M val :=
  components ← get e "components";
  t ← useMDXComponents context components;
  config ← alloc (Object [("value", t)]);
  children ← get e "children";
  createElement [VFunction "MDXContext.Provider"; config; children].

(** The own property names of [Object.prototype], which every object
    literal inherits. *)
Definition Object_prototype : list string :=
  [ "constructor"; "__defineGetter__"; "__defineSetter__"; "hasOwnProperty";
    "__lookupGetter__"; "__lookupSetter__"; "isPrototypeOf";
    "propertyIsEnumerable"; "toString"; "valueOf"; "__proto__"; "toLocaleString" ].

Fixpoint has_dot (s : string) : bool :=
  match s with
  | EmptyString => false
  | String c s' => Ascii.eqb c "."%char || has_dot s'
  end.

(** What [o[k]] reads from an object literal with the own properties [fs],
    for a key computed at run time: the own property, else the member of
    [Object.prototype] of that name, else [undefined]. *)
Definition member (fs : fields) (k : string) : val :=
  if bool_decide (k ∈ fs.*1) then assoc k fs
  else if bool_decide (k ∈ Object_prototype) then VFunction ("Object.prototype." +:+ k)
  else VUndefined.

(** [v[k]] for a key computed at run time, on an object literal. *)
Definition get_computed (v : val) (k : string) : M val :=
  match v with
  | VRef l =>
      o ← load l;
      match o with
      | Object fs => mret (member fs k)
      | _ => throw
      end
  | _ => throw
  end.

(** [a || b] with [b] computed only when needed. *)
Definition or_else (a : val) (b : M val) : M val :=
  if truthy a then mret a else b.

(** The render function of [d], the component behind [MDXCreateElement];
    React calls it with the props of the element and the forwarded ref:
[[
d=o.forwardRef((function(e,t){
  var n=e.components,i=e.mdxType,r=e.originalType,l=e.parentName,
      u=c(e,["components","mdxType","originalType","parentName"]),
      d=s(n),m=i,
      f=d["".concat(l,".").concat(m)]||d[m]||p[m]||r;
  return n?o.createElement(f,a(a({ref:t},u),{},{components:n}))
          :o.createElement(f,a({ref:t},u))}))
]] *)
Definition MDXCreateElement_render (env : module_3905) (context : val) (e t : val)
    : M val :=
  n ← get e "components";
  i ← get e "mdxType";
  r ← get e "originalType";
  l ← get e "parentName";
  excluded ← alloc (Array [VString "components"; VString "mdxType";
                           VString "originalType"; VString "parentName"]);
  u ← _objectWithoutProperties e excluded;
  d ← useMDXComponents context n;
  let m := i in
  f1 ← get_computed d (to_string l +:+ "." +:+ to_string m);
  f ← or_else f1
        (f2 ← get_computed d (to_string m);
         or_else f2
           (f3 ← get_computed (var_p_3905 env) (to_string m);
            or_else f3 (mret r)));
  if truthy n then
    literal ← alloc (Object [("ref", t)]);
    inner ← _objectSpread2 [literal; u];
    empty ← alloc (Object []);
    components ← alloc (Object [("components", n)]);
    config ← _objectSpread2 [inner; empty; components];
    createElement [f; config]
  else
    literal ← alloc (Object [("ref", t)]);
    config ← _objectSpread2 [literal; u];
    createElement [f; config].

(** How React renders an element of the type [MDXCreateElement]: it calls
    the render function with the props of the element and its ref. *)
Definition render_mdx (env : module_3905) (context : val) (element : val) : M val :=
  o ← (match element with VRef l => load l | _ => throw end);
  match o with
  | ReactElement type key ref props _ =>
      if bool_decide (type = MDXCreateElement)
      then MDXCreateElement_render env context props ref
      else throw
  | _ => throw
  end.

(** The component a render picks, over the fields of the merged components
    and of the defaults [p]. *)
Definition resolve (components defaults : fields) (parentName mdxType originalType : val)
    : val :=
  let m := to_string mdxType in
  let f1 := member components (to_string parentName +:+ "." +:+ m) in
  if truthy f1 then f1
  else
    let f2 := member components m in
    if truthy f2 then f2
    else
      let f3 := member defaults m in
      if truthy f3 then f3 else originalType.

(** The literal [["components","mdxType","originalType","parentName"]]. *)
Definition MDX_PROPS : list val :=
  [VString "components"; VString "mdxType"; VString "originalType"; VString "parentName"].

(** The props a render hands on: those of the element other than the four
    of MDX. *)
Definition rest_props (props : fields) : fields :=
  copy_fields (fun k => bool_decide (VString k ∈ MDX_PROPS)) props (props.*1) [].

Definition DEFAULTS : fields :=
  [("inlineCode", VString "code"); ("wrapper", VFunction "wrapper")].

(** The heap holds the bindings of module 3905 as its body left them. *)
Definition module_3905_ok (env : module_3905) (h : heap) : Prop :=
  cell h (var_p_3905 env)
  = Some (Object [("inlineCode", VString "code"); ("wrapper", VFunction "wrapper")]).

(** A heap for the runtime: the module's two bindings, the value of a
    provider, the props of three elements and a components object. *)
Definition mdx_env : module_3905 :=
  {| context_default := VRef 0%nat; var_p_3905 := VRef 1%nat |}.

Definition mdx_heap : heap :=
  [ Object [];
    Object DEFAULTS;
    Object [("a", VFunction "Link"); ("li.p", VFunction "Tight"); ("p", VFunction "Para")];
    Object [("originalType", VString "p"); ("mdxType", VString "p");
            ("id", VString "intro"); ("children", VString "You are welcome here <3.")];
    Object [("parentName", VString "li"); ("originalType", VString "p");
            ("mdxType", VString "p"); ("children", VString "Public or private harassment")];
    Object [("p", VFunction "Lead")];
    Object [("components", VRef 5%nat); ("originalType", VString "p");
            ("mdxType", VString "p"); ("children", VString "Our Pledge")];
    Object [("originalType", VString "toString"); ("mdxType", VString "toString")] ].

(** The props [createElement] stores in the new element: the own properties
    of the config other than the reserved ones, and the children. *)
Definition element_props_of (base : nat) (cfs : fields) (children : list val) : fields :=
  let props := copy_fields RESERVED_PROPS cfs (cfs.*1) [] in
  match children with
  | [] => props
  | [child] => assoc_set "children" child props
  | _ => assoc_set "children" (VRef (S base)) props
  end.

(** The value of [props.children] after [createElement], for a config
    that holds [inherited] under [children]. *)
Definition children_value (base : nat) (inherited : val) (children : list val) : val :=
  match children with
  | [] => inherited
  | [child] => child
  | _ => VRef (S base)
  end.

(** The props [kt] hands to [createElement] when it wraps the type [e],
    [i] being [mdxType] of the config. *)
Definition mdx_props_of (e i : val) (config : fields) : fields :=
  assoc_set "mdxType" (if is_string e then e else i)
    (assoc_set "originalType" e (copy_all config [])).

Definition kt_cells_of (base : nat) (e i : val) (config : fields) (children : list val)
    : list object :=
  [Array (MDXCreateElement :: VRef (S base) :: children);
   Object (mdx_props_of e i config)]
  ++ createElement_cells (S (S base)) MDXCreateElement (mdx_props_of e i config) children.

(** [t && t.mdxType] *)
Definition mdxType_of (t : val) (cfs : fields) : val :=
  if truthy t then assoc "mdxType" cfs else t.

(** A heap with two configs, of a heading and of a component. *)
Definition kt_heap : heap :=
  [ Object [("id", VString "scope"); ("key", VString "k1"); ("mdxType", VString "ignored")];
    Object [("mdxType", VString "Tabs"); ("groupId", VString "os")];
    Object [("groupId", VString "os")] ].

(** [mdx_heap] and the config of a link inside a paragraph. *)
Definition mdx_link_heap : heap :=
  mdx_heap ++ [ Object [("parentName", VString "p");
                        ("href", VString "https://www.contributor-covenant.org")] ].

End current_owner.

(** [type && type.defaultProps] on the heap [h]: what [createElement]
    would read to fill in missing props.  Strings and the functions of the
    model have none. *)
Definition defaultProps_of (h : heap) (type : val) : val :=
  match cell h type with
  | Some (Object fs) => assoc "defaultProps" fs
  | _ => VUndefined
  end.

(** *** A page load *)

(** The module body runs on the empty heap, then the theme builds the props
    [{components: {a: Link, code: CodeBlock}}]. *)
Definition example_load : M (module_5449 * val) :=
  env ← init;
  components ← alloc (Object [("a", VFunction "Link"); ("code", VFunction "CodeBlock")]);
  e ← alloc (Object [("components", components)]);
  mret (env, e).

Definition example_env : module_5449 :=
  match example_load [] with
  | Some ((env, _), _) => env
  | None => {| var_a := VUndefined; var_u := VUndefined; var_p := VUndefined |}
  end.

Definition example_props : val :=
  match example_load [] with
  | Some ((_, e), _) => e
  | None => VUndefined
  end.

Definition example_heap : heap :=
  match example_load [] with
  | Some (_, h) => h
  | None => []
  end.






(** The owner recorded in the element at [v]. *)
Definition owner_at (h : heap) (v : val) : option val :=
  match cell h v with
  | Some (ReactElement _ _ _ _ _owner) => Some _owner
  | _ => None
  end.
End Chunk3725.

(** * Properties *)

(** ** [transactionIsRelatedToPair] *)

Lemma some_true_iff {A : Type} (f : A -> bool) (l : list A) :
  some f l = true <-> exists x, x ∈ l /\ f x = true.
Proof.
  induction l as [|y l IH]; simpl.
  - split; [discriminate | intros (x & Hx & _); inversion Hx].
  - destruct (f y) eqn:Hy.
    + split; [intros _; exists y; split; [left | exact Hy] | reflexivity].
    + rewrite IH. split.
      * intros (x & Hx & Hfx). exists x. split; [right; exact Hx | exact Hfx].
      * intros (x & Hx & Hfx). inversion Hx; subst.
        -- congruence.
        -- exists x. split; assumption.
Qed.

Lemma strict_eq_string_true (x : nullable string) (s : string) :
  strict_eq_string x s = true <-> x = present s.
Proof.
  destruct x as [| |a]; simpl; try (split; discriminate).
  rewrite String.eqb_eq. split; [intros ->; reflexivity | intros [= ->]; reflexivity].
Qed.

Example event_1_own_pair :
  transactionIsRelatedToPair event_1 "0x8255ffbb54bbb825cc544b67ccf36526e6101f5e" = true.
Proof. reflexivity. Qed.

Example event_1_weth_dai :
  transactionIsRelatedToPair event_1 (PAIR_ADDRESS_of WETH_DAI_PAIR) = false.
Proof. reflexivity. Qed.

(** C1.  The predicate is true exactly when [to] is the pair address or
    [logs] is present and one of its logs has the pair address in its
    [address] field; it is false exactly in every other case. *)
Theorem transactionIsRelatedToPair_iff (tx : IPendingTransaction) (P : string) :
  (transactionIsRelatedToPair tx P = true <->
     to tx = present P \/
     exists l : list LogParams, logs tx = present l /\ exists log, log ∈ l /\ address log = P)
  /\
  (transactionIsRelatedToPair tx P = false <->
     ~ (to tx = present P \/
        exists l : list LogParams, logs tx = present l /\ exists log, log ∈ l /\ address log = P)).
Proof.
  assert (Hiff : transactionIsRelatedToPair tx P = true <->
     to tx = present P \/
     exists l : list LogParams, logs tx = present l /\ exists log, log ∈ l /\ address log = P).
  { unfold transactionIsRelatedToPair.
    rewrite orb_true_iff, strict_eq_string_true, some_true_iff.
    apply or_iff_compat_l. split.
    - intros (log & Hin & Heq). apply String.eqb_eq in Heq.
      destruct (logs tx) as [| |l]; simpl in Hin; try (inversion Hin; fail).
      exists l. split; [reflexivity | exists log; split; assumption].
    - intros (l & Hl & log & Hin & Heq). rewrite Hl. simpl.
      exists log. split; [exact Hin | apply String.eqb_eq; exact Heq]. }
  split; [exact Hiff |].
  rewrite <- Hiff. destruct (transactionIsRelatedToPair tx P); split; congruence.
Qed.

Lemma dyn_some_of_log (P : string) (l : list LogParams) :
  Dyn.some (fun log => a ← Dyn.get log "address"; mret (Dyn.strict_eq_string a P))
           (map Dyn.of_log l)
  = Dyn.Normal (some (fun log => String.eqb (address log) P) l).
Proof.
  induction l as [|log l IH]; simpl; [reflexivity |].
  destruct (String.eqb (address log) P); [reflexivity | exact IH].
Qed.

Lemma dyn_agrees (tx : IPendingTransaction) (P : string) :
  Dyn.transactionIsRelatedToPair (Dyn.of_tx tx) P
  = Dyn.Normal (Dyn.VBoolean (transactionIsRelatedToPair tx P)).
Proof.
  destruct tx as [h lg t fs cd gu mg].
  unfold Dyn.transactionIsRelatedToPair, transactionIsRelatedToPair. simpl.
  destruct t as [| |a]; simpl;
    try (destruct (String.eqb a P); [reflexivity |]);
    destruct lg as [| |l]; simpl; try reflexivity;
    rewrite dyn_some_of_log; reflexivity.
Qed.

(** Outside the interface the call can throw: an event that is not an
    object, or a [logs] array holding [null]. *)
Example dyn_throws_on_null :
  Dyn.transactionIsRelatedToPair Dyn.VNull "0xabc" = Dyn.TypeError.
Proof. reflexivity. Qed.

Example dyn_throws_on_null_log :
  Dyn.transactionIsRelatedToPair
    (Dyn.VObject [("to", Dyn.VNull); ("logs", Dyn.VArray [Dyn.VNull])]) "0xabc"
  = Dyn.TypeError.
Proof. reflexivity. Qed.

(** C2.  On every event of the interface the call completes normally with
    a boolean, the one the typed embedding computes; with [logs] null or
    undefined the result is the one for the empty list, that is the [to]
    comparison alone. *)
Theorem transactionIsRelatedToPair_total (tx : IPendingTransaction) (P : string) :
  Dyn.transactionIsRelatedToPair (Dyn.of_tx tx) P
    = Dyn.Normal (Dyn.VBoolean (transactionIsRelatedToPair tx P))
  /\ transactionIsRelatedToPair (with_logs null tx) P
       = transactionIsRelatedToPair (with_logs (present []) tx) P
  /\ transactionIsRelatedToPair (with_logs undefined tx) P
       = transactionIsRelatedToPair (with_logs (present []) tx) P
  /\ transactionIsRelatedToPair (with_logs null tx) P = strict_eq_string (to tx) P
  /\ transactionIsRelatedToPair (with_logs undefined tx) P = strict_eq_string (to tx) P.
Proof.
  split; [apply dyn_agrees |].
  unfold transactionIsRelatedToPair; simpl.
  rewrite orb_false_r. repeat split; reflexivity.
Qed.

(** The event with nothing shared but its hash, and the same with [to]
    null and [logs] left out. *)
Example nothing_shared :
  Dyn.transactionIsRelatedToPair
    (Dyn.of_tx {| hash := "0x26ab"; logs := undefined; to := null;
                  functionSelector := null; callData := null;
                  gasUsed := undefined; mevGasPrice := undefined |})
    (PAIR_ADDRESS_of WETH_DAI_PAIR)
  = Dyn.Normal (Dyn.VBoolean false).
Proof. reflexivity. Qed.

(** C3.  Two events that agree on [to] and [logs] get the same answer,
    whatever their other fields; the call is a function of its input, in
    the typed and in the untyped embedding. *)
Theorem transactionIsRelatedToPair_only_to_and_logs
    (P : string) (tx1 tx2 : IPendingTransaction) :
  to tx1 = to tx2 ->
  logs tx1 = logs tx2 ->
  transactionIsRelatedToPair tx1 P = transactionIsRelatedToPair tx2 P
  /\ Dyn.transactionIsRelatedToPair (Dyn.of_tx tx1) P
       = Dyn.transactionIsRelatedToPair (Dyn.of_tx tx2) P.
Proof.
  intros Hto Hlogs.
  assert (H : transactionIsRelatedToPair tx1 P = transactionIsRelatedToPair tx2 P).
  { unfold transactionIsRelatedToPair. rewrite Hto, Hlogs. reflexivity. }
  split; [exact H |].
  rewrite !dyn_agrees, H. reflexivity.
Qed.

Lemma transactionIsRelatedToPair_only_to_and_logs_witness :
  let tx2 := {| hash := "0xeb0d75030e0c7253b60a17a58eb2a2e66a6e3ca58343cadece70a528dfd378a1";
                logs := logs event_1; to := to event_1;
                functionSelector := present "0xa9059cbb";
                callData := present "0xa9059cbb00";
                gasUsed := present 21000; mevGasPrice := present 7 |} in
  hash event_1 <> hash tx2
  /\ transactionIsRelatedToPair event_1 "0x8255ffbb54bbb825cc544b67ccf36526e6101f5e"
     = transactionIsRelatedToPair tx2 "0x8255ffbb54bbb825cc544b67ccf36526e6101f5e".
Proof.
  intros tx2. split; [discriminate |].
  apply (transactionIsRelatedToPair_only_to_and_logs
           "0x8255ffbb54bbb825cc544b67ccf36526e6101f5e" event_1 tx2); reflexivity.
Defined.

(** C4.  Matching is case-sensitive: an event sent to the pair address
    written with another letter case, and with no logs, is not related. *)
Theorem transactionIsRelatedToPair_case_sensitive
    (tx : IPendingTransaction) (P a : string) :
  to tx = present a ->
  toLowerCase a = toLowerCase P ->
  a <> P ->
  or_empty (logs tx) = [] ->
  transactionIsRelatedToPair tx P = false.
Proof.
  intros Hto _ Hne Hlogs. unfold transactionIsRelatedToPair.
  rewrite Hto, Hlogs. simpl. rewrite orb_false_r.
  apply String.eqb_neq. exact Hne.
Qed.

Lemma transactionIsRelatedToPair_case_sensitive_witness :
  PAIR_ADDRESS_of WETH_DAI_PAIR = "0xa478c2975ab1ea89e8196811f51a7b7ade33eb11"
  /\ transactionIsRelatedToPair
       {| hash := "0x26ab"; logs := present []; to := present WETH_DAI_PAIR;
          functionSelector := null; callData := null;
          gasUsed := undefined; mevGasPrice := undefined |}
       (PAIR_ADDRESS_of WETH_DAI_PAIR) = false.
Proof.
  split; [reflexivity |].
  apply (transactionIsRelatedToPair_case_sensitive _ _ WETH_DAI_PAIR);
    [reflexivity | reflexivity | discriminate | reflexivity].
Defined.

(** ** [approveTokenToRouter] *)

Section approve_facts.
Import Approve.

(** The run of the function, by the two tests of its body. *)
Lemma run_approveTokenToRouter (w : world) (exec token router : string) :
  run (approveTokenToRouter exec token router) w =
  if balance_of w token exec =? 0 then
    (Exited 1, print_err ("No token balance for " +:+ token) w)
  else if allowance_of w token exec router >=? balance_of w token exec then
    (Returned tt, print_out "Token already approved" w)
  else
    (Returned tt,
     send {| tx_token := token; tx_sender := exec; tx_spender := router;
             tx_amount := MAX_UINT256 |} w).
Proof.
  unfold approveTokenToRouter. cbn.
  destruct (balance_of w token exec =? 0); cbn; [reflexivity |].
  destruct (allowance_of w token exec router >=? balance_of w token exec);
    reflexivity.
Qed.

Example run_no_balance :
  let r := run (approveTokenToRouter wallet weth router) (world_of 5 0) in
  r.1 = Exited 1 /\ mempool r.2 = [] /\ stderr r.2 = ["No token balance for 0xWETH"].
Proof. vm_compute. repeat split. Qed.

Example run_already_approved :
  let r := run (approveTokenToRouter wallet weth router) (world_of 10 10) in
  r.1 = Returned tt /\ mempool r.2 = [] /\ stdout r.2 = ["Token already approved"].
Proof. vm_compute. repeat split. Qed.

Example run_approves :
  let r := run (approveTokenToRouter wallet weth router) (world_of 9 10) in
  r.1 = Returned tt
  /\ mempool r.2 = [ {| tx_token := weth; tx_sender := wallet; tx_spender := router;
                        tx_amount := 2 ^ 256 - 1 |} ]
  /\ allowance_of (mine r.2) weth wallet router = 2 ^ 256 - 1.
Proof. vm_compute. repeat split. Qed.

(** C5, the amended claim.  An approve transaction is sent only when the
    balance is nonzero and the allowance is below it, and then it is the
    one for [2^256 - 1]; with a zero balance (the first test of the body)
    the error is printed and the process exits with nothing sent; with an
    allowance at or above the balance nothing is sent and the allowance
    stays what it was, also once the mempool is mined; and with a nonzero
    balance and an allowance at or above it the function returns. *)
Theorem approveTokenToRouter_spec (w : world) (exec token spender : string) :
  let a := allowance_of w token exec spender in
  let b := balance_of w token exec in
  let max_approval :=
    {| tx_token := token; tx_sender := exec; tx_spender := spender;
       tx_amount := 2 ^ 256 - 1 |} in
  let r := run (approveTokenToRouter exec token spender) w in
  (mempool r.2 ≠ mempool w ->
     b <> 0 /\ a < b /\ r.1 = Returned tt /\ mempool r.2 = (mempool w ++ [max_approval])%list)
  /\ (b <> 0 -> a < b -> r = (Returned tt, send max_approval w))
  /\ (b = 0 ->
      r = (Exited 1, print_err ("No token balance for " +:+ token) w)
      /\ mempool r.2 = mempool w)
  /\ (a >= b ->
      mempool r.2 = mempool w
      /\ allowances r.2 = allowances w
      /\ allowances (mine r.2) = allowances (mine w))
  /\ (b <> 0 -> a >= b -> r = (Returned tt, print_out "Token already approved" w)).
Proof.
  intros a b max_approval r. subst r. rewrite run_approveTokenToRouter.
  fold a b. change MAX_UINT256 with (2 ^ 256 - 1). fold max_approval.
  destruct (Z.eqb_spec b 0) as [Hb|Hb]; [| destruct (Z.geb_spec a b) as [Hab|Hab]];
    simpl; repeat split; try reflexivity; try congruence; try lia.
  all: try (intros; exfalso; lia).
  all: try (intros H; exfalso; apply H; reflexivity).
Qed.

(** C5 as the specification states it fails for a wallet that holds none of
    the token.  Its allowance, zero, is at least its balance, zero, and
    still the call does not return: the zero-balance test comes first, the
    error is printed and the process ends with status 1. *)
Lemma approveTokenToRouter_zero_balance_exits :
  let w := world_of 0 0 in
  let r := run (approveTokenToRouter wallet weth router) w in
  allowance_of w weth wallet router >= balance_of w weth wallet
  /\ r.1 = Exited 1
  /\ r.1 <> Returned tt
  /\ stderr r.2 = ["No token balance for 0xWETH"].
Proof.
  cbv zeta. split; [vm_compute; discriminate |].
  vm_compute. repeat split. discriminate.
Qed.

End approve_facts.

(** ** [main] and its listener *)

Section main_facts.
Local Open Scope list_scope.

Lemma with_chain_chain (w : Main.world) : Main.with_chain (Main.chain w) w = w.
Proof. destruct w; reflexivity. Qed.

(** A call runs the callee on the chain and goes on, or ends the process
    where the callee ends it. *)
Lemma run_call {A B : Type} (p : Approve.prog A) (k : A -> Main.prog B) :
  forall w : Main.world,
    Main.run (Main.call p ≫= k) w
    = match Approve.run p (Main.chain w) with
      | (Approve.Returned a, c) => Main.run (k a) (Main.with_chain c w)
      | (Approve.Exited code, c) => (Approve.Exited code, Main.with_chain c w)
      end.
Proof.
  induction p as [a|X e k' IH]; intros w.
  - simpl. rewrite with_chain_chain. reflexivity.
  - cbn. destruct (Approve.handle e (Main.chain w)) as [[x|code] c]; cbn.
    + apply (IH x (Main.with_chain c w)).
    + reflexivity.
Qed.

(** The run of [main], by the run of [approveTokenToRouter] inside it. *)
Lemma run_main (b : Main.bindings) (w : Main.world) :
  Main.run (Main.main b) w
  = let c0 :=
      Approve.print_out ("executor address: " +:+ Main.executorWallet_address b)
        (Approve.print_out ("mev-share auth address: " +:+ Main.authSigner_address b)
           (Main.chain w)) in
    match Approve.run
            (Approve.approveTokenToRouter (Main.executorWallet_address b)
               (Main.SELL_TOKEN_ADDRESS b) (Main.UNISWAP_V2_ADDRESS b)) c0 with
    | (Approve.Returned _, c) =>
        (Approve.Returned tt,
         Main.listen
           (Main.callback
              (toLowerCase (Main.pair_of w (Main.SELL_TOKEN_ADDRESS b)
                                           (Main.BUY_TOKEN_ADDRESS b))))
           (Main.with_chain c w))
    | (Approve.Exited code, c) => (Approve.Exited code, Main.with_chain c w)
    end.
Proof.
  unfold Main.main. cbn -[Approve.approveTokenToRouter Main.call toLowerCase].
  rewrite run_call. cbn -[Approve.approveTokenToRouter toLowerCase].
  destruct (Approve.run _ _) as [[[]|code] c]; reflexivity.
Qed.

(** The run of [main] when the wallet holds some of the token to sell. *)
Lemma run_main_with_balance (b : Main.bindings) (w : Main.world) :
  Approve.balance_of (Main.chain w) (Main.SELL_TOKEN_ADDRESS b)
    (Main.executorWallet_address b) <> 0 ->
  Main.run (Main.main b) w
  = let c0 :=
      Approve.print_out ("executor address: " +:+ Main.executorWallet_address b)
        (Approve.print_out ("mev-share auth address: " +:+ Main.authSigner_address b)
           (Main.chain w)) in
    (Approve.Returned tt,
     Main.listen
       (Main.callback
          (toLowerCase (Main.pair_of w (Main.SELL_TOKEN_ADDRESS b)
                                       (Main.BUY_TOKEN_ADDRESS b))))
       (Main.with_chain
          (if Approve.allowance_of (Main.chain w) (Main.SELL_TOKEN_ADDRESS b)
                (Main.executorWallet_address b) (Main.UNISWAP_V2_ADDRESS b)
              <? Approve.balance_of (Main.chain w) (Main.SELL_TOKEN_ADDRESS b)
                   (Main.executorWallet_address b)
           then Approve.send
                  {| Approve.tx_token := Main.SELL_TOKEN_ADDRESS b;
                     Approve.tx_sender := Main.executorWallet_address b;
                     Approve.tx_spender := Main.UNISWAP_V2_ADDRESS b;
                     Approve.tx_amount := 2 ^ 256 - 1 |} c0
           else Approve.print_out "Token already approved" c0)
          w)).
Proof.
  intros Hb. rewrite run_main. cbv zeta.
  rewrite run_approveTokenToRouter.
  change (Approve.balance_of (Approve.print_out _ (Approve.print_out _ (Main.chain w)))
            (Main.SELL_TOKEN_ADDRESS b) (Main.executorWallet_address b))
    with (Approve.balance_of (Main.chain w) (Main.SELL_TOKEN_ADDRESS b)
            (Main.executorWallet_address b)).
  change (Approve.allowance_of (Approve.print_out _ (Approve.print_out _ (Main.chain w)))
            (Main.SELL_TOKEN_ADDRESS b) (Main.executorWallet_address b)
            (Main.UNISWAP_V2_ADDRESS b))
    with (Approve.allowance_of (Main.chain w) (Main.SELL_TOKEN_ADDRESS b)
            (Main.executorWallet_address b) (Main.UNISWAP_V2_ADDRESS b)).
  destruct (Z.eqb_spec (Approve.balance_of (Main.chain w) (Main.SELL_TOKEN_ADDRESS b)
                          (Main.executorWallet_address b)) 0) as [Hz|_]; [contradiction |].
  rewrite Z.geb_leb, Z.leb_antisym.
  destruct (_ <? _); reflexivity.
Qed.

(** X1.  With no balance of the token to sell, [main] ends the process with
    code 1 before it reaches the event stream: the two address lines and
    the error are printed, no listener is registered, nothing is sent. *)
Theorem main_without_balance (b : Main.bindings) (w : Main.world) :
  Approve.balance_of (Main.chain w) (Main.SELL_TOKEN_ADDRESS b)
    (Main.executorWallet_address b) = 0 ->
  let r := Main.run (Main.main b) w in
  r.1 = Approve.Exited 1
  /\ Main.listeners r.2 = Main.listeners w
  /\ Approve.mempool (Main.chain r.2) = Approve.mempool (Main.chain w)
  /\ Approve.stdout (Main.chain r.2)
     = Approve.stdout (Main.chain w)
       ++ ["mev-share auth address: " +:+ Main.authSigner_address b;
           "executor address: " +:+ Main.executorWallet_address b]
  /\ Approve.stderr (Main.chain r.2)
     = Approve.stderr (Main.chain w)
       ++ ["No token balance for " +:+ Main.SELL_TOKEN_ADDRESS b].
Proof.
  intros Hb r. subst r. rewrite run_main. cbv zeta.
  rewrite run_approveTokenToRouter.
  change (Approve.balance_of (Approve.print_out _ (Approve.print_out _ (Main.chain w)))
            (Main.SELL_TOKEN_ADDRESS b) (Main.executorWallet_address b))
    with (Approve.balance_of (Main.chain w) (Main.SELL_TOKEN_ADDRESS b)
            (Main.executorWallet_address b)).
  rewrite Hb. simpl. rewrite <- app_assoc. repeat split; reflexivity.
Qed.

Lemma main_without_balance_witness :
  (Main.run (Main.main Main.bot) (Main.start 5 0)).1 = Approve.Exited 1
  /\ Main.listeners (Main.run (Main.main Main.bot) (Main.start 5 0)).2 = [].
Proof.
  destruct (main_without_balance Main.bot (Main.start 5 0)) as (H1 & H2 & _).
  - vm_compute. reflexivity.
  - split; [exact H1 | exact H2].
Defined.



(** X3.  A pending transaction handed to the listener of [main] prints one
    line, the match line when the transaction is related to the lowercased
    pair address and the skip line otherwise; the listener returns, sends
    nothing and writes nothing else. *)
Theorem main_listener_prints_one_line
    (b : Main.bindings) (w : Main.world) (tx : IPendingTransaction) :
  Main.listeners w = [] ->
  Approve.balance_of (Main.chain w) (Main.SELL_TOKEN_ADDRESS b)
    (Main.executorWallet_address b) <> 0 ->
  let w' := (Main.run (Main.main b) w).2 in
  let PAIR_ADDRESS :=
    toLowerCase (Main.pair_of w (Main.SELL_TOKEN_ADDRESS b) (Main.BUY_TOKEN_ADDRESS b)) in
  Main.deliver tx w'
  = (Approve.Returned tt,
     Main.with_chain
       (Approve.print_out
          (if transactionIsRelatedToPair tx PAIR_ADDRESS
           then "It's a match: " +:+ hash tx
           else "skipping tx: " +:+ hash tx)
          (Main.chain w'))
       w').
Proof.
  intros Hl Hb w' PAIR_ADDRESS.
  subst w'. rewrite (run_main_with_balance b w Hb). cbv zeta.
  unfold Main.deliver. simpl. rewrite Hl. simpl.
  unfold Main.callback. fold PAIR_ADDRESS.
  destruct (transactionIsRelatedToPair tx PAIR_ADDRESS); reflexivity.
Qed.

Lemma main_listener_prints_one_line_witness :
  Approve.stdout
    (Main.chain (Main.deliver event_1 (Main.run (Main.main Main.bot) (Main.start 10 10)).2).2)
  = [ "mev-share auth address: 0xAuth";
      "executor address: 0xExecutor";
      "Token already approved";
      "skipping tx: 0x26aba6f3c5083d58915161efb0cd0f713418cdd7a95425cdde451efd1dfb5dff" ].
Proof.
  rewrite (main_listener_prints_one_line Main.bot (Main.start 10 10) event_1).
  - reflexivity.
  - reflexivity.
  - vm_compute. discriminate.
Defined.

(** X4.  The listener compares with the lowercased pair address only: when the
    factory's answer has an uppercase letter, a transaction sent to that
    very answer, with no logs, is skipped. *)
Theorem main_skips_other_case
    (b : Main.bindings) (w : Main.world) (tx : IPendingTransaction) (g : string) :
  Main.listeners w = [] ->
  Approve.balance_of (Main.chain w) (Main.SELL_TOKEN_ADDRESS b)
    (Main.executorWallet_address b) <> 0 ->
  Main.pair_of w (Main.SELL_TOKEN_ADDRESS b) (Main.BUY_TOKEN_ADDRESS b) = g ->
  toLowerCase g <> g ->
  to tx = present g ->
  or_empty (logs tx) = [] ->
  let w' := (Main.run (Main.main b) w).2 in
  Approve.stdout (Main.chain (Main.deliver tx w').2)
  = Approve.stdout (Main.chain w') ++ ["skipping tx: " +:+ hash tx].
Proof.
  intros Hl Hb Hg Hcase Hto Hlogs w'. subst w'.
  rewrite (run_main_with_balance b w Hb). cbv zeta.
  unfold Main.deliver. simpl. rewrite Hl, Hg. simpl.
  unfold Main.callback, transactionIsRelatedToPair.
  rewrite Hto, Hlogs. simpl. rewrite orb_false_r.
  destruct (String.eqb_spec g (toLowerCase g)) as [Heq|_]; [congruence |].
  reflexivity.
Qed.

Lemma main_skips_other_case_witness :
  let w' := (Main.run (Main.main Main.bot) (Main.start 10 10)).2 in
  let tx := {| hash := "0x26ab"; logs := present []; to := present WETH_DAI_PAIR;
               functionSelector := null; callData := null;
               gasUsed := undefined; mevGasPrice := undefined |} in
  Approve.stdout (Main.chain (Main.deliver tx w').2)
  = Approve.stdout (Main.chain w') ++ ["skipping tx: 0x26ab"].
Proof.
  intros w' tx.
  apply (main_skips_other_case Main.bot (Main.start 10 10) tx WETH_DAI_PAIR).
  - reflexivity.
  - vm_compute. discriminate.
  - reflexivity.
  - vm_compute. discriminate.
  - reflexivity.
  - reflexivity.
Defined.

End main_facts.

(** ** [approveTokenToRouter], called again *)

Section approve_again.
Import Approve.
Local Open Scope list_scope.

Lemma allowance_of_mine_sent (w : world) (token owner spender : string) (amount : Z) :
  mempool w = [] ->
  allowance_of
    (mine (send {| tx_token := token; tx_sender := owner; tx_spender := spender;
                   tx_amount := amount |} w)) token owner spender
  = amount.
Proof.
  intros Hm. unfold allowance_of, mine, send. simpl. rewrite Hm. simpl.
  unfold apply_approve. simpl. rewrite lookup_insert_eq. reflexivity.
Qed.

(** X5.  Once the approval of a first call is mined, a second call finds the
    router approved and sends nothing, for every balance a [uint256] can
    hold. *)
Theorem approveTokenToRouter_then_approved (w : world) (exec token spender : string) :
  mempool w = [] ->
  0 < balance_of w token exec <= 2 ^ 256 - 1 ->
  let w1 := mine (run (approveTokenToRouter exec token spender) w).2 in
  run (approveTokenToRouter exec token spender) w1
  = (Returned tt, print_out "Token already approved" w1).
Proof.
  intros Hm [Hpos Hmax] w1. subst w1. rewrite !run_approveTokenToRouter.
  destruct (Z.eqb_spec (balance_of w token exec) 0) as [Hz|_]; [lia |].
  destruct (Z.geb_spec (allowance_of w token exec spender) (balance_of w token exec))
    as [Hge|Hlt]; cbn [snd].
  - change (balance_of (mine (print_out "Token already approved" w)) token exec)
      with (balance_of w token exec).
    assert (Ha : allowance_of (mine (print_out "Token already approved" w)) token exec spender
                 = allowance_of w token exec spender).
    { unfold allowance_of, mine. simpl. rewrite Hm. reflexivity. }
    rewrite Ha.
    destruct (Z.eqb_spec (balance_of w token exec) 0) as [Hz|_]; [lia |].
    destruct (Z.geb_spec (allowance_of w token exec spender) (balance_of w token exec));
      [reflexivity | lia].
  - rewrite (allowance_of_mine_sent w token exec spender MAX_UINT256 Hm).
    change (balance_of (mine (send _ w)) token exec) with (balance_of w token exec).
    destruct (Z.eqb_spec (balance_of w token exec) 0) as [Hz|_]; [lia |].
    change MAX_UINT256 with (2 ^ 256 - 1).
    destruct (Z.geb_spec (2 ^ 256 - 1) (balance_of w token exec)); [reflexivity | lia].
Qed.

Lemma approveTokenToRouter_then_approved_witness :
  let w1 := mine (run (approveTokenToRouter wallet weth router) (world_of 9 10)).2 in
  allowance_of w1 weth wallet router = 2 ^ 256 - 1
  /\ (run (approveTokenToRouter wallet weth router) w1).1 = Returned tt
  /\ mempool (run (approveTokenToRouter wallet weth router) w1).2 = [].
Proof.
  intros w1. split; [vm_compute; reflexivity |].
  subst w1.
  rewrite (approveTokenToRouter_then_approved (world_of 9 10) wallet weth router).
  - split; reflexivity.
  - reflexivity.
  - vm_compute. split; [reflexivity | discriminate].
Defined.



End approve_again.

(** ** [transactionIsRelatedToPair] on untyped events *)

Section untyped_facts.
Local Open Scope list_scope.

Lemma dyn_get_field (v : Dyn.value) (name : string) :
  untyped_nullish v = false -> Dyn.get v name = Dyn.Normal (untyped_field v name).
Proof. destruct v; try reflexivity; discriminate. Qed.

Lemma dyn_get_nullish (v : Dyn.value) (name : string) :
  untyped_nullish v = true -> Dyn.get v name = Dyn.TypeError.
Proof. destruct v; try reflexivity; discriminate. Qed.

Lemma dyn_some_throws (P : string) (items : list Dyn.value) :
  Dyn.some (fun log => a ← Dyn.get log "address"; mret (Dyn.strict_eq_string a P)) items
  = Dyn.TypeError
  <-> broken_before_hit P items.
Proof.
  induction items as [|x items IH].
  - split; [discriminate |]. intros (before & bad & after & Heq & _).
    destruct before; discriminate Heq.
  - cbn [Dyn.some]. destruct (untyped_nullish x) eqn:Hx.
    + rewrite (dyn_get_nullish x "address" Hx). split; [|reflexivity].
      intros _. exists [], x, items. repeat split; [exact Hx | constructor].
    + rewrite (dyn_get_field x "address" Hx).
      change ((Dyn.Normal (untyped_field x "address")
               ≫= fun a => mret (Dyn.strict_eq_string a P)))
        with (Dyn.Normal (address_is P x)).
      destruct (address_is P x) eqn:Hhit.
      * split; [discriminate |]. intros (before & bad & after & Heq & Hbad & Hall).
        destruct before as [|y before]; simpl in Heq; injection Heq as -> ->.
        -- congruence.
        -- inversion Hall as [|? ? [_ Hy] _]; subst. congruence.
      * rewrite IH. split.
        -- intros (before & bad & after & -> & Hbad & Hall).
           exists (x :: before), bad, after. repeat split; [exact Hbad |].
           constructor; [split; assumption | exact Hall].
        -- intros (before & bad & after & Heq & Hbad & Hall).
           destruct before as [|y before]; simpl in Heq; injection Heq as -> ->.
           ++ congruence.
           ++ inversion Hall; subst. exists before, bad, after. repeat split; assumption.
Qed.

(** X7.  On an event that is plain data ([undefined], [null], a boolean, a
    BigInt, a string, or an array or object literal of such values: what
    [Dyn.value] holds, with no function, getter, typed array or class
    instance anywhere) the call throws in exactly these cases: the event is
    [null] or [undefined]; or [to] is not the pair address and [logs] is
    truthy but no array, or an array with a [null] or [undefined] entry
    that no log with the pair address precedes.  A matching [to], or a
    matching log before the broken entry, keeps the call from throwing. *)
Theorem transactionIsRelatedToPair_throws_iff (v : Dyn.value) (P : string) :
  Dyn.transactionIsRelatedToPair v P = Dyn.TypeError
  <-> untyped_nullish v = true
      \/ (untyped_nullish v = false
          /\ Dyn.strict_eq_string (untyped_field v "to") P = false
          /\ Dyn.truthy (untyped_field v "logs") = true
          /\ match untyped_field v "logs" with
             | Dyn.VArray items => broken_before_hit P items
             | _ => True
             end).
Proof.
  unfold Dyn.transactionIsRelatedToPair.
  destruct (untyped_nullish v) eqn:Hv.
  - rewrite (dyn_get_nullish v "to" Hv). split; [left; reflexivity | reflexivity].
  - rewrite (dyn_get_field v "to" Hv). cbn [mbind Dyn.completion_bind Dyn.bind].
    destruct (Dyn.strict_eq_string (untyped_field v "to") P) eqn:Hto.
    + split; [discriminate | intros [H|(_ & H & _)]; discriminate H].
    + rewrite (dyn_get_field v "logs" Hv). cbn [mbind Dyn.completion_bind Dyn.bind].
      unfold Dyn.or.
      destruct (Dyn.truthy (untyped_field v "logs")) eqn:Hl.
      * destruct (untyped_field v "logs") as [| |b|z|s|items|fields] eqn:Hlogs;
          try discriminate Hl;
          try (split; [intros _; right; repeat split | reflexivity]; fail).
        cbn [Dyn.call_some].
        pose proof (dyn_some_throws P items) as Hsome.
        destruct (Dyn.some _ items) as [hit|] eqn:Hs.
        -- split; [discriminate |]. intros [H|(_ & _ & _ & H)]; [discriminate H |].
           apply Hsome in H. discriminate H.
        -- split; [|reflexivity]. intros _. right. repeat split.
           apply Hsome. reflexivity.
      * split; [discriminate |]. intros [H|(_ & _ & H & _)]; discriminate H.
Qed.

End untyped_facts.

(** ** The page component of chunk 3725 *)

Section page_facts.
Import Chunk3725.
Local Open Scope list_scope.
Local Open Scope nat_scope.

(** *** Running a computation step by step *)

Lemma run_bind {A B : Type} (m : M A) (f : A -> M B) (h h' : heap) (x : A) :
  m h = Some (x, h') -> (m ≫= f) h = f x h'.
Proof. unfold mbind, M_bind. intros ->. reflexivity. Qed.

Lemma run_ret {A : Type} (x : A) (h : heap) : (mret x : M A) h = Some (x, h).
Proof. reflexivity. Qed.

Lemma run_alloc (o : object) (h : heap) :
  alloc o h = Some (VRef (length h), h ++ [o]).
Proof. reflexivity. Qed.

Lemma run_load (l : loc) (o : object) (h : heap) :
  h !! l = Some o -> load l h = Some (o, h).
Proof. unfold load. intros ->. reflexivity. Qed.

Lemma run_store (l : loc) (o o' : object) (h : heap) :
  h !! l = Some o -> store l o' h = Some (tt, <[l := o']> h).
Proof.
  intros Hl. unfold store.
  apply lookup_lt_Some in Hl. apply Nat.ltb_lt in Hl. rewrite Hl. reflexivity.
Qed.

Lemma run_get (l : loc) (fs : fields) (k : string) (h : heap) :
  h !! l = Some (Object fs) -> get (VRef l) k h = Some (assoc k fs, h).
Proof.
  intros Hl. unfold get. rewrite (run_bind _ _ h h (Object fs)) by (apply run_load; exact Hl).
  reflexivity.
Qed.

Lemma run_set (l : loc) (fs : fields) (k : string) (x : val) (h : heap) :
  h !! l = Some (Object fs) ->
  set (VRef l) k x h = Some (tt, <[l := Object (assoc_set k x fs)]> h).
Proof.
  intros Hl. unfold set. rewrite (run_bind _ _ h h (Object fs)) by (apply run_load; exact Hl).
  apply (run_store l (Object fs)). exact Hl.
Qed.

Lemma run_own_keys (l : loc) (fs : fields) (h : heap) :
  h !! l = Some (Object fs) -> own_keys (VRef l) h = Some (fs.*1, h).
Proof.
  intros Hl. unfold own_keys.
  rewrite (run_bind _ _ h h (Object fs)) by (apply run_load; exact Hl).
  reflexivity.
Qed.

Lemma run_items_of (l : loc) (items : list val) (h : heap) :
  h !! l = Some (Array items) -> items_of (VRef l) h = Some (items, h).
Proof.
  intros Hl. unfold items_of.
  rewrite (run_bind _ _ h h (Array items)) by (apply run_load; exact Hl).
  reflexivity.
Qed.

Lemma run_set_index (l : loc) (items : list val) (i : nat) (x : val) (h : heap) :
  h !! l = Some (Array items) ->
  (i < length items)%nat ->
  set_index (VRef l) i x h = Some (tt, <[l := Array (<[i := x]> items)]> h).
Proof.
  intros Hl Hi. unfold set_index.
  rewrite (run_bind _ _ h h (Array items)) by (apply run_load; exact Hl).
  apply Nat.ltb_lt in Hi. rewrite Hi.
  apply (run_store l (Array items)). exact Hl.
Qed.

Lemma run_includes (l : loc) (items : list val) (k : string) (h : heap) :
  h !! l = Some (Array items) ->
  includes (VRef l) k h = Some (bool_decide (VString k ∈ items), h).
Proof.
  intros Hl. unfold includes.
  rewrite (run_bind _ _ h h items) by (apply run_items_of; exact Hl).
  reflexivity.
Qed.

Lemma run_for_each_cons {A : Type} (body : A -> M unit) (x : A) (l : list A)
    (h h' : heap) :
  body x h = Some (tt, h') -> for_each body (x :: l) h = for_each body l h'.
Proof. simpl. intros ->. reflexivity. Qed.

(** *** Copy loops

    A loop whose body, on every heap that satisfies [Inv], either skips
    the key or writes [src[key]] to the target, leaves the heap changed at
    the target alone. *)
Lemma copy_fields_cons (skip : string -> bool) (src : fields) (k : string)
    (keys : list string) (tfs : fields) :
  copy_fields skip src (k :: keys) tfs
  = copy_fields skip src keys
      (if skip k then tfs else assoc_set k (assoc k src) tfs).
Proof. reflexivity. Qed.

Lemma run_copy_loop (body : string -> M unit) (skip : string -> bool)
    (src : fields) (t : loc) (Inv : heap -> Prop) :
  (forall h k tfs, Inv h -> h !! t = Some (Object tfs) ->
     body k h = Some (tt, if skip k then h
                          else <[t := Object (assoc_set k (assoc k src) tfs)]> h)) ->
  (forall h o, Inv h -> Inv (<[t := o]> h)) ->
  forall keys tfs h, Inv h -> h !! t = Some (Object tfs) ->
    for_each body keys h
    = Some (tt, <[t := Object (copy_fields skip src keys tfs)]> h).
Proof.
  intros Hbody Hinv keys.
  induction keys as [|k keys IH]; intros tfs h HI Ht.
  - unfold copy_fields. simpl. rewrite list_insert_id by exact Ht. reflexivity.
  - rewrite copy_fields_cons. simpl. rewrite (Hbody h k tfs HI Ht).
    destruct (skip k).
    + apply IH; assumption.
    + rewrite (IH (assoc_set k (assoc k src) tfs)).
      * rewrite list_insert_insert_eq. reflexivity.
      * apply Hinv. exact HI.
      * apply list_lookup_insert_eq. apply lookup_lt_Some in Ht. exact Ht.
Qed.

Lemma insert_snoc (h : heap) (o x : object) (l : list object) :
  <[length h := x]> (h ++ o :: l) = h ++ x :: l.
Proof.
  replace (length h) with (length h + 0) at 1 by lia.
  rewrite insert_app_r. reflexivity.
Qed.

Lemma insert_snoc2 (h : heap) (a o x : object) (l : list object) :
  <[S (length h) := x]> (h ++ a :: o :: l) = h ++ a :: x :: l.
Proof.
  replace (S (length h)) with (length h + 1) by lia.
  rewrite insert_app_r. reflexivity.
Qed.

Lemma lookup_snoc (h : heap) (o : object) (l : list object) :
  (h ++ o :: l) !! length h = Some o.
Proof. apply list_lookup_middle. reflexivity. Qed.

Lemma lookup_snoc2 (h : heap) (a o : object) (l : list object) :
  (h ++ a :: o :: l) !! S (length h) = Some o.
Proof.
  replace (S (length h)) with (length h + 1) by lia.
  rewrite lookup_app_r by lia. replace (length h + 1 - length h) with 1 by lia.
  reflexivity.
Qed.

Lemma lookup_old (h new : heap) (l : loc) (o : object) :
  h !! l = Some o -> (h ++ new) !! l = Some o.
Proof. apply lookup_app_l_Some. Qed.

Lemma lookup_old_ne (h : heap) (l : loc) (o : object) :
  h !! l = Some o -> l <> length h.
Proof. intros Hl%lookup_lt_Some. lia. Qed.

(** *** [createElement] *)

Lemma run_createElement {owner : val} (h : heap) (type : val) (lc : loc) (cfs : fields)
    (children : list val) :
  h !! lc = Some (Object cfs) ->
  let cells := createElement_cells owner (length h) type cfs children in
  createElement owner (type :: VRef lc :: children) h
  = Some (VRef (length h + length cells - 1), h ++ cells).
Proof.
  intros Hc cells. unfold createElement.
  change (nth 0 (type :: VRef lc :: children) VUndefined) with type.
  change (nth 1 (type :: VRef lc :: children) VUndefined) with (VRef lc).
  change (drop 2 (type :: VRef lc :: children)) with children.
  rewrite (run_bind _ _ h _ _ (run_alloc _ h)).
  change (nullish (VRef lc)) with false. cbv iota.
  assert (Hc1 : (h ++ [Object []]) !! lc = Some (Object cfs)) by (apply lookup_old; exact Hc).
  pose proof (lookup_old_ne _ _ _ Hc) as Hne.
  match goal with
  | |- (?m ≫= _) _ = _ =>
      assert (Hinner : m (h ++ [Object []])
        = Some ((key_of (assoc "key" cfs), ref_of (assoc "ref" cfs)),
                h ++ [Object (copy_fields RESERVED_PROPS cfs (cfs.*1) [])]))
  end.
  { rewrite (run_bind _ _ _ _ _ (run_get _ _ "ref" _ Hc1)).
    rewrite (run_bind _ _ _ _ _ (run_get _ _ "key" _ Hc1)).
    rewrite (run_bind _ _ _ _ _ (run_own_keys _ _ _ Hc1)).
    rewrite (run_bind _ _ _ (h ++ [Object (copy_fields RESERVED_PROPS cfs (cfs.*1) [])]) tt);
      [reflexivity |].
    rewrite (run_copy_loop _ RESERVED_PROPS cfs (length h)
               (fun h' => h' !! lc = Some (Object cfs))) with (tfs := []);
      [rewrite insert_snoc; reflexivity | | | |].
    - intros h' k tfs Hc' Ht. destruct (RESERVED_PROPS k); [reflexivity |].
      rewrite (run_bind _ _ _ _ _ (run_get _ _ k _ Hc')).
      apply run_set. exact Ht.
    - intros h' o Hc'. rewrite list_lookup_insert_ne by congruence. exact Hc'.
    - exact Hc1.
    - apply list_lookup_middle. reflexivity. }
  rewrite (run_bind _ _ _ _ _ Hinner). clear Hinner.
  set (props := copy_fields RESERVED_PROPS cfs (cfs.*1) []) in *.
  assert (Hp : (h ++ [Object props]) !! length h = Some (Object props))
    by (apply list_lookup_middle; reflexivity).
  subst cells. unfold createElement_cells. fold props.
  destruct children as [|child [|child' children]].
  - rewrite (run_bind _ _ _ _ _ (run_ret tt _)). rewrite run_alloc.
    rewrite length_app, <- app_assoc. simpl. do 3 f_equal. lia.
  - rewrite (run_bind _ _ _ _ _ (run_set _ _ "children" child _ Hp)).
    rewrite insert_snoc, run_alloc.
    rewrite length_app, <- app_assoc. simpl. do 3 f_equal. lia.
  - erewrite run_bind.
    2:{ rewrite (run_bind _ _ _ _ _ (run_alloc _ _)).
        apply (run_set _ props). rewrite <- app_assoc. simpl.
        apply list_lookup_middle. reflexivity. }
    rewrite <- app_assoc. simpl. rewrite insert_snoc, run_alloc.
    rewrite !length_app, <- app_assoc. simpl.
    replace (length h + 1) with (S (length h)) by lia.
    do 3 f_equal. lia.
Qed.

(** *** [kt] *)

(** [for(var s=i;s<r;s++)a[s]=n[s]] *)
Lemma run_fill (la : loc) (n : list val) (k : nat) :
  forall (i : nat) (items : list val) (h : heap),
    h !! la = Some (Array items) ->
    length items = length n ->
    i + k = length n ->
    for_each (fun s => set_index (VRef la) s (nth s n VUndefined)) (seq i k) h
    = Some (tt, <[la := Array (take i items ++ drop i n)]> h).
Proof.
  induction k as [|k IH]; intros i items h Ha Hlen Hik.
  - simpl. rewrite take_ge, drop_ge, app_nil_r by lia.
    rewrite list_insert_id by exact Ha. reflexivity.
  - change (seq i (S k)) with (i :: seq (S i) k).
    rewrite (run_for_each_cons
               (fun s => set_index (VRef la) s (nth s n VUndefined)) i _ h _
               (run_set_index la items i (nth i n VUndefined) h Ha ltac:(lia))).
    rewrite (IH (S i) (<[i := nth i n VUndefined]> items)).
    + rewrite list_insert_insert_eq. do 4 f_equal.
      assert (Hi : i < length n) by lia.
      destruct (lookup_lt_is_Some_2 n i Hi) as [x Hx].
      rewrite (nth_lookup_Some _ _ _ _ Hx).
      rewrite (take_S_r _ _ x) by (apply list_lookup_insert_eq; lia).
      rewrite take_insert_ge by lia.
      rewrite (drop_S n x i Hx), <- app_assoc. reflexivity.
    + apply list_lookup_insert_eq. apply lookup_lt_Some in Ha. exact Ha.
    + rewrite length_insert. exact Hlen.
    + lia.
Qed.

Lemma run_kt {owner : val} (h : heap) (type : string) (t : val) (cfs : fields)
    (children : list val) :
  config_at h t cfs ->
  let cells := kt_cells owner (length h) type cfs children in
  kt owner (VString type :: t :: children) h
  = Some (VRef (length h + length cells - 1), h ++ cells).
Proof.
  intros Ht cells. unfold kt.
  change (nth 0 (VString type :: t :: children) VUndefined) with (VString type).
  change (nth 1 (VString type :: t :: children) VUndefined) with t.
  assert (Hi : exists i, (if truthy t then get t "mdxType" else mret t) h = Some (i, h)).
  { destruct Ht as [[-> _]|Ht]; [exists VNull; reflexivity |].
    destruct t as [| | | | |lc]; try discriminate Ht.
    exists (assoc "mdxType" cfs). apply run_get. exact Ht. }
  destruct Hi as [i Hi]. rewrite (run_bind _ _ _ _ _ Hi).
  change (is_string (VString type) || truthy i) with true. cbv iota.
  change (is_string (VString type)) with true. cbv iota.
  set (n := VString type :: t :: children).
  unfold new_Array. rewrite (run_bind _ _ _ _ _ (run_alloc _ h)).
  change (length n) with (S (S (length children))) at 1.
  change (replicate (S (S (length children))) VUndefined)
    with (VUndefined :: VUndefined :: replicate (length children) VUndefined).
  rewrite (run_bind _ _ _ _ _
             (run_set_index (length h)
                (VUndefined :: VUndefined :: replicate (length children) VUndefined)
                0 MDXCreateElement _
                (lookup_snoc h _ []) ltac:(simpl; lia))).
  rewrite insert_snoc.
  change (<[0 := MDXCreateElement]> (VUndefined :: VUndefined :: replicate (length children) VUndefined))
    with (MDXCreateElement :: VUndefined :: replicate (length children) VUndefined).
  rewrite (run_bind _ _ _ _ _ (run_alloc _ _)).
  rewrite length_app, <- app_assoc. simpl length. simpl app.
  replace (length h + 1) with (S (length h)) by lia.
  set (A0 := Array (MDXCreateElement :: VUndefined :: replicate (length children) VUndefined)).
  assert (Hloop : forall (B : Type) (K : unit -> M B),
    (own_keys t ≫= fun ls =>
       for_each (fun l => get t l ≫= fun x => set (VRef (S (length h))) l x) ls ≫= K)
      (h ++ [A0; Object []])
    = K tt (h ++ [A0; Object (copy_all cfs [])])).
  { intros B K. destruct Ht as [[-> ->]|Ht]; [reflexivity |].
    destruct t as [| | | | |lc]; try discriminate Ht. simpl in Ht.
    assert (Hc : (h ++ [A0; Object []]) !! lc = Some (Object cfs))
      by (apply lookup_old; exact Ht).
    rewrite (run_bind _ _ _ _ _ (run_own_keys _ _ _ Hc)).
    rewrite (run_bind _ _ _ (h ++ [A0; Object (copy_all cfs [])]) tt); [reflexivity |].
    rewrite (run_copy_loop _ (fun _ => false) cfs (S (length h))
               (fun h' => h' !! lc = Some (Object cfs))) with (tfs := []).
    - rewrite insert_snoc2. reflexivity.
    - intros h' k tfs Hc' Ht'.
      rewrite (run_bind _ _ _ _ _ (run_get _ _ k _ Hc')).
      apply run_set. exact Ht'.
    - intros h' o Hc'. apply lookup_lt_Some in Ht.
      rewrite list_lookup_insert_ne by lia. exact Hc'.
    - exact Hc.
    - apply lookup_snoc2. }
  rewrite Hloop. clear Hloop.
  rewrite (run_bind _ _ _ _ _ (run_set _ _ "originalType" (VString type) _ (lookup_snoc2 h _ _ []))).
  rewrite insert_snoc2.
  rewrite (run_bind _ _ _ _ _ (run_set _ _ "mdxType" (VString type) _ (lookup_snoc2 h _ _ []))).
  rewrite insert_snoc2. fold (mdx_props type cfs).
  rewrite (run_bind _ _ _ _ _
             (run_set_index (length h)
                (MDXCreateElement :: VUndefined :: replicate (length children) VUndefined)
                1 (VRef (S (length h))) _
                (lookup_snoc h _ _) ltac:(simpl; lia))).
  rewrite insert_snoc.
  change (<[1 := VRef (S (length h))]> (MDXCreateElement :: VUndefined :: replicate (length children) VUndefined))
    with (MDXCreateElement :: VRef (S (length h)) :: replicate (length children) VUndefined).
  change (length n - 2) with (length children - 0).
  rewrite (run_bind _ _ _ _ _
             (run_fill (length h) n (length children - 0) 2
                (MDXCreateElement :: VRef (S (length h)) :: replicate (length children) VUndefined) _
                (lookup_snoc h _ _)
                ltac:(simpl; rewrite length_replicate; reflexivity)
                ltac:(simpl; lia))).
  rewrite insert_snoc.
  change (take 2 (MDXCreateElement :: VRef (S (length h)) :: replicate (length children) VUndefined) ++ drop 2 n)
    with (MDXCreateElement :: VRef (S (length h)) :: children).
  rewrite (run_bind _ _ _ _ _ (run_items_of _ _ _ (lookup_snoc h _ _))).
  rewrite (run_createElement _ MDXCreateElement (S (length h)) (mdx_props type cfs) children
             (lookup_snoc2 h _ _ [])).
  subst cells. unfold kt_cells.
  rewrite !length_app, <- app_assoc. simpl length. simpl app.
  replace (length h + 2) with (S (S (length h))) by lia.
  do 3 f_equal. lia.
Qed.

(** *** Reading trees back *)

Lemma cell_mono (h new : heap) (v : val) (o : object) :
  cell h v = Some o -> cell (h ++ new) v = Some o.
Proof. destruct v; simpl; try discriminate. apply lookup_old. Qed.

Lemma cell_None_mono (h new : heap) (v : val) (t : tree) (n : nat) :
  reify n h v = Some t -> cell h v = None -> cell (h ++ new) v = None.
Proof.
  intros Hr Hc. destruct v; try reflexivity.
  destruct n; simpl in Hr, Hc; rewrite Hc in Hr; discriminate Hr.
Qed.

Lemma children_of_defined (rec : val -> option tree) (h : heap) (child : val) :
  child <> VUndefined ->
  children_of rec h child
  = match cell h child with
    | Some (Array items) => mapM rec items
    | _ => t ← rec child; Some [t]
    end.
Proof. destruct child; try reflexivity. congruence. Qed.

Lemma reify_mono (new : heap) (n : nat) :
  forall (h : heap) (v : val) (t : tree),
    reify n h v = Some t -> reify n (h ++ new) v = Some t.
Proof.
  induction n as [|n IH]; intros h v t Hr; pose proof Hr as Hr0; simpl in Hr |- *.
  - destruct (cell h v) as [o|] eqn:Hc.
    + rewrite (cell_mono _ new _ _ Hc). exact Hr.
    + rewrite (cell_None_mono h new v t 0 Hr0 Hc). exact Hr.
  - destruct (cell h v) as [o|] eqn:Hc.
    2:{ rewrite (cell_None_mono h new v t (S n) Hr0 Hc). exact Hr. }
    rewrite (cell_mono _ new _ _ Hc).
    destruct o as [fs|items|type key ref props owner0]; try exact Hr.
    destruct (cell h props) as [[fs|items|? ? ? ? ?]|] eqn:Hp; try discriminate Hr.
    rewrite (cell_mono _ new _ _ Hp).
    destruct (children_of (reify n h) h (assoc "children" fs)) as [ts|] eqn:Hts;
      [|discriminate Hr].
    replace (children_of (reify n (h ++ new)) (h ++ new) (assoc "children" fs))
      with (Some ts); [exact Hr |].
    symmetry. revert Hts. generalize (assoc "children" fs) as child. intros child Hts.
    destruct (decide (child = VUndefined)) as [->|Hdef]; [exact Hts |].
    rewrite children_of_defined in Hts |- * by exact Hdef.
    destruct (cell h child) as [o|] eqn:Hcc.
    + rewrite (cell_mono _ new _ _ Hcc).
      destruct o as [fs'|items|? ? ? ? ?].
      * destruct (reify n h child) as [t0|] eqn:Ht0; [|discriminate Hts].
        rewrite (IH _ _ _ Ht0). exact Hts.
      * apply mapM_Some. apply mapM_Some in Hts.
        eapply Forall2_impl; [exact Hts |]. intros x y Hxy. apply IH. exact Hxy.
      * destruct (reify n h child) as [t0|] eqn:Ht0; [|discriminate Hts].
        rewrite (IH _ _ _ Ht0). exact Hts.
    + destruct (reify n h child) as [t0|] eqn:Ht0; [|discriminate Hts].
      rewrite (cell_None_mono h new child t0 n Ht0 Hcc).
      rewrite (IH _ _ _ Ht0). exact Hts.
Qed.

Lemma child_at_mono (h new : heap) (N N' : nat) (v : val) (t : tree) :
  child_at h N v t -> N <= N' -> child_at (h ++ new) N' v t.
Proof.
  intros (Hr & Hdef & Harr) HN. split; [|split].
  - intros n Hn. apply reify_mono. apply Hr. lia.
  - exact Hdef.
  - intros items Hc. destruct (cell h v) as [o|] eqn:Hcv.
    + rewrite (cell_mono _ new _ _ Hcv) in Hc. injection Hc as ->.
      exact (Harr items eq_refl).
    + rewrite (cell_None_mono h new v t N (Hr N (le_n N)) Hcv) in Hc. discriminate Hc.
Qed.

Lemma child_at_string (h : heap) (s : string) :
  child_at h 0 (VString s) (Leaf (VString s)).
Proof.
  split; [|split].
  - intros [|n] _; reflexivity.
  - discriminate.
  - intros items. discriminate.
Qed.

Lemma lookup_new (h new : heap) (k : nat) :
  (h ++ new) !! (length h + k) = new !! k.
Proof. rewrite lookup_app_r by lia. f_equal. lia. Qed.

Lemma lookup_new2 (h new : heap) : (h ++ new) !! S (S (length h)) = new !! 2.
Proof. rewrite <- (lookup_new h new 2). f_equal. lia. Qed.

Lemma lookup_new3 (h new : heap) : (h ++ new) !! S (S (S (length h))) = new !! 3.
Proof. rewrite <- (lookup_new h new 3). f_equal. lia. Qed.

Lemma assoc_assoc_set (k : string) (x : val) (fs : fields) :
  assoc k (assoc_set k x fs) = x.
Proof.
  induction fs as [|[k' v] fs IH]; simpl.
  - rewrite String.eqb_refl. reflexivity.
  - destruct (String.eqb k' k) eqn:Hk; simpl.
    + rewrite String.eqb_refl. reflexivity.
    + rewrite Hk. exact IH.
Qed.

Lemma without_assoc_set (k : string) (x : val) (fs : fields) :
  without k (assoc_set k x fs) = without k fs.
Proof.
  unfold without. induction fs as [|[k' v] fs IH]; simpl.
  - rewrite String.eqb_refl. reflexivity.
  - destruct (String.eqb k' k) eqn:Hk; simpl.
    + rewrite String.eqb_refl. reflexivity.
    + rewrite Hk. simpl. rewrite IH. reflexivity.
Qed.

Lemma reify_element {owner : val} (n : nat) (h : heap) (v type key ref props : val)
    (fs : fields) (ts : list tree) :
  cell h v = Some (ReactElement type key ref props owner) ->
  cell h props = Some (Object fs) ->
  children_of (reify n h) h (assoc "children" fs) = Some ts ->
  reify (S n) h v = Some (Element type key ref (without "children" fs) ts).
Proof. intros Hv Hp Hts. simpl. rewrite Hv, Hp, Hts. reflexivity. Qed.

(** The element of a [kt] call, read back over the trees of its children. *)
Lemma reify_kt {owner : val} (h : heap) (type : string) (cfs : fields) (vs : list val)
    (ts : list tree) (N : nat) :
  vs <> [] ->
  Forall2 (child_at h N) vs ts ->
  let cells := kt_cells owner (length h) type cfs vs in
  child_at (h ++ cells) (S N) (VRef (length h + length cells - 1))
    (mdx_element type cfs ts).
Proof.
  intros Hvs Hch cells.
  assert (Hch' : Forall2 (child_at (h ++ cells) N) vs ts).
  { eapply Forall2_impl; [exact Hch |]. intros v t Hvt.
    apply child_at_mono with (N := N); [exact Hvt | lia]. }
  clear Hch.
  set (c := mdx_props type cfs) in *.
  set (props := copy_fields RESERVED_PROPS c (c.*1) []).
  destruct vs as [|v1 [|v2 vs]]; [congruence | |].
  - (* one child *)
    inversion Hch' as [|? t1 ? ? (Hr1 & Hdef1 & Harr1) Hnil]; subst.
    inversion Hnil; subst. clear Hch' Hnil.
    change (length cells) with 4.
    replace (length h + 4 - 1) with (length h + 3) by lia.
    assert (Hel : cell (h ++ cells) (VRef (length h + 3))
                  = Some (ReactElement MDXCreateElement (key_of (assoc "key" c))
                            (ref_of (assoc "ref" c)) (VRef (S (S (length h)))) owner))
      by (simpl; rewrite lookup_new; reflexivity).
    assert (Hpr : cell (h ++ cells) (VRef (S (S (length h))))
                  = Some (Object (assoc_set "children" v1 props))).
    { simpl. rewrite lookup_new2. reflexivity. }
    split; [|split].
    + intros [|n] Hn; [lia |].
      rewrite (reify_element n _ _ _ _ _ _ _ [t1] Hel Hpr).
      * rewrite without_assoc_set. reflexivity.
      * rewrite assoc_assoc_set, children_of_defined by exact Hdef1.
        rewrite (Hr1 n) by lia.
        destruct (cell (h ++ cells) v1) as [[?|items|? ? ? ? ?]|] eqn:Hc1; try reflexivity.
        exfalso. exact (Harr1 items eq_refl).
    + discriminate.
    + intros items. rewrite Hel. discriminate.
  - (* several children *)
    change (length cells) with 5.
    replace (length h + 5 - 1) with (length h + 4) by lia.
    assert (Hel : cell (h ++ cells) (VRef (length h + 4))
                  = Some (ReactElement MDXCreateElement (key_of (assoc "key" c))
                            (ref_of (assoc "ref" c)) (VRef (S (S (length h)))) owner))
      by (simpl; rewrite lookup_new; reflexivity).
    assert (Hpr : cell (h ++ cells) (VRef (S (S (length h))))
                  = Some (Object (assoc_set "children" (VRef (S (S (S (length h))))) props))).
    { simpl. rewrite lookup_new2. reflexivity. }
    assert (Har : cell (h ++ cells) (VRef (S (S (S (length h)))))
                  = Some (Array (v1 :: v2 :: vs))).
    { simpl. rewrite lookup_new3. reflexivity. }
    split; [|split].
    + intros [|n] Hn; [lia |].
      rewrite (reify_element n _ _ _ _ _ _ _ ts Hel Hpr).
      * rewrite without_assoc_set. reflexivity.
      * rewrite assoc_assoc_set, children_of_defined by discriminate.
        rewrite Har. apply mapM_Some_2.
        eapply Forall2_impl; [exact Hch' |].
        intros v t (Hr & _ & _). apply Hr. lia.
    + discriminate.
    + intros items. rewrite Hel. discriminate.
Qed.

(** *** The calls of the page body *)

Lemma jsx_induction (P : jsx -> Prop) :
  (forall s, P (Text s)) ->
  (forall type props children, Forall P children -> P (Kt type props children)) ->
  forall j, P j.
Proof.
  intros HText HKt.
  fix IH 1. intros [s|type props children].
  - apply HText.
  - apply HKt. induction children as [|j js IHjs]; constructor.
    + apply IH.
    + exact IHjs.
Qed.

Lemma eval_Kt {owner : val} (type : string) (props : option (list (string * string)))
    (children : list jsx) (h : heap) :
  eval owner (Kt type props children) h
  = (t ← match props with
         | None => mret VNull
         | Some fs => alloc (Object (map (fun kv => (kv.1, VString kv.2)) fs))
         end;
     vs ← eval_all owner children;
     kt owner (VString type :: t :: vs)) h.
Proof.
  simpl. unfold mbind at 1, M_bind at 1.
  destruct (match props with
            | None => mret VNull
            | Some fs => alloc (Object (map (fun kv => (kv.1, VString kv.2)) fs))
            end h) as [[t h1]|]; [|reflexivity].
  unfold mbind, M_bind.
  assert (Hall : forall js h',
    (fix eval_all (js : list jsx) : M (list val) :=
       match js with
       | [] => mret []
       | j' :: js' => fun h0 =>
           match eval owner j' h0 with
           | None => None
           | Some (v, h2) =>
               match eval_all js' h2 with
               | None => None
               | Some (vs, h3) => Some (v :: vs, h3)
               end
           end
       end) js h' = eval_all owner js h').
  { induction js as [|j js IHjs]; intros h'; [reflexivity |].
    simpl. unfold mbind, M_bind. destruct (eval owner j h') as [[v h2]|]; [|reflexivity].
    rewrite IHjs. destruct (eval_all owner js h2) as [[vs h3]|]; reflexivity. }
  rewrite Hall. reflexivity.
Qed.

Lemma child_at_weaken (h : heap) (N N' : nat) (v : val) (t : tree) :
  child_at h N v t -> N <= N' -> child_at h N' v t.
Proof.
  intros (Hr & Hdef & Harr) HN. split; [|split]; try assumption.
  intros n Hn. apply Hr. lia.
Qed.

Lemma config_at_mono (h new : heap) (t : val) (cfs : fields) :
  config_at h t cfs -> config_at (h ++ new) t cfs.
Proof.
  intros [Hnull|Hc]; [left; exact Hnull | right; apply cell_mono; exact Hc].
Qed.

Lemma eval_all_spec {owner : val} (js : list jsx) :
  Forall (evaluates owner) js ->
  forall h, exists vs new,
    eval_all owner js h = Some (vs, h ++ new) /\
    Forall2 (child_at (h ++ new) (foldr (fun j m => Nat.max (depth j) m) 0 js))
            vs (map tree_of js).
Proof.
  induction 1 as [|j js Hj _ IH]; intros h.
  - exists [], []. rewrite app_nil_r. split; [reflexivity | constructor].
  - destruct (Hj h) as (v & new1 & Hv & Hcv).
    destruct (IH (h ++ new1)) as (vs & new2 & Hvs & Hcvs).
    exists (v :: vs), (new1 ++ new2). rewrite app_assoc. split.
    + simpl. rewrite (run_bind _ _ _ _ _ Hv), (run_bind _ _ _ _ _ Hvs). reflexivity.
    + simpl. constructor.
      * apply child_at_mono with (N := depth j); [exact Hcv | lia].
      * eapply Forall2_impl; [exact Hcvs |]. intros v' t' Hvt.
        eapply child_at_weaken; [exact Hvt | lia].
Qed.

Lemma eval_spec {owner : val} (j : jsx) : has_children j = true -> evaluates owner j.
Proof.
  induction j as [s|type props children IH] using jsx_induction; intros Hwf h.
  - exists (VString s), []. rewrite app_nil_r. split; [reflexivity |].
    apply child_at_string.
  - assert (Hch : children <> []) by (intros ->; discriminate Hwf).
    assert (Hall : Forall (evaluates owner) children).
    { rewrite Forall_forall in IH |- *. intros j' Hin. apply IH; [exact Hin |].
      simpl in Hwf. destruct children as [|j0 js]; [discriminate Hwf |].
      rewrite forallb_forall in Hwf. apply Hwf. apply list_elem_of_In. exact Hin. }
    set (cfs := match props with
                | None => []
                | Some fs => map (fun kv => (kv.1, VString kv.2)) fs
                end).
    assert (Hprops : exists t new0,
      match props with
      | None => mret VNull
      | Some fs => alloc (Object (map (fun kv => (kv.1, VString kv.2)) fs))
      end h = Some (t, h ++ new0) /\ config_at (h ++ new0) t cfs).
    { destruct props as [fs|].
      - exists (VRef (length h)), [Object cfs]. split; [reflexivity |].
        right. simpl. apply lookup_snoc.
      - exists VNull, []. rewrite app_nil_r. split; [reflexivity |].
        left. split; reflexivity. }
    destruct Hprops as (t & new0 & Ht & Hcfg).
    destruct (eval_all_spec (owner:=owner) children Hall (h ++ new0)) as (vs & new1 & Hvs & Hcvs).
    assert (Hne : vs <> []).
    { apply Forall2_length in Hcvs. rewrite length_map in Hcvs.
      destruct vs; [|discriminate]. destruct children; [congruence | discriminate Hcvs]. }
    eexists _, (new0 ++ new1 ++ kt_cells owner (length ((h ++ new0) ++ new1)) type cfs vs).
    rewrite eval_Kt.
    rewrite (run_bind _ _ _ _ _ Ht), (run_bind _ _ _ _ _ Hvs).
    rewrite (run_kt _ type t cfs vs (config_at_mono _ new1 _ _ Hcfg)).
    rewrite !app_assoc. split; [reflexivity |].
    apply (reify_kt (owner:=owner) ((h ++ new0) ++ new1) type cfs vs
             (map tree_of children)); assumption.
Qed.

(** *** The two helpers of the page component *)

Lemma run_objectWithoutPropertiesLoose (h : heap) (le la : loc) (fs : fields)
    (excluded : list val) :
  h !! le = Some (Object fs) ->
  h !! la = Some (Array excluded) ->
  objectWithoutPropertiesLoose (VRef le) (VRef la) h
  = Some (VRef (length h),
          h ++ [Object (copy_fields (fun k => bool_decide (VString k ∈ excluded))
                          fs (fs.*1) [])]).
Proof.
  intros He Ha. unfold objectWithoutPropertiesLoose.
  change (nullish (VRef le)) with false. cbv iota.
  rewrite (run_bind _ _ _ _ _ (run_alloc _ h)).
  rewrite (run_bind _ _ _ _ _ (run_own_keys _ _ _ (lookup_old h [Object []] _ _ He))).
  rewrite (run_bind _ _ _
             (h ++ [Object (copy_fields (fun k => bool_decide (VString k ∈ excluded))
                              fs (fs.*1) [])]) tt); [reflexivity |].
  rewrite (run_copy_loop _ (fun k => bool_decide (VString k ∈ excluded)) fs (length h)
             (fun h' => h' !! le = Some (Object fs) /\ h' !! la = Some (Array excluded)))
    with (tfs := []).
  - rewrite insert_snoc. reflexivity.
  - intros h' k tfs [He' Ha'] Ht.
    rewrite (run_bind _ _ _ _ _ (run_includes _ _ k _ Ha')).
    destruct (bool_decide (VString k ∈ excluded)); [reflexivity |].
    rewrite (run_bind _ _ _ _ _ (run_get _ _ k _ He')).
    apply run_set. exact Ht.
  - intros h' o [He' Ha'].
    rewrite !list_lookup_insert_ne
      by (first [apply not_eq_sym, (lookup_old_ne _ _ _ He)
                |apply not_eq_sym, (lookup_old_ne _ _ _ Ha)]).
    split; assumption.
  - split; apply lookup_old; assumption.
  - apply lookup_snoc.
Qed.

(** The sources of an [_extends] call, each an object away from the target. *)
Lemma run_extends_sources (lt : loc) (srcs : list (loc * fields)) :
  forall (tfs : fields) (h : heap),
    Forall (fun s => s.1 <> lt /\ h !! s.1 = Some (Object s.2)) srcs ->
    h !! lt = Some (Object tfs) ->
    for_each (fun source =>
        keys ← own_keys source;
        for_each (fun key => x ← get source key; set (VRef lt) key x) keys)
      (map (fun s => VRef s.1) srcs) h
    = Some (tt, <[lt := Object (foldl (fun acc s => copy_all s.2 acc) tfs srcs)]> h).
Proof.
  induction srcs as [|[l sfs] srcs IH]; intros tfs h Hs Ht.
  - simpl. rewrite list_insert_id by exact Ht. reflexivity.
  - inversion Hs as [|? ? [Hne Hl] Hs']; subst. simpl in Hne, Hl.
    change (map (fun s => VRef s.1) ((l, sfs) :: srcs))
      with (VRef l :: map (fun s : loc * fields => VRef s.1) srcs).
    erewrite run_for_each_cons.
    2:{ rewrite (run_bind _ _ _ _ _ (run_own_keys _ _ _ Hl)).
        apply (run_copy_loop _ (fun _ => false) sfs lt
                 (fun h' => h' !! l = Some (Object sfs))).
        - intros h' k tfs' Hl' Ht'.
          rewrite (run_bind _ _ _ _ _ (run_get _ _ k _ Hl')).
          apply run_set. exact Ht'.
        - intros h' o Hl'. rewrite list_lookup_insert_ne by congruence. exact Hl'.
        - exact Hl.
        - exact Ht. }
    rewrite (IH (copy_all sfs tfs)).
    + rewrite list_insert_insert_eq. reflexivity.
    + eapply Forall_impl; [exact Hs' |]. intros [l' sfs'] [Hne' Hl']. simpl in *.
      split; [exact Hne' |]. rewrite list_lookup_insert_ne by congruence. exact Hl'.
    + apply list_lookup_insert_eq. apply lookup_lt_Some in Ht. exact Ht.
Qed.

Lemma run_extends (lt : loc) (srcs : list (loc * fields)) (tfs : fields) (h : heap) :
  Forall (fun s => s.1 <> lt /\ h !! s.1 = Some (Object s.2)) srcs ->
  h !! lt = Some (Object tfs) ->
  _extends (VRef lt :: map (fun s => VRef s.1) srcs) h
  = Some (VRef lt, <[lt := Object (foldl (fun acc s => copy_all s.2 acc) tfs srcs)]> h).
Proof.
  intros Hs Ht. unfold _extends.
  change (nullish (VRef lt)) with false. cbv iota.
  rewrite (run_bind _ _ _ _ _ (run_extends_sources lt srcs tfs h Hs Ht)).
  reflexivity.
Qed.

(** *** The page component *)

Lemma content_has_children : forallb has_children content = true.
Proof. vm_compute. reflexivity. Qed.

Lemma content_depth : foldr (fun j m => Nat.max (depth j) m) 0 content = 2.
Proof. vm_compute. reflexivity. Qed.

Lemma content_evaluates {owner : val} : Forall (evaluates owner) content.
Proof.
  apply Forall_forall. intros j Hin. apply eval_spec.
  pose proof content_has_children as H. rewrite forallb_forall in H.
  apply H. apply list_elem_of_In. exact Hin.
Qed.

(** The element a [kt] call returns records the current owner. *)
Lemma kt_cells_owner {owner : val} (h : heap) (type : string) (cfs : fields)
    (vs : list val) :
  let cells := kt_cells owner (length h) type cfs vs in
  owner_at (h ++ cells) (VRef (length h + length cells - 1)) = Some owner.
Proof.
  intros cells. unfold owner_at, cell.
  replace (length h + length cells - 1) with (length h + (length cells - 1))
    by (subst cells; destruct vs as [|? [|? ?]]; simpl; lia).
  rewrite lookup_new. subst cells. destruct vs as [|v1 [|v2 vs]]; reflexivity.
Qed.

(** A render returns, appends cells to the heap and writes nowhere else;
    the element it returns reads back as [page env props] and records the
    current owner. *)
Lemma d_spec {owner : val} (env : module_5449) (h : heap) (e : val) (props : fields) :
  module_ok env h ->
  cell h e = Some (Object props) ->
  exists (r : val) (new : heap),
    d owner env e h = Some (r, h ++ new) /\
    child_at (h ++ new) 3 r (page env props) /\
    owner_at (h ++ new) r = Some owner.
Proof.
  intros [Ha Hp] He.
  destruct e as [| | | | |le]; try discriminate He.
  destruct (var_a env) as [| | | | |la] eqn:Hva; try discriminate Ha.
  destruct (var_p env) as [| | | | |lp] eqn:Hvp; try discriminate Hp.
  simpl in He, Ha, Hp.
  unfold d. rewrite Hva, Hvp.
  rewrite (run_bind _ _ _ _ _ (run_get _ _ "components" _ He)).
  rewrite (run_bind _ _ _ _ _ (run_objectWithoutPropertiesLoose _ _ _ _ _ He Ha)).
  set (rest := copy_fields (fun k => bool_decide (VString k ∈ [VString "components"]))
                 props (props.*1) []).
  rewrite (run_bind _ _ _ _ _ (run_alloc _ _)).
  rewrite (run_bind _ _ _ _ _ (run_alloc _ _)).
  rewrite !length_app, <- !app_assoc. simpl length. simpl app.
  replace (length h + 1) with (S (length h)) by lia.
  replace (S (length h) + 1) with (S (S (length h))) by lia.
  set (literal := [("components", assoc "components" props);
                   ("mdxType", VString "MDXLayout")]).
  set (H0 := h ++ [Object rest; Object []; Object literal]).
  pose proof (run_extends (S (length h))
                [(lp, [("toc", var_u env)]); (length h, rest); (S (S (length h)), literal)]
                [] H0) as Hext.
  change (map (fun s : loc * fields => VRef s.1)
            [(lp, [("toc", var_u env)]); (length h, rest); (S (S (length h)), literal)])
    with [VRef lp; VRef (length h); VRef (S (S (length h)))] in Hext.
  assert (Hsrcs : Forall
    (fun s : loc * fields => s.1 <> S (length h) /\ H0 !! s.1 = Some (Object s.2))
    [(lp, [("toc", var_u env)]); (length h, rest); (S (S (length h)), literal)]).
  { repeat constructor; simpl; try lia.
    - apply lookup_lt_Some in Hp. lia.
    - apply lookup_old. exact Hp.
    - apply lookup_snoc.
    - subst H0. rewrite lookup_new2. reflexivity. }
  specialize (Hext Hsrcs (lookup_snoc2 h _ _ _)). clear Hsrcs.
  rewrite (run_bind _ _ _ _ _ Hext). clear Hext.
  subst H0. rewrite insert_snoc2.
  change (foldl (fun (acc : fields) (s : loc * fields) => copy_all s.2 acc) []
            [(lp, [("toc", var_u env)]); (length h, rest); (S (S (length h)), literal)])
    with (config_fields env props).
  set (H1 := h ++ [Object rest; Object (config_fields env props); Object literal]).
  destruct (eval_all_spec (owner:=owner) content content_evaluates H1) as (vs & new1 & Hvs & Hcvs).
  rewrite content_depth in Hcvs.
  rewrite (run_bind _ _ _ _ _ Hvs).
  assert (Hcfg : config_at (H1 ++ new1) (VRef (S (length h))) (config_fields env props)).
  { right. apply cell_mono. simpl. apply lookup_snoc2. }
  assert (Hne : vs <> []).
  { apply Forall2_length in Hcvs. destruct vs; [discriminate Hcvs | discriminate]. }
  rewrite (run_kt _ "wrapper" _ _ vs Hcfg).
  pose proof (reify_kt (owner:=owner) (H1 ++ new1) "wrapper" (config_fields env props) vs
                (map tree_of content) 2 Hne Hcvs) as Hr.
  cbv zeta in Hr.
  set (cells := kt_cells owner (length (H1 ++ new1)) "wrapper" (config_fields env props) vs) in *.
  exists (VRef (length (H1 ++ new1) + length cells - 1)),
         ([Object rest; Object (config_fields env props); Object literal] ++ new1 ++ cells).
  replace (h ++ [Object rest; Object (config_fields env props); Object literal]
             ++ new1 ++ cells)
    with ((H1 ++ new1) ++ cells)
    by (subst H1; rewrite <- !app_assoc; reflexivity).
  split; [reflexivity | split; [exact Hr |]].
  apply (kt_cells_owner (H1 ++ new1)).
Qed.

(** The module body leaves the heap in the state the page component
    relies on. *)
Lemma init_module_ok (h : heap) :
  exists (env : module_5449) (new : heap),
    init h = Some (env, h ++ new) /\ module_ok env (h ++ new).
Proof.
  unfold init.
  repeat rewrite (run_bind _ _ _ _ _ (run_alloc _ _)).
  rewrite run_ret. rewrite !length_app. simpl length.
  rewrite <- !app_assoc. simpl app.
  eexists _, _. split; [reflexivity |].
  split; simpl.
  - apply lookup_snoc.
  - replace (length h + 1 + 1 + 1 + 1 + 1 + 1 + 1 + 1 + 1 + 1) with (length h + 10) by lia.
    rewrite lookup_new. simpl.
    replace (length h + 1 + 1 + 1 + 1 + 1 + 1 + 1 + 1 + 1) with (length h + 9) by lia.
    reflexivity.
Qed.




(** ** The MDX runtime (module 3905) *)

(** *** Lookups after a copy loop *)

Lemma assoc_assoc_set_ne (k k' : string) (x : val) (fs : fields) :
  k' <> k -> assoc k (assoc_set k' x fs) = assoc k fs.
Proof.
  intros Hne. induction fs as [|[k0 v] fs IH]; simpl.
  - destruct (String.eqb_spec k' k); [congruence | reflexivity].
  - destruct (String.eqb_spec k0 k') as [->|Hk0]; simpl.
    + destruct (String.eqb_spec k' k); [congruence | reflexivity].
    + destruct (String.eqb_spec k0 k); [reflexivity | exact IH].
Qed.

Lemma keys_assoc_set (k k' : string) (x : val) (fs : fields) :
  k ∈ (assoc_set k' x fs).*1 <-> k = k' \/ k ∈ fs.*1.
Proof.
  induction fs as [|[k0 v] fs IH]; simpl.
  - rewrite list_elem_of_singleton. split; [left; assumption | intros [H|H]; [exact H | inversion H]].
  - destruct (String.eqb_spec k0 k') as [->|Hk0]; simpl.
    + rewrite elem_of_cons. tauto.
    + rewrite !elem_of_cons, IH. tauto.
Qed.

Lemma assoc_not_key (k : string) (fs : fields) :
  k ∉ fs.*1 -> assoc k fs = VUndefined.
Proof.
  induction fs as [|[k0 v] fs IH]; simpl; [reflexivity |].
  rewrite not_elem_of_cons. intros [Hne Hin].
  destruct (String.eqb_spec k0 k); [congruence | apply IH; exact Hin].
Qed.

Lemma assoc_copy_fields (skip : string -> bool) (src : fields) (k : string)
    (keys : list string) :
  forall tgt : fields,
    assoc k (copy_fields skip src keys tgt)
    = if bool_decide (k ∈ keys) && negb (skip k) then assoc k src else assoc k tgt.
Proof.
  induction keys as [|k0 keys IH]; intros tgt.
  - reflexivity.
  - rewrite copy_fields_cons, IH.
    destruct (decide (k = k0)) as [->|Hne].
    + rewrite (bool_decide_eq_true_2 (k0 ∈ k0 :: keys)) by left.
      destruct (skip k0) eqn:Hs; simpl.
      * rewrite andb_false_r. reflexivity.
      * rewrite andb_true_r, assoc_assoc_set. destruct (bool_decide _); reflexivity.
    + assert (Hk : bool_decide (k ∈ k0 :: keys) = bool_decide (k ∈ keys)).
      { apply bool_decide_ext. rewrite elem_of_cons. tauto. }
      rewrite Hk. destruct (bool_decide (k ∈ keys) && negb (skip k)); [reflexivity |].
      destruct (skip k0); [reflexivity |]. apply assoc_assoc_set_ne. congruence.
Qed.

Lemma keys_copy_fields (skip : string -> bool) (src : fields) (k : string)
    (keys : list string) :
  forall tgt : fields,
    k ∈ (copy_fields skip src keys tgt).*1
    <-> k ∈ tgt.*1 \/ (k ∈ keys /\ skip k = false).
Proof.
  induction keys as [|k0 keys IH]; intros tgt.
  - unfold copy_fields. simpl. split; [left; assumption |].
    intros [H|[H _]]; [exact H | inversion H].
  - rewrite copy_fields_cons, IH, elem_of_cons.
    destruct (skip k0) eqn:Hs.
    + split; [intros [H|[H1 H2]]; [left; exact H | right; tauto] |].
      intros [H|[[->|H1] H2]]; [left; exact H | congruence | right; tauto].
    + rewrite keys_assoc_set. split.
      * intros [[->|H]|[H1 H2]]; [right; tauto | left; exact H | right; tauto].
      * intros [H|[[->|H1] H2]]; [left; right; exact H | left; left; reflexivity | right; tauto].
Qed.

Lemma assoc_copy_all (src tgt : fields) (k : string) :
  assoc k (copy_all src tgt)
  = if bool_decide (k ∈ src.*1) then assoc k src else assoc k tgt.
Proof. unfold copy_all. rewrite assoc_copy_fields, andb_true_r. reflexivity. Qed.

Lemma keys_copy_all (src tgt : fields) (k : string) :
  k ∈ (copy_all src tgt).*1 <-> k ∈ tgt.*1 \/ k ∈ src.*1.
Proof. unfold copy_all. rewrite keys_copy_fields. tauto. Qed.

(** An own property of the later object wins over the earlier one, and
    over [Object.prototype]. *)
Lemma member_copy_all (src tgt : fields) (k : string) :
  member (copy_all src tgt) k
  = if bool_decide (k ∈ src.*1) then assoc k src else member tgt k.
Proof.
  unfold member. rewrite assoc_copy_all.
  destruct (bool_decide (k ∈ src.*1)) eqn:Hs.
  - apply bool_decide_eq_true in Hs.
    rewrite bool_decide_eq_true_2 by (apply keys_copy_all; right; exact Hs).
    reflexivity.
  - apply bool_decide_eq_false in Hs.
    assert (Hk : bool_decide (k ∈ (copy_all src tgt).*1) = bool_decide (k ∈ tgt.*1)).
    { apply bool_decide_ext. rewrite keys_copy_all. tauto. }
    rewrite Hk. reflexivity.
Qed.

(** *** Running the helpers *)

Lemma run_spread_source (lt ls : loc) (t : nat) (sfs tfs : fields) (h : heap) :
  ls <> lt ->
  h !! ls = Some (Object sfs) ->
  h !! lt = Some (Object tfs) ->
  spread_source (VRef lt) t (VRef ls) h
  = Some (tt, <[lt := Object (copy_all sfs tfs)]> h).
Proof.
  intros Hne Hs Ht. unfold spread_source.
  change (nullish (VRef ls)) with false. cbv iota.
  rewrite (run_bind _ _ _ _ _ (run_ret (VRef ls) h)).
  destruct (Nat.odd t).
  - unfold ownKeys. rewrite (run_bind _ _ _ _ _ (run_own_keys _ _ _ Hs)).
    apply (run_copy_loop _ (fun _ => false) sfs lt
             (fun h' => h' !! ls = Some (Object sfs))).
    + intros h' k tfs' Hs' Ht'.
      rewrite (run_bind _ _ _ _ _ (run_get _ _ k _ Hs')).
      unfold _defineProperty.
      rewrite (run_bind _ _ h' (<[lt := Object (assoc_set k (assoc k sfs) tfs')]> h')
                 (VRef lt)); [reflexivity |].
      rewrite (run_bind _ _ _ _ _ (run_set _ _ k _ _ Ht')). reflexivity.
    + intros h' o Hs'. rewrite list_lookup_insert_ne by congruence. exact Hs'.
    + exact Hs.
    + exact Ht.
  - unfold defineProperties. rewrite (run_bind _ _ _ _ _ (run_own_keys _ _ _ Hs)).
    apply (run_copy_loop _ (fun _ => false) sfs lt
             (fun h' => h' !! ls = Some (Object sfs))).
    + intros h' k tfs' Hs' Ht'.
      rewrite (run_bind _ _ _ _ _ (run_get _ _ k _ Hs')).
      apply run_set. exact Ht'.
    + intros h' o Hs'. rewrite list_lookup_insert_ne by congruence. exact Hs'.
    + exact Hs.
    + exact Ht.
Qed.

Lemma run_spread_from (lt : loc) (srcs : list (loc * fields)) :
  forall (t : nat) (tfs : fields) (h : heap),
    Forall (fun s => s.1 <> lt /\ h !! s.1 = Some (Object s.2)) srcs ->
    h !! lt = Some (Object tfs) ->
    spread_from (VRef lt) t (map (fun s => VRef s.1) srcs) h
    = Some (tt, <[lt := Object (foldl (fun acc s => copy_all s.2 acc) tfs srcs)]> h).
Proof.
  induction srcs as [|[l sfs] srcs IH]; intros t tfs h Hs Ht.
  - simpl. rewrite list_insert_id by exact Ht. reflexivity.
  - inversion Hs as [|? ? [Hne Hl] Hs']; subst. simpl in Hne, Hl.
    change (map (fun s => VRef s.1) ((l, sfs) :: srcs))
      with (VRef l :: map (fun s : loc * fields => VRef s.1) srcs).
    change (spread_from (VRef lt) t (VRef l :: map (fun s : loc * fields => VRef s.1) srcs) h)
      with (match spread_source (VRef lt) t (VRef l) h with
            | Some (_, h') =>
                spread_from (VRef lt) (S t) (map (fun s : loc * fields => VRef s.1) srcs) h'
            | None => None
            end).
    rewrite (run_spread_source lt l t sfs tfs h Hne Hl Ht).
    rewrite (IH (S t) (copy_all sfs tfs)).
    + rewrite list_insert_insert_eq. reflexivity.
    + eapply Forall_impl; [exact Hs' |]. intros [l' sfs'] [Hne' Hl']. simpl in *.
      split; [exact Hne' |]. rewrite list_lookup_insert_ne by congruence. exact Hl'.
    + apply list_lookup_insert_eq. apply lookup_lt_Some in Ht. exact Ht.
Qed.

Lemma run_objectSpread2 (lt : loc) (srcs : list (loc * fields)) (tfs : fields) (h : heap) :
  Forall (fun s => s.1 <> lt /\ h !! s.1 = Some (Object s.2)) srcs ->
  h !! lt = Some (Object tfs) ->
  _objectSpread2 (VRef lt :: map (fun s => VRef s.1) srcs) h
  = Some (VRef lt, <[lt := Object (foldl (fun acc s => copy_all s.2 acc) tfs srcs)]> h).
Proof.
  intros Hs Ht. unfold _objectSpread2.
  change (nth 0 (VRef lt :: map (fun s : loc * fields => VRef s.1) srcs) VUndefined)
    with (VRef lt).
  change (drop 1 (VRef lt :: map (fun s : loc * fields => VRef s.1) srcs))
    with (map (fun s : loc * fields => VRef s.1) srcs).
  rewrite (run_bind _ _ _ _ _ (run_spread_from lt srcs 1 tfs h Hs Ht)).
  reflexivity.
Qed.

Lemma assoc_merged (k : string) (srcs : list (loc * fields)) :
  forall tfs : fields,
    assoc k (foldl (fun acc s => copy_all s.2 acc) tfs srcs)
    = foldl (fun acc (s : loc * fields) =>
               if bool_decide (k ∈ s.2.*1) then assoc k s.2 else acc)
            (assoc k tfs) srcs.
Proof.
  induction srcs as [|[l sfs] srcs IH]; intros tfs; [reflexivity |].
  simpl. rewrite IH, assoc_copy_all. reflexivity.
Qed.

(** X8.  [a(target, ...sources)] writes to the target alone and returns it; each
    property of the target then holds the value of the last source that
    has the property, or what the target held. *)
Theorem objectSpread2_merges (lt : loc) (srcs : list (loc * fields)) (tfs : fields)
    (h : heap) :
  Forall (fun s => s.1 <> lt /\ h !! s.1 = Some (Object s.2)) srcs ->
  h !! lt = Some (Object tfs) ->
  exists (h' : heap) (fs' : fields),
    _objectSpread2 (VRef lt :: map (fun s => VRef s.1) srcs) h = Some (VRef lt, h')
    /\ h' !! lt = Some (Object fs')
    /\ (forall l, l <> lt -> h' !! l = h !! l)
    /\ forall k,
         assoc k fs'
         = foldl (fun acc (s : loc * fields) =>
                    if bool_decide (k ∈ s.2.*1) then assoc k s.2 else acc)
                 (assoc k tfs) srcs.
Proof.
  intros Hs Ht. eexists _, _. split; [exact (run_objectSpread2 lt srcs tfs h Hs Ht) |].
  split; [apply list_lookup_insert_eq; apply lookup_lt_Some in Ht; exact Ht |].
  split.
  - intros l Hl. apply list_lookup_insert_ne. congruence.
  - intros k. apply assoc_merged.
Qed.

Lemma objectSpread2_merges_witness :
  let h := [ Object [("a", VString "Link"); ("p", VString "P")];
             Object [("p", VString "Paragraph")];
             Object [("ref", VNull)] ] in
  exists (h' : heap) (fs' : fields),
    _objectSpread2 [VRef 2; VRef 0; VRef 1] h = Some (VRef 2, h')
    /\ h' !! 2 = Some (Object fs')
    /\ assoc "p" fs' = VString "Paragraph"
    /\ assoc "a" fs' = VString "Link"
    /\ assoc "ref" fs' = VNull
    /\ h' !! 0 = h !! 0.
Proof.
  intros h.
  destruct (objectSpread2_merges 2
              [(0, [("a", VString "Link"); ("p", VString "P")]);
               (1, [("p", VString "Paragraph")])]
              [("ref", VNull)] h) as (h' & fs' & Hrun & Hfs & Hframe & Hk).
  - repeat constructor; simpl; lia.
  - reflexivity.
  - exists h', fs'. split; [exact Hrun |]. split; [exact Hfs |].
    rewrite !Hk. repeat split. apply Hframe. lia.
Defined.

(** X9.  [c(e, excluded)] leaves [e] and [excluded] as they are and returns a
    fresh object that has the properties of [e] whose names are not in
    [excluded], with their values. *)
Theorem objectWithoutProperties_omits (h : heap) (le la : loc) (fs : fields)
    (excluded : list val) :
  h !! le = Some (Object fs) ->
  h !! la = Some (Array excluded) ->
  exists fs' : fields,
    _objectWithoutProperties (VRef le) (VRef la) h
    = Some (VRef (length h), h ++ [Object fs'])
    /\ forall k,
         (k ∈ fs'.*1 <-> k ∈ fs.*1 /\ VString k ∉ excluded)
         /\ assoc k fs' = if bool_decide (VString k ∈ excluded) then VUndefined
                          else assoc k fs.
Proof.
  intros He Ha. eexists. split.
  - unfold _objectWithoutProperties. change (nullish (VRef le)) with false. cbv iota.
    exact (run_objectWithoutPropertiesLoose h le la fs excluded He Ha).
  - intros k. split.
    + rewrite keys_copy_fields. rewrite bool_decide_eq_false. simpl.
      split; [intros [H|H]; [inversion H | exact H] | right; assumption].
    + rewrite assoc_copy_fields. simpl.
      destruct (bool_decide (VString k ∈ excluded)); simpl.
      * rewrite andb_false_r. reflexivity.
      * rewrite andb_true_r. destruct (bool_decide (k ∈ fs.*1)) eqn:Hk; [reflexivity |].
        apply bool_decide_eq_false in Hk. symmetry. apply assoc_not_key. exact Hk.
Qed.

Lemma objectWithoutProperties_omits_witness :
  let h := [ Object [("components", VNull); ("id", VString "scope"); ("mdxType", VString "h4")];
             Array [VString "components"; VString "mdxType"] ] in
  exists fs' : fields,
    _objectWithoutProperties (VRef 0) (VRef 1) h = Some (VRef 2, h ++ [Object fs'])
    /\ assoc "id" fs' = VString "scope"
    /\ "mdxType" ∉ fs'.*1.
Proof.
  intros h.
  destruct (objectWithoutProperties_omits h 0 1
              [("components", VNull); ("id", VString "scope"); ("mdxType", VString "h4")]
              [VString "components"; VString "mdxType"]) as (fs' & Hrun & Hk).
  - reflexivity.
  - reflexivity.
  - exists fs'. split; [exact Hrun |]. split.
    + destruct (Hk "id") as [_ ->]. reflexivity.
    + intros Hin. apply (Hk "mdxType") in Hin. destruct Hin as [_ Hex].
      apply Hex. right. left.
Defined.

Lemma run_useMDXComponents (h : heap) (lx lc : loc) (cfs efs : fields) :
  h !! lx = Some (Object cfs) ->
  h !! lc = Some (Object efs) ->
  useMDXComponents (VRef lx) (VRef lc) h
  = Some (VRef (length h), h ++ [Object (copy_all efs (copy_all cfs []))]).
Proof.
  intros Hx Hc. unfold useMDXComponents.
  change (truthy (VRef lc)) with true. cbv iota.
  rewrite (run_bind _ _ _ _ _ (run_alloc _ h)).
  pose proof (run_objectSpread2 (length h) [(lx, cfs)] [] (h ++ [Object []])) as H1.
  rewrite (run_bind _ _ _ _ _ (H1 ltac:(repeat constructor; simpl;
                                          [apply (lookup_old_ne _ _ _ Hx)
                                          |apply lookup_old; exact Hx])
                                  (lookup_snoc h _ []))).
  clear H1. simpl foldl. rewrite insert_snoc.
  pose proof (run_objectSpread2 (length h) [(lc, efs)] (copy_all cfs [])
                (h ++ [Object (copy_all cfs [])])) as H2.
  specialize (H2 ltac:(repeat constructor; simpl;
                         [apply (lookup_old_ne _ _ _ Hc)
                         |apply lookup_old; exact Hc])
                 (lookup_snoc h _ [])).
  simpl foldl in H2. rewrite insert_snoc in H2. exact H2.
Qed.

(** X10.  [useMDXComponents]: without components the context value itself is
    returned and nothing is written; with a components object the result
    is a fresh object in which the components come over the context, and
    the context and the components stay as they are. *)
Theorem useMDXComponents_merges (h : heap) (lx lc : loc) (cfs efs : fields) :
  h !! lx = Some (Object cfs) ->
  h !! lc = Some (Object efs) ->
  (forall e, truthy e = false -> useMDXComponents (VRef lx) e h = Some (VRef lx, h))
  /\ exists fs' : fields,
       useMDXComponents (VRef lx) (VRef lc) h
       = Some (VRef (length h), h ++ [Object fs'])
       /\ forall k,
            assoc k fs' = if bool_decide (k ∈ efs.*1) then assoc k efs else assoc k cfs.
Proof.
  intros Hx Hc. split.
  - intros e He. unfold useMDXComponents. rewrite He. reflexivity.
  - eexists. split; [apply run_useMDXComponents; eassumption |].
    intros k. rewrite !assoc_copy_all.
    destruct (bool_decide (k ∈ efs.*1)); [reflexivity |].
    destruct (bool_decide (k ∈ cfs.*1)) eqn:Hk; [reflexivity |].
    apply bool_decide_eq_false in Hk. simpl. symmetry. apply assoc_not_key. exact Hk.
Qed.

Lemma useMDXComponents_merges_witness :
  let h := [ Object [("a", VFunction "Link"); ("code", VFunction "CodeBlock")];
             Object [("a", VFunction "ExternalLink")] ] in
  exists fs' : fields,
    useMDXComponents (VRef 0) (VRef 1) h = Some (VRef 2, h ++ [Object fs'])
    /\ assoc "a" fs' = VFunction "ExternalLink"
    /\ assoc "code" fs' = VFunction "CodeBlock"
    /\ useMDXComponents (VRef 0) VUndefined h = Some (VRef 0, h).
Proof.
  intros h.
  destruct (useMDXComponents_merges h 0 1
              [("a", VFunction "Link"); ("code", VFunction "CodeBlock")]
              [("a", VFunction "ExternalLink")]) as (Hnone & fs' & Hrun & Hk).
  - reflexivity.
  - reflexivity.
  - exists fs'. split; [exact Hrun |]. rewrite !Hk.
    split; [reflexivity |]. split; [reflexivity |]. apply Hnone. reflexivity.
Defined.

(** *** The render function of [MDXCreateElement] *)

Lemma run_get_computed (l : loc) (fs : fields) (k : string) (h : heap) :
  h !! l = Some (Object fs) -> get_computed (VRef l) k h = Some (member fs k, h).
Proof.
  intros Hl. unfold get_computed.
  rewrite (run_bind _ _ _ _ _ (run_load _ _ _ Hl)). reflexivity.
Qed.

(** [f=d[parent.m]||d[m]||p[m]||r], and on with [f] *)
Lemma run_resolve {B : Type} (K : val -> M B) (ld lp : loc) (dfs : fields)
    (l m r : val) (h : heap) :
  h !! ld = Some (Object dfs) ->
  h !! lp = Some (Object DEFAULTS) ->
  (f1 ← get_computed (VRef ld) (to_string l +:+ "." +:+ to_string m);
   f ← or_else f1
         (f2 ← get_computed (VRef ld) (to_string m);
          or_else f2
            (f3 ← get_computed (VRef lp) (to_string m);
             or_else f3 (mret r)));
   K f) h
  = K (resolve dfs DEFAULTS l m r) h.
Proof.
  intros Hd Hp. unfold resolve.
  rewrite (run_bind _ _ _ _ _ (run_get_computed _ _ _ _ Hd)).
  unfold or_else at 1. destruct (truthy (member dfs _)); [reflexivity |].
  erewrite run_bind; [reflexivity |].
  rewrite (run_bind _ _ _ _ _ (run_get_computed _ _ _ _ Hd)).
  unfold or_else at 1. destruct (truthy (member dfs _)); [reflexivity |].
  rewrite (run_bind _ _ _ _ _ (run_get_computed _ _ _ _ Hp)).
  unfold or_else. destruct (truthy (member DEFAULTS _)); reflexivity.
Qed.

Lemma module_3905_ok_loc (env : module_3905) (h : heap) :
  module_3905_ok env h ->
  exists lp, var_p_3905 env = VRef lp /\ h !! lp = Some (Object DEFAULTS).
Proof.
  unfold module_3905_ok. destruct (var_p_3905 env) as [| | | | |lp]; try discriminate.
  intros H. exists lp. split; [reflexivity | exact H].
Qed.

(** A render without a components prop. *)
Lemma run_render_plain {owner : val} (env : module_3905) (lx le : loc)
    (cfs efs : fields) (t : val)
    (h : heap) :
  module_3905_ok env h ->
  h !! lx = Some (Object cfs) ->
  h !! le = Some (Object efs) ->
  truthy (assoc "components" efs) = false ->
  let f := resolve cfs DEFAULTS (assoc "parentName" efs) (assoc "mdxType" efs)
             (assoc "originalType" efs) in
  let config := copy_all (rest_props efs) [("ref", t)] in
  MDXCreateElement_render owner env (VRef lx) (VRef le) t h
  = Some (VRef (length h + 4),
          h ++ [Array MDX_PROPS; Object (rest_props efs); Object config]
            ++ createElement_cells owner (length h + 3) f config []).
Proof.
  intros Hm Hx He Hn f config.
  destruct (module_3905_ok_loc env h Hm) as (lp & Hvp & Hp).
  unfold MDXCreateElement_render. rewrite Hvp.
  rewrite (run_bind _ _ _ _ _ (run_get _ _ "components" _ He)).
  rewrite (run_bind _ _ _ _ _ (run_get _ _ "mdxType" _ He)).
  rewrite (run_bind _ _ _ _ _ (run_get _ _ "originalType" _ He)).
  rewrite (run_bind _ _ _ _ _ (run_get _ _ "parentName" _ He)).
  rewrite (run_bind _ _ _ _ _ (run_alloc _ h)).
  fold MDX_PROPS.
  assert (Hu : _objectWithoutProperties (VRef le) (VRef (length h)) (h ++ [Array MDX_PROPS])
               = Some (VRef (length h + 1),
                       h ++ [Array MDX_PROPS; Object (rest_props efs)])).
  { unfold _objectWithoutProperties. change (nullish (VRef le)) with false. cbv iota.
    rewrite (run_objectWithoutPropertiesLoose _ le (length h) efs MDX_PROPS
               (lookup_old h _ _ _ He) (lookup_snoc h _ [])).
    rewrite length_app, <- app_assoc. reflexivity. }
  rewrite (run_bind _ _ _ _ _ Hu). clear Hu.
  set (H1 := h ++ [Array MDX_PROPS; Object (rest_props efs)]).
  assert (Hd : useMDXComponents (VRef lx) (assoc "components" efs) H1 = Some (VRef lx, H1)).
  { unfold useMDXComponents. rewrite Hn. reflexivity. }
  rewrite (run_bind _ _ _ _ _ Hd). clear Hd.
  rewrite (run_resolve _ lx lp cfs (assoc "parentName" efs) (assoc "mdxType" efs)
             (assoc "originalType" efs) H1
             (lookup_old h _ _ _ Hx) (lookup_old h _ _ _ Hp)).
  fold f. rewrite Hn.
  rewrite (run_bind _ _ _ _ _ (run_alloc _ H1)).
  subst H1. rewrite length_app, <- app_assoc. simpl length. simpl app.
  pose proof (run_objectSpread2 (length h + 2) [(length h + 1, rest_props efs)]
                [("ref", t)]
                (h ++ [Array MDX_PROPS; Object (rest_props efs); Object [("ref", t)]]))
    as Hs.
  specialize (Hs ltac:(repeat constructor; simpl; [lia | rewrite lookup_new; reflexivity])
                 ltac:(rewrite lookup_new; reflexivity)).
  simpl in Hs. rewrite insert_app_r in Hs. simpl in Hs. fold config in Hs.
  rewrite (run_bind _ _ _ _ _ Hs). clear Hs.
  rewrite (run_createElement
             (h ++ [Array MDX_PROPS; Object (rest_props efs); Object config])
             f (length h + 2) config []
             ltac:(rewrite lookup_new; reflexivity)).
  rewrite length_app, <- app_assoc. simpl length. simpl app.
  do 3 f_equal. lia.
Qed.

(** A render with a components object in the props. *)
Lemma run_render_components {owner : val} (env : module_3905) (lx le lc : loc)
    (cfs efs nfs : fields) (t : val) (h : heap) :
  module_3905_ok env h ->
  h !! lx = Some (Object cfs) ->
  h !! le = Some (Object efs) ->
  assoc "components" efs = VRef lc ->
  h !! lc = Some (Object nfs) ->
  let merged := copy_all nfs (copy_all cfs []) in
  let f := resolve merged DEFAULTS (assoc "parentName" efs) (assoc "mdxType" efs)
             (assoc "originalType" efs) in
  let config :=
    copy_all [("components", VRef lc)]
      (copy_all [] (copy_all (rest_props efs) [("ref", t)])) in
  MDXCreateElement_render owner env (VRef lx) (VRef le) t h
  = Some (VRef (length h + 7),
          h ++ [Array MDX_PROPS; Object (rest_props efs); Object merged; Object config;
                Object []; Object [("components", VRef lc)]]
            ++ createElement_cells owner (length h + 6) f config []).
Proof.
  intros Hm Hx He Hn Hc merged f config.
  destruct (module_3905_ok_loc env h Hm) as (lp & Hvp & Hp).
  unfold MDXCreateElement_render. rewrite Hvp.
  rewrite (run_bind _ _ _ _ _ (run_get _ _ "components" _ He)).
  rewrite (run_bind _ _ _ _ _ (run_get _ _ "mdxType" _ He)).
  rewrite (run_bind _ _ _ _ _ (run_get _ _ "originalType" _ He)).
  rewrite (run_bind _ _ _ _ _ (run_get _ _ "parentName" _ He)).
  rewrite (run_bind _ _ _ _ _ (run_alloc _ h)).
  fold MDX_PROPS. rewrite Hn.
  assert (Hu : _objectWithoutProperties (VRef le) (VRef (length h)) (h ++ [Array MDX_PROPS])
               = Some (VRef (length h + 1),
                       h ++ [Array MDX_PROPS; Object (rest_props efs)])).
  { unfold _objectWithoutProperties. change (nullish (VRef le)) with false. cbv iota.
    rewrite (run_objectWithoutPropertiesLoose _ le (length h) efs MDX_PROPS
               (lookup_old h _ _ _ He) (lookup_snoc h _ [])).
    rewrite length_app, <- app_assoc. reflexivity. }
  rewrite (run_bind _ _ _ _ _ Hu). clear Hu.
  set (H1 := h ++ [Array MDX_PROPS; Object (rest_props efs)]).
  pose proof (run_useMDXComponents H1 lx lc cfs nfs
                (lookup_old h _ _ _ Hx) (lookup_old h _ _ _ Hc)) as Hd.
  fold merged in Hd. subst H1.
  rewrite length_app, <- app_assoc in Hd. simpl length in Hd. simpl app in Hd.
  rewrite (run_bind _ _ _ _ _ Hd). clear Hd.
  set (H2 := h ++ [Array MDX_PROPS; Object (rest_props efs); Object merged]).
  rewrite (run_resolve _ (length h + 2) lp merged (assoc "parentName" efs)
             (assoc "mdxType" efs) (assoc "originalType" efs) H2
             ltac:(subst H2; rewrite lookup_new; reflexivity)
             (lookup_old h _ _ _ Hp)).
  fold f. change (truthy (VRef lc)) with true. cbv iota.
  rewrite (run_bind _ _ _ _ _ (run_alloc _ H2)).
  subst H2. rewrite length_app, <- app_assoc. simpl length. simpl app.
  pose proof (run_objectSpread2 (length h + 3) [(length h + 1, rest_props efs)]
                [("ref", t)]
                (h ++ [Array MDX_PROPS; Object (rest_props efs); Object merged;
                       Object [("ref", t)]]))
    as Hs.
  specialize (Hs ltac:(repeat constructor; simpl; [lia | rewrite lookup_new; reflexivity])
                 ltac:(rewrite lookup_new; reflexivity)).
  simpl in Hs. rewrite insert_app_r in Hs. simpl in Hs.
  rewrite (run_bind _ _ _ _ _ Hs). clear Hs.
  rewrite (run_bind _ _ _ _ _ (run_alloc _ _)).
  rewrite (run_bind _ _ _ _ _ (run_alloc _ _)).
  rewrite <- !app_assoc. simpl app.
  pose proof (run_objectSpread2 (length h + 3)
                [(length h + 4, []); (length h + 5, [("components", VRef lc)])]
                (copy_all (rest_props efs) [("ref", t)])
                (h ++ [Array MDX_PROPS; Object (rest_props efs); Object merged;
                       Object (copy_all (rest_props efs) [("ref", t)]);
                       Object []; Object [("components", VRef lc)]]))
    as Hs.
  specialize (Hs ltac:(repeat constructor; simpl;
                         first [lia | rewrite lookup_new; reflexivity])
                 ltac:(rewrite lookup_new; reflexivity)).
  simpl in Hs. rewrite insert_app_r in Hs. simpl in Hs. fold config in Hs.
  rewrite !length_app. simpl length.
  replace (length h + 4 + 1) with (length h + 5) by lia.
  rewrite (run_bind _ _ _ _ _ Hs). clear Hs.
  rewrite (run_createElement
             (h ++ [Array MDX_PROPS; Object (rest_props efs); Object merged; Object config;
                    Object []; Object [("components", VRef lc)]])
             f (length h + 3) config []
             ltac:(rewrite lookup_new; reflexivity)).
  rewrite length_app, <- app_assoc. simpl length. simpl app.
  do 3 f_equal. lia.
Qed.

Lemma assoc_element_props (config : fields) (k : string) :
  assoc k (copy_fields RESERVED_PROPS config (config.*1) [])
  = if RESERVED_PROPS k then VUndefined else assoc k config.
Proof.
  rewrite assoc_copy_fields. destruct (RESERVED_PROPS k); simpl.
  - rewrite andb_false_r. reflexivity.
  - rewrite andb_true_r. destruct (bool_decide (k ∈ config.*1)) eqn:Hk; [reflexivity |].
    apply bool_decide_eq_false in Hk. symmetry. apply assoc_not_key. exact Hk.
Qed.

Lemma assoc_rest_props (efs : fields) (k : string) :
  assoc k (rest_props efs)
  = if bool_decide (VString k ∈ MDX_PROPS) then VUndefined else assoc k efs.
Proof.
  unfold rest_props. rewrite assoc_copy_fields.
  destruct (bool_decide (VString k ∈ MDX_PROPS)); simpl.
  - rewrite andb_false_r. reflexivity.
  - rewrite andb_true_r. destruct (bool_decide (k ∈ efs.*1)) eqn:Hk; [reflexivity |].
    apply bool_decide_eq_false in Hk. symmetry. apply assoc_not_key. exact Hk.
Qed.

Lemma keys_rest_props (efs : fields) (k : string) :
  k ∈ (rest_props efs).*1 <-> k ∈ efs.*1 /\ VString k ∉ MDX_PROPS.
Proof.
  unfold rest_props. rewrite keys_copy_fields, bool_decide_eq_false. simpl.
  split; [intros [H|H]; [inversion H | exact H] | right; assumption].
Qed.

(** The config of a render without components, key by key. *)
Lemma assoc_plain_config (efs : fields) (t : val) (k : string) :
  assoc k (copy_all (rest_props efs) [("ref", t)])
  = if bool_decide (k ∈ efs.*1) && negb (bool_decide (VString k ∈ MDX_PROPS))
    then assoc k efs
    else if String.eqb k "ref" then t else VUndefined.
Proof.
  rewrite assoc_copy_all.
  destruct (bool_decide (k ∈ (rest_props efs).*1)) eqn:Hk.
  - apply bool_decide_eq_true, keys_rest_props in Hk. destruct Hk as [Hin Hex].
    rewrite (bool_decide_eq_true_2 _ Hin), (bool_decide_eq_false_2 _ Hex). simpl.
    rewrite assoc_rest_props, (bool_decide_eq_false_2 _ Hex). reflexivity.
  - apply bool_decide_eq_false in Hk. rewrite keys_rest_props in Hk.
    assert (Hb : bool_decide (k ∈ efs.*1) && negb (bool_decide (VString k ∈ MDX_PROPS))
                 = false).
    { destruct (bool_decide (k ∈ efs.*1)) eqn:H1; [|reflexivity].
      destruct (bool_decide (VString k ∈ MDX_PROPS)) eqn:H2; [reflexivity |].
      apply bool_decide_eq_true in H1. apply bool_decide_eq_false in H2. tauto. }
    rewrite Hb.
    change (assoc k [("ref", t)]) with (if String.eqb "ref" k then t else VUndefined).
    rewrite String.eqb_sym. reflexivity.
Qed.

(** No name of [Object.prototype] has a dot in it. *)
Lemma has_dot_append (a b : string) : has_dot (a +:+ "." +:+ b) = true.
Proof.
  induction a as [|c a IH]; simpl in *; [reflexivity |].
  rewrite IH. apply orb_true_r.
Qed.

Lemma qualified_not_inherited (a b : string) : a +:+ "." +:+ b ∉ Object_prototype.
Proof.
  intros Hin. pose proof (has_dot_append a b) as Hdot.
  assert (Hall : forallb (fun s => negb (has_dot s)) Object_prototype = true)
    by reflexivity.
  rewrite forallb_forall in Hall. apply list_elem_of_In, Hall in Hin.
  rewrite Hdot in Hin. discriminate Hin.
Qed.

(** The element of a render without components, and its props object. *)
Lemma render_plain_element {owner : val} (env : module_3905) (lx le : loc)
    (cfs efs : fields) (t : val)
    (h : heap) :
  module_3905_ok env h ->
  h !! lx = Some (Object cfs) ->
  h !! le = Some (Object efs) ->
  truthy (assoc "components" efs) = false ->
  let config := copy_all (rest_props efs) [("ref", t)] in
  exists new : heap,
    MDXCreateElement_render owner env (VRef lx) (VRef le) t h
    = Some (VRef (length h + 4), h ++ new)
    /\ (h ++ new) !! (length h + 4)
       = Some (ReactElement
                 (resolve cfs DEFAULTS (assoc "parentName" efs) (assoc "mdxType" efs)
                    (assoc "originalType" efs))
                 (key_of (assoc "key" config)) (ref_of (assoc "ref" config))
                 (VRef (length h + 3)) owner)
    /\ (h ++ new) !! (length h + 3)
       = Some (Object (copy_fields RESERVED_PROPS config (config.*1) [])).
Proof.
  intros Hm Hx He Hn config.
  eexists. split; [exact (run_render_plain env lx le cfs efs t h Hm Hx He Hn) |].
  split; rewrite lookup_new; reflexivity.
Qed.

Lemma member_absent (fs : fields) (k : string) :
  k ∉ fs.*1 -> k ∉ Object_prototype -> member fs k = VUndefined.
Proof.
  intros H1 H2. unfold member.
  rewrite (bool_decide_eq_false_2 _ H1), (bool_decide_eq_false_2 _ H2). reflexivity.
Qed.

Lemma member_own (fs : fields) (k : string) :
  k ∈ fs.*1 -> member fs k = assoc k fs.
Proof. intros H. unfold member. rewrite (bool_decide_eq_true_2 _ H). reflexivity. Qed.

(** X11.  Rendered with no components prop, under a context that has no entry
    for the element, an MDX element becomes ["code"] for [inlineCode], the
    default wrapper for [wrapper], and its original type otherwise.  The
    heap only grows. *)
Theorem MDXCreateElement_defaults {owner : val} (env : module_3905) (lx le : loc)
    (cfs efs : fields)
    (t : val) (m : string) (h : heap) :
  module_3905_ok env h ->
  h !! lx = Some (Object cfs) ->
  h !! le = Some (Object efs) ->
  truthy (assoc "components" efs) = false ->
  assoc "mdxType" efs = VString m ->
  to_string (assoc "parentName" efs) +:+ "." +:+ m ∉ cfs.*1 ->
  m ∉ cfs.*1 ->
  m ∉ Object_prototype ->
  exists (key ref props : val) (new : heap),
    MDXCreateElement_render owner env (VRef lx) (VRef le) t h
    = Some (VRef (length h + 4), h ++ new)
    /\ (h ++ new) !! (length h + 4)
       = Some (ReactElement
                 (if String.eqb m "inlineCode" then VString "code"
                  else if String.eqb m "wrapper" then VFunction "wrapper"
                  else assoc "originalType" efs)
                 key ref props owner).
Proof.
  intros Hm Hx He Hn Hty Hq Hown Hproto.
  destruct (render_plain_element (owner:=owner) env lx le cfs efs t h Hm Hx He Hn)
    as (new & Hrun & Hel & _).
  eexists _, _, _, new. split; [exact Hrun |].
  rewrite Hel. do 2 f_equal.
  unfold resolve. rewrite Hty. simpl to_string.
  rewrite (member_absent cfs _ Hq (qualified_not_inherited _ _)).
  rewrite (member_absent cfs m Hown Hproto). simpl truthy. cbv iota.
  unfold member.
  destruct (String.eqb_spec m "inlineCode") as [->|Hi]; [reflexivity |].
  destruct (String.eqb_spec m "wrapper") as [->|Hw]; [reflexivity |].
  rewrite bool_decide_eq_false_2.
  - rewrite (bool_decide_eq_false_2 _ Hproto). reflexivity.
  - simpl. rewrite !elem_of_cons. intros [H|[H|H]]; [congruence | congruence | inversion H].
Qed.

Lemma MDXCreateElement_defaults_witness :
  exists (key ref props : val) (new : heap),
    MDXCreateElement_render VNull mdx_env (VRef 0) (VRef 3) VNull mdx_heap
    = Some (VRef 12, mdx_heap ++ new)
    /\ (mdx_heap ++ new) !! 12 = Some (ReactElement (VString "p") key ref props VNull).
Proof.
  apply (MDXCreateElement_defaults (owner:=VNull) mdx_env 0 3 []
           [("originalType", VString "p"); ("mdxType", VString "p");
            ("id", VString "intro"); ("children", VString "You are welcome here <3.")]
           VNull "p" mdx_heap); try reflexivity.
  - intros H. inversion H.
  - intros H. inversion H.
  - vm_compute. intros H. repeat (apply elem_of_cons in H; destruct H as [H|H]; [discriminate H |]).
    inversion H.
Defined.

(** X12.  The same render reads the context: an entry of the context for the
    type of the element, when it is truthy and no entry qualified by the
    parent is, is the component picked. *)
Theorem MDXCreateElement_reads_context {owner : val} (env : module_3905) (lx le : loc)
    (cfs efs : fields) (t : val) (m : string) (h : heap) :
  module_3905_ok env h ->
  h !! lx = Some (Object cfs) ->
  h !! le = Some (Object efs) ->
  truthy (assoc "components" efs) = false ->
  assoc "mdxType" efs = VString m ->
  to_string (assoc "parentName" efs) +:+ "." +:+ m ∉ cfs.*1 ->
  m ∈ cfs.*1 ->
  truthy (assoc m cfs) = true ->
  exists (key ref props : val) (new : heap),
    MDXCreateElement_render owner env (VRef lx) (VRef le) t h
    = Some (VRef (length h + 4), h ++ new)
    /\ (h ++ new) !! (length h + 4) = Some (ReactElement (assoc m cfs) key ref props owner).
Proof.
  intros Hm Hx He Hn Hty Hq Hown Htruthy.
  destruct (render_plain_element (owner:=owner) env lx le cfs efs t h Hm Hx He Hn)
    as (new & Hrun & Hel & _).
  eexists _, _, _, new. split; [exact Hrun |].
  rewrite Hel. do 2 f_equal.
  unfold resolve. rewrite Hty. simpl to_string.
  rewrite (member_absent cfs _ Hq (qualified_not_inherited _ _)).
  simpl truthy. cbv iota.
  rewrite (member_own cfs m Hown), Htruthy. reflexivity.
Qed.

Lemma MDXCreateElement_reads_context_witness :
  exists (key ref props : val) (new : heap),
    MDXCreateElement_render VNull mdx_env (VRef 2) (VRef 3) VNull mdx_heap
    = Some (VRef 12, mdx_heap ++ new)
    /\ (mdx_heap ++ new) !! 12 = Some (ReactElement (VFunction "Para") key ref props VNull).
Proof.
  apply (MDXCreateElement_reads_context (owner:=VNull) mdx_env 2 3
           [("a", VFunction "Link"); ("li.p", VFunction "Tight"); ("p", VFunction "Para")]
           [("originalType", VString "p"); ("mdxType", VString "p");
            ("id", VString "intro"); ("children", VString "You are welcome here <3.")]
           VNull "p" mdx_heap); try reflexivity.
  - vm_compute. intros H.
    repeat (apply elem_of_cons in H; destruct H as [H|H]; [discriminate H |]).
    inversion H.
  - do 2 right. left.
Defined.

(** X13.  Rendered with no components prop, an element for which the context
    has a truthy entry of its own qualified by the parent ([parent.type])
    gets that entry as its type, whatever the context holds for the type
    alone. *)
Theorem MDXCreateElement_qualified_first {owner : val} (env : module_3905) (lx le : loc)
    (cfs efs : fields) (t : val) (m : string) (h : heap) :
  module_3905_ok env h ->
  h !! lx = Some (Object cfs) ->
  h !! le = Some (Object efs) ->
  truthy (assoc "components" efs) = false ->
  assoc "mdxType" efs = VString m ->
  let q := to_string (assoc "parentName" efs) +:+ "." +:+ m in
  q ∈ cfs.*1 ->
  truthy (assoc q cfs) = true ->
  exists (key ref props : val) (new : heap),
    MDXCreateElement_render owner env (VRef lx) (VRef le) t h
    = Some (VRef (length h + 4), h ++ new)
    /\ (h ++ new) !! (length h + 4) = Some (ReactElement (assoc q cfs) key ref props owner).
Proof.
  intros Hm Hx He Hn Hty q Hown Htruthy.
  destruct (render_plain_element (owner:=owner) env lx le cfs efs t h Hm Hx He Hn)
    as (new & Hrun & Hel & _).
  eexists _, _, _, new. split; [exact Hrun |].
  rewrite Hel. do 2 f_equal.
  unfold resolve. rewrite Hty. simpl to_string. fold q.
  rewrite (member_own cfs q Hown), Htruthy. reflexivity.
Qed.

Lemma MDXCreateElement_qualified_first_witness :
  exists (key ref props : val) (new : heap),
    MDXCreateElement_render VNull mdx_env (VRef 2) (VRef 4) VNull mdx_heap
    = Some (VRef 12, mdx_heap ++ new)
    /\ (mdx_heap ++ new) !! 12 = Some (ReactElement (VFunction "Tight") key ref props VNull).
Proof.
  apply (MDXCreateElement_qualified_first (owner:=VNull) mdx_env 2 4
           [("a", VFunction "Link"); ("li.p", VFunction "Tight"); ("p", VFunction "Para")]
           [("parentName", VString "li"); ("originalType", VString "p");
            ("mdxType", VString "p"); ("children", VString "Public or private harassment")]
           VNull "p" mdx_heap); try reflexivity.
  right. left.
Defined.

(** X14.  A type named like a member of [Object.prototype] is looked up like any
    other key: rendered with no components prop, under a context that has
    no entry of its own for the type nor for the type qualified by the
    parent, the inherited member is picked, not the original type. *)
Theorem MDXCreateElement_inherited_member {owner : val} (env : module_3905) (lx le : loc)
    (cfs efs : fields) (t : val) (m : string) (h : heap) :
  module_3905_ok env h ->
  h !! lx = Some (Object cfs) ->
  h !! le = Some (Object efs) ->
  truthy (assoc "components" efs) = false ->
  assoc "mdxType" efs = VString m ->
  to_string (assoc "parentName" efs) +:+ "." +:+ m ∉ cfs.*1 ->
  m ∉ cfs.*1 ->
  m ∈ Object_prototype ->
  exists (key ref props : val) (new : heap),
    MDXCreateElement_render owner env (VRef lx) (VRef le) t h
    = Some (VRef (length h + 4), h ++ new)
    /\ (h ++ new) !! (length h + 4)
       = Some (ReactElement (VFunction ("Object.prototype." +:+ m)) key ref props owner).
Proof.
  intros Hm Hx He Hn Hty Hq Hown Hproto.
  destruct (render_plain_element (owner:=owner) env lx le cfs efs t h Hm Hx He Hn)
    as (new & Hrun & Hel & _).
  eexists _, _, _, new. split; [exact Hrun |].
  rewrite Hel. do 2 f_equal.
  unfold resolve. rewrite Hty. simpl to_string.
  rewrite (member_absent cfs _ Hq (qualified_not_inherited _ _)).
  simpl truthy. cbv iota.
  unfold member at 1 2.
  rewrite (bool_decide_eq_false_2 _ Hown), (bool_decide_eq_true_2 _ Hproto). reflexivity.
Qed.

Lemma MDXCreateElement_inherited_member_witness :
  exists (key ref props : val) (new : heap),
    MDXCreateElement_render VNull mdx_env (VRef 0) (VRef 7) VNull mdx_heap
    = Some (VRef 12, mdx_heap ++ new)
    /\ (mdx_heap ++ new) !! 12
       = Some (ReactElement (VFunction "Object.prototype.toString") key ref props VNull).
Proof.
  apply (MDXCreateElement_inherited_member (owner:=VNull) mdx_env 0 7 []
           [("originalType", VString "toString"); ("mdxType", VString "toString")]
           VNull "toString" mdx_heap); try reflexivity.
  - intros H. inversion H.
  - intros H. inversion H.
  - vm_compute. do 8 right. left.
Defined.

(** X15.  A components object in the props of the element comes before the
    context: its entry for the type is the component picked, whatever the
    context holds for the type, and the components are handed on to that
    component. *)
Theorem MDXCreateElement_components_prop_first {owner : val} (env : module_3905)
    (lx le lc : loc)
    (cfs efs nfs : fields) (t : val) (m : string) (h : heap) :
  module_3905_ok env h ->
  h !! lx = Some (Object cfs) ->
  h !! le = Some (Object efs) ->
  assoc "components" efs = VRef lc ->
  h !! lc = Some (Object nfs) ->
  assoc "mdxType" efs = VString m ->
  let q := to_string (assoc "parentName" efs) +:+ "." +:+ m in
  q ∉ nfs.*1 ->
  q ∉ cfs.*1 ->
  m ∈ nfs.*1 ->
  truthy (assoc m nfs) = true ->
  exists (key ref : val) (props : fields) (new : heap),
    MDXCreateElement_render owner env (VRef lx) (VRef le) t h
    = Some (VRef (length h + 7), h ++ new)
    /\ (h ++ new) !! (length h + 7)
       = Some (ReactElement (assoc m nfs) key ref (VRef (length h + 6)) owner)
    /\ (h ++ new) !! (length h + 6) = Some (Object props)
    /\ assoc "components" props = VRef lc.
Proof.
  intros Hm Hx He Hn Hc Hty q Hqn Hqc Hown Htruthy.
  pose proof (run_render_components (owner:=owner) env lx le lc cfs efs nfs t h
                Hm Hx He Hn Hc) as Hrun.
  cbv zeta in Hrun.
  eexists _, _, _, _. split; [exact Hrun |].
  split; [|split].
  - rewrite lookup_new. simpl. do 2 f_equal.
    unfold resolve. rewrite Hty. simpl to_string. fold q.
    rewrite !member_copy_all.
    rewrite (bool_decide_eq_false_2 _ Hqn), (bool_decide_eq_false_2 _ Hqc).
    rewrite (member_absent [] q) by (first [intros H; inversion H; fail
                                           |apply qualified_not_inherited]).
    simpl truthy. cbv iota.
    rewrite (bool_decide_eq_true_2 _ Hown), Htruthy. reflexivity.
  - rewrite lookup_new. reflexivity.
  - rewrite assoc_element_props. change (RESERVED_PROPS "components") with false.
    cbv iota. rewrite assoc_copy_all. reflexivity.
Qed.

Lemma MDXCreateElement_components_prop_first_witness :
  exists (key ref : val) (props : fields) (new : heap),
    MDXCreateElement_render VNull mdx_env (VRef 2) (VRef 6) VNull mdx_heap
    = Some (VRef 15, mdx_heap ++ new)
    /\ (mdx_heap ++ new) !! 15 = Some (ReactElement (VFunction "Lead") key ref (VRef 14) VNull)
    /\ (mdx_heap ++ new) !! 14 = Some (Object props)
    /\ assoc "components" props = VRef 5.
Proof.
  apply (MDXCreateElement_components_prop_first (owner:=VNull) mdx_env 2 6 5
           [("a", VFunction "Link"); ("li.p", VFunction "Tight"); ("p", VFunction "Para")]
           [("components", VRef 5); ("originalType", VString "p");
            ("mdxType", VString "p"); ("children", VString "Our Pledge")]
           [("p", VFunction "Lead")]
           VNull "p" mdx_heap); try reflexivity.
  - vm_compute. intros H.
    repeat (apply elem_of_cons in H; destruct H as [H|H]; [discriminate H |]).
    inversion H.
  - vm_compute. intros H.
    repeat (apply elem_of_cons in H; destruct H as [H|H]; [discriminate H |]).
    inversion H.
  - left.
Defined.

Lemma reserved_not_ref (k : string) : RESERVED_PROPS k = false -> k <> "ref".
Proof. intros H ->. discriminate H. Qed.

(** X16.  Rendered without a components prop, an MDX element whose props hold
    no key and no ref becomes an element with no key and the forwarded ref
    as its ref; the props object of the MDX element is read, not written.
    When the component picked carries no [defaultProps], the props it gets
    are those of the MDX element without the four props of MDX. *)
Theorem MDXCreateElement_props {owner : val} (env : module_3905) (lx le : loc)
    (cfs efs : fields) (t : val) (h : heap) :
  module_3905_ok env h ->
  h !! lx = Some (Object cfs) ->
  h !! le = Some (Object efs) ->
  truthy (assoc "components" efs) = false ->
  "key" ∉ efs.*1 ->
  "ref" ∉ efs.*1 ->
  exists (type : val) (new : heap),
    MDXCreateElement_render owner env (VRef lx) (VRef le) t h
    = Some (VRef (length h + 4), h ++ new)
    /\ (h ++ new) !! (length h + 4)
       = Some (ReactElement type VNull (ref_of t) (VRef (length h + 3)) owner)
    /\ (h ++ new) !! le = Some (Object efs)
    /\ (truthy (defaultProps_of h type) = false ->
        exists props : fields,
          (h ++ new) !! (length h + 3) = Some (Object props)
          /\ forall k,
               assoc k props
               = if RESERVED_PROPS k || bool_decide (VString k ∈ MDX_PROPS)
                 then VUndefined
                 else assoc k efs).
Proof.
  intros Hm Hx He Hn Hkey Href.
  destruct (render_plain_element (owner:=owner) env lx le cfs efs t h Hm Hx He Hn)
    as (new & Hrun & Hel & Hprops).
  eexists _, new. split; [exact Hrun |].
  split; [|split; [apply lookup_old; exact He |]].
  - rewrite Hel. rewrite !assoc_plain_config.
    rewrite (bool_decide_eq_false_2 _ Hkey), (bool_decide_eq_false_2 _ Href).
    reflexivity.
  - intros _. eexists. split; [exact Hprops |].
    intros k. rewrite assoc_element_props.
    destruct (RESERVED_PROPS k) eqn:Hr; [reflexivity |].
    rewrite assoc_plain_config. simpl orb.
    destruct (bool_decide (VString k ∈ MDX_PROPS)); simpl.
    + rewrite andb_false_r.
      destruct (String.eqb_spec k "ref") as [->|_]; [discriminate Hr | reflexivity].
    + rewrite andb_true_r. destruct (bool_decide (k ∈ efs.*1)) eqn:Hk; [reflexivity |].
      apply bool_decide_eq_false in Hk. rewrite (assoc_not_key k efs Hk).
      destruct (String.eqb_spec k "ref") as [->|_]; [discriminate Hr | reflexivity].
Qed.

Lemma MDXCreateElement_props_witness :
  exists (props : fields) (new : heap),
    MDXCreateElement_render VNull mdx_env (VRef 0) (VRef 3) (VRef 2) mdx_heap
    = Some (VRef 12, mdx_heap ++ new)
    /\ (mdx_heap ++ new) !! 12
       = Some (ReactElement (VString "p") VNull (VRef 2) (VRef 11) VNull)
    /\ defaultProps_of mdx_heap (VString "p") = VUndefined
    /\ (mdx_heap ++ new) !! 11 = Some (Object props)
    /\ assoc "id" props = VString "intro"
    /\ assoc "mdxType" props = VUndefined
    /\ assoc "children" props = VString "You are welcome here <3.".
Proof.
  destruct (MDXCreateElement_props (owner:=VNull) mdx_env 0 3 []
              [("originalType", VString "p"); ("mdxType", VString "p");
               ("id", VString "intro"); ("children", VString "You are welcome here <3.")]
              (VRef 2) mdx_heap) as (type & new & Hrun & Hel & _ & Hprops);
    try reflexivity.
  - vm_compute. intros H.
    repeat (apply elem_of_cons in H; destruct H as [H|H]; [discriminate H |]).
    inversion H.
  - vm_compute. intros H.
    repeat (apply elem_of_cons in H; destruct H as [H|H]; [discriminate H |]).
    inversion H.
  - assert (Htype : type = VString "p").
    { pose proof Hrun as Hnew. vm_compute in Hnew. injection Hnew as <-.
      vm_compute in Hel. congruence. }
    subst type.
    destruct (Hprops eq_refl) as (props & Hp & Hk).
    exists props, new. rewrite !Hk. repeat split; assumption.
Defined.

(** *** [kt] on any type *)

Lemma run_mdxType_of (t : val) (cfs : fields) (h : heap) :
  config_at h t cfs ->
  (if truthy t then get t "mdxType" else mret t) h = Some (mdxType_of t cfs, h).
Proof.
  intros [[-> ->]|Ht]; [reflexivity |].
  destruct t as [| | | | |lc]; try discriminate Ht.
  unfold mdxType_of. change (truthy (VRef lc)) with true. cbv iota.
  apply run_get. exact Ht.
Qed.

(** [kt] wraps: the type is a string, or the config has a truthy [mdxType]. *)
Lemma run_kt_wraps {owner : val} (h : heap) (e t : val) (cfs : fields)
    (children : list val) :
  config_at h t cfs ->
  is_string e || truthy (mdxType_of t cfs) = true ->
  let cells := kt_cells_of owner (length h) e (mdxType_of t cfs) cfs children in
  kt owner (e :: t :: children) h
  = Some (VRef (length h + length cells - 1), h ++ cells).
Proof.
  intros Ht Hwrap cells. unfold kt.
  change (nth 0 (e :: t :: children) VUndefined) with e.
  change (nth 1 (e :: t :: children) VUndefined) with t.
  rewrite (run_bind _ _ _ _ _ (run_mdxType_of t cfs h Ht)).
  rewrite Hwrap.
  set (i := mdxType_of t cfs) in *.
  set (n := e :: t :: children).
  unfold new_Array. rewrite (run_bind _ _ _ _ _ (run_alloc _ h)).
  change (length n) with (S (S (length children))) at 1.
  change (replicate (S (S (length children))) VUndefined)
    with (VUndefined :: VUndefined :: replicate (length children) VUndefined).
  rewrite (run_bind _ _ _ _ _
             (run_set_index (length h)
                (VUndefined :: VUndefined :: replicate (length children) VUndefined)
                0 MDXCreateElement _
                (lookup_snoc h _ []) ltac:(simpl; lia))).
  rewrite insert_snoc.
  change (<[0 := MDXCreateElement]> (VUndefined :: VUndefined :: replicate (length children) VUndefined))
    with (MDXCreateElement :: VUndefined :: replicate (length children) VUndefined).
  rewrite (run_bind _ _ _ _ _ (run_alloc _ _)).
  rewrite length_app, <- app_assoc. simpl length. simpl app.
  replace (length h + 1) with (S (length h)) by lia.
  set (A0 := Array (MDXCreateElement :: VUndefined :: replicate (length children) VUndefined)).
  assert (Hloop : forall (B : Type) (K : unit -> M B),
    (own_keys t ≫= fun ls =>
       for_each (fun l => get t l ≫= fun x => set (VRef (S (length h))) l x) ls ≫= K)
      (h ++ [A0; Object []])
    = K tt (h ++ [A0; Object (copy_all cfs [])])).
  { intros B K. destruct Ht as [[-> ->]|Ht]; [reflexivity |].
    destruct t as [| | | | |lc]; try discriminate Ht. simpl in Ht.
    assert (Hc : (h ++ [A0; Object []]) !! lc = Some (Object cfs))
      by (apply lookup_old; exact Ht).
    rewrite (run_bind _ _ _ _ _ (run_own_keys _ _ _ Hc)).
    rewrite (run_bind _ _ _ (h ++ [A0; Object (copy_all cfs [])]) tt); [reflexivity |].
    rewrite (run_copy_loop _ (fun _ => false) cfs (S (length h))
               (fun h' => h' !! lc = Some (Object cfs))) with (tfs := []).
    - rewrite insert_snoc2. reflexivity.
    - intros h' k tfs Hc' Ht'.
      rewrite (run_bind _ _ _ _ _ (run_get _ _ k _ Hc')).
      apply run_set. exact Ht'.
    - intros h' o Hc'. apply lookup_lt_Some in Ht.
      rewrite list_lookup_insert_ne by lia. exact Hc'.
    - exact Hc.
    - apply lookup_snoc2. }
  rewrite Hloop. clear Hloop.
  rewrite (run_bind _ _ _ _ _ (run_set _ _ "originalType" e _ (lookup_snoc2 h _ _ []))).
  rewrite insert_snoc2.
  rewrite (run_bind _ _ _ _ _
             (run_set _ _ "mdxType" (if is_string e then e else i) _
                (lookup_snoc2 h _ _ []))).
  rewrite insert_snoc2. fold (mdx_props_of e i cfs).
  rewrite (run_bind _ _ _ _ _
             (run_set_index (length h)
                (MDXCreateElement :: VUndefined :: replicate (length children) VUndefined)
                1 (VRef (S (length h))) _
                (lookup_snoc h _ _) ltac:(simpl; lia))).
  rewrite insert_snoc.
  change (<[1 := VRef (S (length h))]> (MDXCreateElement :: VUndefined :: replicate (length children) VUndefined))
    with (MDXCreateElement :: VRef (S (length h)) :: replicate (length children) VUndefined).
  change (length n - 2) with (length children - 0).
  rewrite (run_bind _ _ _ _ _
             (run_fill (length h) n (length children - 0) 2
                (MDXCreateElement :: VRef (S (length h)) :: replicate (length children) VUndefined) _
                (lookup_snoc h _ _)
                ltac:(simpl; rewrite length_replicate; reflexivity)
                ltac:(simpl; lia))).
  rewrite insert_snoc.
  change (take 2 (MDXCreateElement :: VRef (S (length h)) :: replicate (length children) VUndefined) ++ drop 2 n)
    with (MDXCreateElement :: VRef (S (length h)) :: children).
  rewrite (run_bind _ _ _ _ _ (run_items_of _ _ _ (lookup_snoc h _ _))).
  rewrite (run_createElement _ MDXCreateElement (S (length h)) (mdx_props_of e i cfs) children
             (lookup_snoc2 h _ _ [])).
  subst cells. unfold kt_cells_of.
  rewrite !length_app, <- app_assoc. simpl length. simpl app.
  replace (length h + 2) with (S (S (length h))) by lia.
  do 3 f_equal. lia.
Qed.

Lemma createElement_cells_props {owner : val} (base : nat) (type : val) (cfs : fields)
    (children : list val) :
  createElement_cells owner base type cfs children !! 0
  = Some (Object (element_props_of base cfs children)).
Proof. destruct children as [|c [|c' children]]; reflexivity. Qed.

Lemma createElement_cells_last {owner : val} (base : nat) (type : val) (cfs : fields)
    (children : list val) :
  createElement_cells owner base type cfs children
    !! (length (createElement_cells owner base type cfs children) - 1)
  = Some (ReactElement type (key_of (assoc "key" cfs)) (ref_of (assoc "ref" cfs))
            (VRef base) owner).
Proof. destruct children as [|c [|c' children]]; reflexivity. Qed.

Lemma createElement_cells_children {owner : val} (base : nat) (type : val) (cfs : fields)
    (c c' : val) (children : list val) :
  createElement_cells owner base type cfs (c :: c' :: children) !! 1
  = Some (Array (c :: c' :: children)).
Proof. reflexivity. Qed.

Lemma assoc_element_props_of (base : nat) (cfs : fields) (children : list val)
    (k : string) :
  assoc k (element_props_of base cfs children)
  = if String.eqb k "children"
    then children_value base (assoc "children" cfs) children
    else if RESERVED_PROPS k then VUndefined else assoc k cfs.
Proof.
  unfold element_props_of, children_value.
  destruct (String.eqb_spec k "children") as [->|Hne].
  - destruct children as [|c [|c' children]];
      rewrite ?assoc_assoc_set, ?assoc_element_props; reflexivity.
  - destruct children as [|c [|c' children]];
      rewrite ?assoc_assoc_set_ne by congruence; apply assoc_element_props.
Qed.

Lemma keys_element_props_of (base : nat) (cfs : fields) (children : list val)
    (k : string) :
  RESERVED_PROPS k = true -> k ∉ (element_props_of base cfs children).*1.
Proof.
  intros Hr Hin.
  assert (Hp : k ∉ (copy_fields RESERVED_PROPS cfs (cfs.*1) []).*1).
  { rewrite keys_copy_fields. intros [H|[_ H]]; [inversion H | congruence]. }
  assert (Hc : k <> "children") by (intros ->; discriminate Hr).
  unfold element_props_of in Hin.
  destruct children as [|c [|c' children]];
    rewrite ?keys_assoc_set in Hin; tauto.
Qed.

Lemma assoc_copy_all_nil (cfs : fields) (k : string) :
  assoc k (copy_all cfs []) = assoc k cfs.
Proof.
  rewrite assoc_copy_all. destruct (bool_decide (k ∈ cfs.*1)) eqn:Hk; [reflexivity |].
  apply bool_decide_eq_false in Hk. symmetry. apply assoc_not_key. exact Hk.
Qed.

Lemma assoc_mdx_props_of (e i : val) (cfs : fields) (k : string) :
  assoc k (mdx_props_of e i cfs)
  = if String.eqb k "mdxType" then (if is_string e then e else i)
    else if String.eqb k "originalType" then e
    else assoc k cfs.
Proof.
  unfold mdx_props_of.
  destruct (String.eqb_spec k "mdxType") as [->|Hm]; [apply assoc_assoc_set |].
  rewrite assoc_assoc_set_ne by congruence.
  destruct (String.eqb_spec k "originalType") as [->|Ho]; [apply assoc_assoc_set |].
  rewrite assoc_assoc_set_ne by congruence. apply assoc_copy_all_nil.
Qed.

Lemma kt_cells_of_last {owner : val} (base : nat) (e i : val) (cfs : fields)
    (children : list val) :
  kt_cells_of owner base e i cfs children
    !! (length (kt_cells_of owner base e i cfs children) - 1)
  = Some (ReactElement MDXCreateElement
            (key_of (assoc "key" (mdx_props_of e i cfs)))
            (ref_of (assoc "ref" (mdx_props_of e i cfs))) (VRef (S (S base))) owner).
Proof. destruct children as [|c [|c' children]]; reflexivity. Qed.

Lemma kt_cells_of_props {owner : val} (base : nat) (e i : val) (cfs : fields)
    (children : list val) :
  kt_cells_of owner base e i cfs children !! 2
  = Some (Object (element_props_of (S (S base)) (mdx_props_of e i cfs) children)).
Proof. destruct children as [|c [|c' children]]; reflexivity. Qed.

Lemma kt_cells_of_length {owner : val} (base : nat) (e i : val) (cfs : fields)
    (children : list val) :
  1 <= length (kt_cells_of owner base e i cfs children).
Proof. unfold kt_cells_of. rewrite length_app. simpl. lia. Qed.

(** X17.  [kt] on a string type, or on any type when the config has a truthy
    [mdxType], for a config whose key, if any, is a primitive: the element
    returned has the type [MDXCreateElement]; its props hold the type under
    [originalType], the type (a string) or the [mdxType] of the config
    under [mdxType], the children, and the other properties of the config;
    the key of the config, as a string, and its ref are those of the
    element; the config is read, not written. *)
Theorem kt_wraps {owner : val} (h : heap) (e t : val) (cfs : fields)
    (children : list val) :
  config_at h t cfs ->
  is_string e || truthy (mdxType_of t cfs) = true ->
  primitive (assoc "key" cfs) = true ->
  exists (r pr : loc) (props : fields) (new : heap),
    kt owner (e :: t :: children) h = Some (VRef r, h ++ new)
    /\ (h ++ new) !! r
       = Some (ReactElement MDXCreateElement (key_of (assoc "key" cfs))
                 (ref_of (assoc "ref" cfs)) (VRef pr) owner)
    /\ (h ++ new) !! pr = Some (Object props)
    /\ assoc "originalType" props = e
    /\ assoc "mdxType" props = (if is_string e then e else mdxType_of t cfs)
    /\ match children with
       | [] => assoc "children" props = assoc "children" cfs
       | [child] => assoc "children" props = child
       | _ => exists la, assoc "children" props = VRef la
                         /\ (h ++ new) !! la = Some (Array children)
       end
    /\ forall k, k <> "originalType" -> k <> "mdxType" -> k <> "children" ->
         assoc k props = if RESERVED_PROPS k then VUndefined else assoc k cfs.
Proof.
  intros Ht Hwrap _.
  pose proof (run_kt_wraps (owner:=owner) h e t cfs children Ht Hwrap) as Hrun.
  cbv zeta in Hrun.
  set (i := mdxType_of t cfs) in *.
  set (c := mdx_props_of e i cfs) in *.
  exists (length h + length (kt_cells_of owner (length h) e i cfs children) - 1),
         (length h + 2),
         (element_props_of (S (S (length h))) c children),
         (kt_cells_of owner (length h) e i cfs children).
  split; [exact Hrun |]. split; [|split; [|split; [|split; [|split]]]].
  - pose proof (kt_cells_of_length (owner:=owner) (length h) e i cfs children) as Hlen.
    replace (length h + length (kt_cells_of owner (length h) e i cfs children) - 1)
      with (length h + (length (kt_cells_of owner (length h) e i cfs children) - 1)) by lia.
    rewrite lookup_new, kt_cells_of_last. fold c.
    subst c. rewrite !assoc_mdx_props_of. simpl.
    replace (S (S (length h))) with (length h + 2) by lia. reflexivity.
  - rewrite lookup_new. apply kt_cells_of_props.
  - rewrite assoc_element_props_of. simpl. subst c. rewrite assoc_mdx_props_of. reflexivity.
  - rewrite assoc_element_props_of. simpl. subst c. rewrite assoc_mdx_props_of. reflexivity.
  - rewrite assoc_element_props_of. simpl String.eqb. cbv iota.
    destruct children as [|c1 [|c2 children]]; simpl children_value.
    + subst c. rewrite assoc_mdx_props_of. reflexivity.
    + reflexivity.
    + exists (length h + 3). split; [f_equal; lia |].
      rewrite lookup_new. reflexivity.
  - intros k Ho Hm Hc. rewrite assoc_element_props_of.
    destruct (String.eqb_spec k "children"); [congruence |].
    destruct (RESERVED_PROPS k); [reflexivity |].
    subst c. rewrite assoc_mdx_props_of.
    destruct (String.eqb_spec k "mdxType"); [congruence |].
    destruct (String.eqb_spec k "originalType"); [congruence | reflexivity].
Qed.

Lemma kt_wraps_witness :
  (exists (r pr : loc) (props : fields) (new : heap),
     kt VNull [VString "h4"; VRef 0; VString "Scope"] kt_heap = Some (VRef r, kt_heap ++ new)
     /\ (kt_heap ++ new) !! r
        = Some (ReactElement MDXCreateElement (VString "k1") VNull (VRef pr) VNull)
     /\ (kt_heap ++ new) !! pr = Some (Object props)
     /\ assoc "mdxType" props = VString "h4"
     /\ assoc "id" props = VString "scope"
     /\ assoc "children" props = VString "Scope")
  /\ (exists (r pr : loc) (props : fields) (new : heap),
        kt VNull [VFunction "Tabs"; VRef 1] kt_heap = Some (VRef r, kt_heap ++ new)
        /\ (kt_heap ++ new) !! pr = Some (Object props)
        /\ assoc "originalType" props = VFunction "Tabs"
        /\ assoc "mdxType" props = VString "Tabs").
Proof.
  split.
  - destruct (kt_wraps (owner:=VNull) kt_heap (VString "h4") (VRef 0)
                [("id", VString "scope"); ("key", VString "k1");
                 ("mdxType", VString "ignored")]
                [VString "Scope"])
      as (r & pr & props & new & Hrun & Hel & Hp & _ & Hm & Hc & Hk).
    + right. reflexivity.
    + reflexivity.
    + reflexivity.
    + exists r, pr, props, new. rewrite Hm, Hc, (Hk "id") by discriminate.
      repeat split; assumption.
  - destruct (kt_wraps (owner:=VNull) kt_heap (VFunction "Tabs") (VRef 1)
                [("mdxType", VString "Tabs"); ("groupId", VString "os")] [])
      as (r & pr & props & new & Hrun & _ & Hp & Ho & Hm & _).
    + right. reflexivity.
    + reflexivity.
    + reflexivity.
    + exists r, pr, props, new. rewrite Ho, Hm. repeat split; assumption.
Defined.

(** X18.  [kt] on a type that is not a string and carries no [defaultProps],
    with a config that has no truthy [mdxType] and whose key, if any, is a
    primitive: the call is the one to [createElement]; the element has the
    type itself, and its props are the properties of the config and the
    children, with no [originalType] or [mdxType] added. *)
Theorem kt_passes_through {owner : val} (h : heap) (e : val) (lc : loc) (cfs : fields)
    (children : list val) :
  h !! lc = Some (Object cfs) ->
  is_string e = false ->
  truthy (assoc "mdxType" cfs) = false ->
  truthy (defaultProps_of h e) = false ->
  primitive (assoc "key" cfs) = true ->
  exists (r pr : loc) (props : fields) (new : heap),
    kt owner (e :: VRef lc :: children) h = Some (VRef r, h ++ new)
    /\ (h ++ new) !! r
       = Some (ReactElement e (key_of (assoc "key" cfs)) (ref_of (assoc "ref" cfs))
                 (VRef pr) owner)
    /\ (h ++ new) !! pr = Some (Object props)
    /\ forall k, k <> "children" ->
         assoc k props = if RESERVED_PROPS k then VUndefined else assoc k cfs.
Proof.
  intros Hc He Hm _ _.
  assert (Hrun : kt owner (e :: VRef lc :: children) h
                 = createElement owner (e :: VRef lc :: children) h).
  { unfold kt.
    change (nth 0 (e :: VRef lc :: children) VUndefined) with e.
    change (nth 1 (e :: VRef lc :: children) VUndefined) with (VRef lc).
    rewrite (run_bind _ _ _ _ _ (run_mdxType_of (VRef lc) cfs h (or_intror Hc))).
    unfold mdxType_of. change (truthy (VRef lc)) with true. cbv iota.
    rewrite He, Hm. reflexivity. }
  rewrite Hrun, (run_createElement h e lc cfs children Hc).
  exists (length h + length (createElement_cells owner (length h) e cfs children) - 1),
         (length h + 0),
         (element_props_of (length h) cfs children),
         (createElement_cells owner (length h) e cfs children).
  split; [reflexivity |]. split; [|split].
  - replace (length h + length (createElement_cells owner (length h) e cfs children) - 1)
      with (length h + (length (createElement_cells owner (length h) e cfs children) - 1))
      by (destruct children as [|? [|? ?]]; simpl; lia).
    rewrite lookup_new, createElement_cells_last.
    replace (length h + 0) with (length h) by lia. reflexivity.
  - rewrite lookup_new. apply createElement_cells_props.
  - intros k Hk. rewrite assoc_element_props_of.
    destruct (String.eqb_spec k "children"); [congruence | reflexivity].
Qed.

Lemma kt_passes_through_witness :
  exists (r pr : loc) (props : fields) (new : heap),
    kt VNull [VFunction "Tabs"; VRef 2] kt_heap = Some (VRef r, kt_heap ++ new)
    /\ (kt_heap ++ new) !! r = Some (ReactElement (VFunction "Tabs") VNull VNull (VRef pr) VNull)
    /\ (kt_heap ++ new) !! pr = Some (Object props)
    /\ assoc "groupId" props = VString "os"
    /\ assoc "originalType" props = VUndefined.
Proof.
  destruct (kt_passes_through (owner:=VNull) kt_heap (VFunction "Tabs") 2
              [("groupId", VString "os")] [])
    as (r & pr & props & new & Hrun & Hel & Hp & Hk); try reflexivity.
  exists r, pr, props, new. rewrite !Hk by discriminate. repeat split; assumption.
Defined.

(** *** [kt], then the render of its element *)

Lemma ref_of_ref_of (r : val) : ref_of (ref_of r) = ref_of r.
Proof. destruct r; reflexivity. Qed.

Lemma run_render_mdx {owner : val} (env : module_3905) (context : val) (l : loc)
    (key ref props made_under : val) (h : heap) :
  h !! l = Some (ReactElement MDXCreateElement key ref props made_under) ->
  render_mdx owner env context (VRef l) h
  = MDXCreateElement_render owner env context props ref h.
Proof.
  intros Hl. unfold render_mdx.
  rewrite (run_bind _ _ _ _ _ (run_load _ _ _ Hl)). reflexivity.
Qed.

(** X19.  Under a context with no entry for it, an element [kt] made for an HTML
    tag, from a config that holds no truthy [components], renders to the
    element [createElement] would have made for the tag: the tag as type,
    no key, the ref of the config as ref, the properties of the config as
    props (the four of MDX and the reserved ones left out), and the
    children. *)
Theorem kt_then_render_is_plain {owner : val} (env : module_3905) (h : heap) (lx : loc)
    (ctx cfs : fields) (t : val) (type : string) (children : list val) :
  config_at h t cfs ->
  module_3905_ok env h ->
  h !! lx = Some (Object ctx) ->
  truthy (assoc "components" cfs) = false ->
  to_string (assoc "parentName" cfs) +:+ "." +:+ type ∉ ctx.*1 ->
  type ∉ ctx.*1 ->
  type ∉ Object_prototype ->
  type <> "inlineCode" ->
  type <> "wrapper" ->
  exists (r pr : loc) (props : fields) (new : heap),
    (element ← kt owner (VString type :: t :: children); render_mdx owner env (VRef lx) element) h
    = Some (VRef r, h ++ new)
    /\ (h ++ new) !! r
       = Some (ReactElement (VString type) VNull (ref_of (assoc "ref" cfs)) (VRef pr) owner)
    /\ (h ++ new) !! pr = Some (Object props)
    /\ forall k,
         assoc k props
         = if RESERVED_PROPS k || bool_decide (VString k ∈ MDX_PROPS) then VUndefined
           else if String.eqb k "children"
                then children_value (S (S (length h))) (assoc "children" cfs) children
                else assoc k cfs.
Proof.
  intros Ht Hm Hx Hn Hq Hown Hproto Hi Hw.
  pose proof (run_kt_wraps (owner:=owner) h (VString type) t cfs children Ht eq_refl) as Hkt.
  cbv zeta in Hkt.
  set (i := mdxType_of t cfs) in *.
  set (c := mdx_props_of (VString type) i cfs) in *.
  set (cells := kt_cells_of owner (length h) (VString type) i cfs children) in *.
  set (efs := element_props_of (S (S (length h))) c children).
  rewrite (run_bind _ _ _ _ _ Hkt).
  assert (Hel : (h ++ cells) !! (length h + length cells - 1)
                = Some (ReactElement MDXCreateElement (key_of (assoc "key" c))
                          (ref_of (assoc "ref" c)) (VRef (S (S (length h)))) owner)).
  { pose proof (kt_cells_of_length (owner:=owner) (length h) (VString type) i cfs children) as Hlen.
    fold cells in Hlen.
    replace (length h + length cells - 1) with (length h + (length cells - 1)) by lia.
    rewrite lookup_new. apply kt_cells_of_last. }
  rewrite (run_render_mdx env (VRef lx) _ _ _ _ _ _ Hel).
  assert (Hefs : (h ++ cells) !! S (S (length h)) = Some (Object efs)).
  { rewrite lookup_new2. apply kt_cells_of_props. }
  assert (Hlaw : forall k,
    assoc k efs
    = if String.eqb k "children"
      then children_value (S (S (length h))) (assoc "children" cfs) children
      else if RESERVED_PROPS k then VUndefined
      else if String.eqb k "mdxType" then VString type
      else if String.eqb k "originalType" then VString type
      else assoc k cfs).
  { intros k. unfold efs. rewrite assoc_element_props_of.
    subst c. rewrite !assoc_mdx_props_of. reflexivity. }
  assert (Hn' : truthy (assoc "components" efs) = false)
    by (rewrite Hlaw; exact Hn).
  destruct (render_plain_element (owner:=owner) env lx (S (S (length h))) ctx efs
              (ref_of (assoc "ref" c)) (h ++ cells)
              (cell_mono _ _ _ _ Hm) (lookup_old _ _ _ _ Hx) Hefs Hn')
    as (new & Hrun & Helem & Hprops).
  exists (length (h ++ cells) + 4), (length (h ++ cells) + 3).
  eexists. exists (cells ++ new). rewrite (app_assoc h cells new).
  split; [exact Hrun |]. split; [|split; [exact Hprops |]].
  - refine (eq_trans Helem _). f_equal. f_equal.
    + unfold resolve. rewrite !Hlaw. simpl.
      rewrite (member_absent ctx _ Hq (qualified_not_inherited _ _)).
      rewrite (member_absent ctx type Hown Hproto). simpl truthy. cbv iota.
      unfold member.
      rewrite bool_decide_eq_false_2, (bool_decide_eq_false_2 _ Hproto); [reflexivity |].
      simpl. rewrite !elem_of_cons.
      intros [H|[H|H]]; [congruence | congruence | inversion H].
    + rewrite assoc_plain_config.
      rewrite (bool_decide_eq_false_2 ("key" ∈ efs.*1))
        by (apply keys_element_props_of; reflexivity).
      reflexivity.
    + rewrite assoc_plain_config.
      rewrite (bool_decide_eq_false_2 ("ref" ∈ efs.*1))
        by (apply keys_element_props_of; reflexivity).
      simpl. rewrite ref_of_ref_of. subst c. rewrite assoc_mdx_props_of. reflexivity.
  - intros k. rewrite assoc_element_props.
    destruct (RESERVED_PROPS k) eqn:Hr; [reflexivity |]. simpl orb.
    rewrite assoc_plain_config.
    assert (Hk : (if bool_decide (k ∈ efs.*1) && negb (bool_decide (VString k ∈ MDX_PROPS))
                  then assoc k efs
                  else if String.eqb k "ref" then ref_of (assoc "ref" c) else VUndefined)
                 = if bool_decide (VString k ∈ MDX_PROPS) then VUndefined else assoc k efs).
    { destruct (String.eqb_spec k "ref") as [->|_]; [discriminate Hr |].
      destruct (bool_decide (VString k ∈ MDX_PROPS)); simpl.
      - rewrite andb_false_r. reflexivity.
      - rewrite andb_true_r. destruct (bool_decide (k ∈ efs.*1)) eqn:Hin; [reflexivity |].
        apply bool_decide_eq_false in Hin. symmetry. apply assoc_not_key. exact Hin. }
    rewrite Hk. destruct (bool_decide (VString k ∈ MDX_PROPS)) eqn:Hmdx; [reflexivity |].
    rewrite Hlaw, Hr.
    destruct (String.eqb_spec k "children"); [reflexivity |].
    destruct (String.eqb_spec k "mdxType") as [->|_]; [discriminate Hmdx |].
    destruct (String.eqb_spec k "originalType") as [->|_]; [discriminate Hmdx |].
    reflexivity.
Qed.

Lemma kt_then_render_is_plain_witness :
  exists (r pr : loc) (props : fields) (new : heap),
    (element ← kt VNull [VString "a"; VRef 8; VString "Contributor Covenant"];
     render_mdx VNull mdx_env (VRef 0) element) mdx_link_heap
    = Some (VRef r, mdx_link_heap ++ new)
    /\ (mdx_link_heap ++ new) !! r
       = Some (ReactElement (VString "a") VNull VNull (VRef pr) VNull)
    /\ (mdx_link_heap ++ new) !! pr = Some (Object props)
    /\ assoc "href" props = VString "https://www.contributor-covenant.org"
    /\ assoc "children" props = VString "Contributor Covenant"
    /\ assoc "parentName" props = VUndefined.
Proof.
  destruct (kt_then_render_is_plain (owner:=VNull) mdx_env mdx_link_heap 0 []
              [("parentName", VString "p");
               ("href", VString "https://www.contributor-covenant.org")]
              (VRef 8) "a" [VString "Contributor Covenant"])
    as (r & pr & props & new & Hrun & Hel & Hp & Hk); try reflexivity.
  - right. reflexivity.
  - intros H. inversion H.
  - intros H. inversion H.
  - vm_compute. intros H.
    repeat (apply elem_of_cons in H; destruct H as [H|H]; [discriminate H |]).
    inversion H.
  - intros H. discriminate H.
  - intros H. discriminate H.
  - exists r, pr, props, new. rewrite !Hk. repeat split; assumption.
Defined.

(** *** The default wrapper and the provider *)

(** X20.  The default wrapper renders a fragment around its children and hands
    on no other prop. *)
Theorem wrapper_keeps_children_only {owner : val} (h : heap) (le : loc) (efs : fields) :
  h !! le = Some (Object efs) ->
  exists (r pr : loc) (new : heap),
    wrapper owner (VRef le) h = Some (VRef r, h ++ new)
    /\ (h ++ new) !! r = Some (ReactElement (VFunction "Fragment") VNull VNull (VRef pr) owner)
    /\ (h ++ new) !! pr = Some (Object [("children", assoc "children" efs)]).
Proof.
  intros He. unfold wrapper.
  rewrite (run_bind _ _ _ _ _ (run_get _ _ "children" _ He)).
  rewrite (run_bind _ _ _ _ _ (run_alloc _ h)).
  rewrite (run_createElement (h ++ [Object []]) (VFunction "Fragment") (length h) []
             [assoc "children" efs] (lookup_snoc h _ [])).
  rewrite length_app, <- app_assoc. simpl.
  exists (length h + 2), (length h + 1). eexists.
  split; [do 3 f_equal; lia |].
  split; rewrite lookup_new; simpl; repeat f_equal; lia.
Qed.

Lemma wrapper_keeps_children_only_witness :
  exists (r pr : loc) (new : heap),
    wrapper VNull (VRef 3) mdx_heap = Some (VRef r, mdx_heap ++ new)
    /\ (mdx_heap ++ new) !! r
       = Some (ReactElement (VFunction "Fragment") VNull VNull (VRef pr) VNull)
    /\ (mdx_heap ++ new) !! pr
       = Some (Object [("children", VString "You are welcome here <3.")]).
Proof.
  apply (wrapper_keeps_children_only (owner:=VNull) mdx_heap 3
           [("originalType", VString "p"); ("mdxType", VString "p");
            ("id", VString "intro"); ("children", VString "You are welcome here <3.")]).
  reflexivity.
Defined.

(** X21.  A provider with a components object passes down a fresh object in
    which its components come over those of the context around it, and
    its children as they are; the context value is not written. *)
Theorem MDXProvider_merges {owner : val} (h : heap) (lx le lc : loc)
    (cfs efs nfs : fields) :
  h !! lx = Some (Object cfs) ->
  h !! le = Some (Object efs) ->
  assoc "components" efs = VRef lc ->
  h !! lc = Some (Object nfs) ->
  exists (r pr lv : loc) (value : fields) (new : heap),
    MDXProvider owner (VRef lx) (VRef le) h = Some (VRef r, h ++ new)
    /\ (h ++ new) !! r
       = Some (ReactElement (VFunction "MDXContext.Provider") VNull VNull (VRef pr) owner)
    /\ (h ++ new) !! pr
       = Some (Object [("value", VRef lv); ("children", assoc "children" efs)])
    /\ (h ++ new) !! lv = Some (Object value)
    /\ (h ++ new) !! lx = Some (Object cfs)
    /\ forall k,
         assoc k value = if bool_decide (k ∈ nfs.*1) then assoc k nfs else assoc k cfs.
Proof.
  intros Hx He Hn Hc. unfold MDXProvider.
  rewrite (run_bind _ _ _ _ _ (run_get _ _ "components" _ He)). rewrite Hn.
  rewrite (run_bind _ _ _ _ _ (run_useMDXComponents h lx lc cfs nfs Hx Hc)).
  rewrite (run_bind _ _ _ _ _ (run_alloc _ _)).
  rewrite length_app, <- app_assoc. simpl length. simpl app.
  set (merged := copy_all nfs (copy_all cfs [])).
  rewrite (run_bind _ _ _ _ _
             (run_get le efs "children" _ (lookup_old h _ _ _ He))).
  rewrite (run_createElement
             (h ++ [Object merged; Object [("value", VRef (length h))]])
             (VFunction "MDXContext.Provider") (length h + 1)
             [("value", VRef (length h))] [assoc "children" efs]
             ltac:(rewrite lookup_new; reflexivity)).
  rewrite length_app, <- app_assoc. simpl length. simpl app.
  exists (length h + 3), (length h + 2), (length h + 0), merged. eexists.
  split; [do 3 f_equal; lia |].
  split; [rewrite lookup_new; reflexivity |].
  split; [rewrite lookup_new; simpl; repeat f_equal; lia |].
  split; [rewrite lookup_new; reflexivity |].
  split; [apply lookup_old; exact Hx |].
  intros k. unfold merged. rewrite !assoc_copy_all.
  destruct (bool_decide (k ∈ nfs.*1)); [reflexivity |].
  destruct (bool_decide (k ∈ cfs.*1)) eqn:Hk; [reflexivity |].
  apply bool_decide_eq_false in Hk. simpl. symmetry. apply assoc_not_key. exact Hk.
Qed.

Lemma MDXProvider_merges_witness :
  exists (r pr lv : loc) (value : fields) (new : heap),
    MDXProvider VNull (VRef 2) (VRef 6) mdx_heap = Some (VRef r, mdx_heap ++ new)
    /\ (mdx_heap ++ new) !! pr
       = Some (Object [("value", VRef lv); ("children", VString "Our Pledge")])
    /\ (mdx_heap ++ new) !! lv = Some (Object value)
    /\ assoc "p" value = VFunction "Lead"
    /\ assoc "a" value = VFunction "Link".
Proof.
  destruct (MDXProvider_merges (owner:=VNull) mdx_heap 2 6 5
              [("a", VFunction "Link"); ("li.p", VFunction "Tight"); ("p", VFunction "Para")]
              [("components", VRef 5); ("originalType", VString "p");
               ("mdxType", VString "p"); ("children", VString "Our Pledge")]
              [("p", VFunction "Lead")])
    as (r & pr & lv & value & new & Hrun & _ & Hp & Hv & _ & Hk); try reflexivity.
  exists r, pr, lv, value, new. rewrite !Hk. repeat split; assumption.
Defined.

(** ** What the page hands to its layout (module 5449) *)

Lemma assoc_without (k k' : string) (fs : fields) :
  assoc k (without k' fs) = if String.eqb k k' then VUndefined else assoc k fs.
Proof.
  unfold without. induction fs as [|[k0 v] fs IH]; simpl.
  - destruct (String.eqb k k'); reflexivity.
  - destruct (String.eqb_spec k0 k') as [->|Hne]; simpl.
    + rewrite IH. destruct (String.eqb_spec k k') as [->|Hk]; [reflexivity |].
      destruct (String.eqb_spec k' k); [congruence | reflexivity].
    + rewrite IH. destruct (String.eqb_spec k0 k) as [->|Hk0]; [|reflexivity].
      destruct (String.eqb_spec k k'); [congruence | reflexivity].
Qed.

Lemma assoc_config_fields (env : module_5449) (props : fields) (k : string) :
  assoc k (config_fields env props)
  = if String.eqb k "components" then assoc "components" props
    else if String.eqb k "mdxType" then VString "MDXLayout"
    else if bool_decide (k ∈ props.*1) then assoc k props
    else if String.eqb k "toc" then var_u env
    else VUndefined.
Proof.
  unfold config_fields. rewrite assoc_copy_all.
  destruct (String.eqb_spec k "components") as [->|Hc]; [reflexivity |].
  destruct (String.eqb_spec k "mdxType") as [->|Hm]; [reflexivity |].
  rewrite bool_decide_eq_false_2
    by (simpl; rewrite !elem_of_cons; intros [H|[H|H]];
        [congruence | congruence | inversion H]).
  rewrite assoc_copy_all, assoc_copy_fields.
  assert (Hk : bool_decide
                 (k ∈ (copy_fields (fun k0 => bool_decide (VString k0 ∈ [VString "components"]))
                         props (props.*1) []).*1)
               = bool_decide (k ∈ props.*1)).
  { apply bool_decide_ext. rewrite keys_copy_fields, bool_decide_eq_false.
    rewrite list_elem_of_singleton. simpl. split.
    - intros [H|[H _]]; [inversion H | exact H].
    - intros H. right. split; [exact H | congruence]. }
  rewrite Hk. destruct (bool_decide (k ∈ props.*1)) eqn:Hin.
  - simpl. rewrite bool_decide_eq_false_2; [reflexivity |].
    rewrite list_elem_of_singleton. congruence.
  - rewrite assoc_copy_all. simpl.
    destruct (String.eqb_spec k "toc") as [->|Ht].
    + reflexivity.
    + rewrite bool_decide_eq_false_2
        by (rewrite list_elem_of_singleton; congruence).
      simpl. destruct (String.eqb_spec "toc" k); [congruence | reflexivity].
Qed.

(** X22.  The wrapper element of the page: its props are those of the page, with
    [mdxType] and [originalType] set to ["wrapper"], the table of contents
    of the module under [toc] unless the page was given one, and the
    [components] of the page; its children are the content of the page,
    whatever [children] the page was given. *)
Theorem page_wrapper_props {owner : val} (env : module_5449) (h : heap) (e : val)
    (props : fields) :
  module_ok env h ->
  cell h e = Some (Object props) ->
  exists (r key ref : val) (ps : fields) (new : heap),
    d owner env e h = Some (r, h ++ new)
    /\ reify 3 (h ++ new) r
       = Some (Element MDXCreateElement key ref ps (map tree_of content))
    /\ assoc "components" ps = assoc "components" props
    /\ assoc "mdxType" ps = VString "wrapper"
    /\ assoc "originalType" ps = VString "wrapper"
    /\ assoc "toc" ps = (if bool_decide ("toc" ∈ props.*1) then assoc "toc" props
                         else var_u env)
    /\ assoc "children" ps = VUndefined
    /\ forall k, k ∈ props.*1 -> RESERVED_PROPS k = false ->
         k <> "components" -> k <> "mdxType" -> k <> "originalType" -> k <> "children" ->
         assoc k ps = assoc k props.
Proof.
  intros Hm He.
  destruct (d_spec (owner:=owner) env h e props Hm He) as (r & new & Hd & (Hr & _) & _).
  specialize (Hr 3 (le_n 3)). unfold page, mdx_element in Hr. cbv zeta in Hr.
  change (mdx_props "wrapper" (config_fields env props))
    with (mdx_props_of (VString "wrapper") VUndefined (config_fields env props)) in Hr.
  set (c := mdx_props_of (VString "wrapper") VUndefined (config_fields env props)) in *.
  assert (Hlaw : forall k,
    assoc k (without "children" (copy_fields RESERVED_PROPS c (c.*1) []))
    = if String.eqb k "children" then VUndefined
      else if RESERVED_PROPS k then VUndefined
      else if String.eqb k "mdxType" then VString "wrapper"
      else if String.eqb k "originalType" then VString "wrapper"
      else assoc k (config_fields env props)).
  { intros k. rewrite assoc_without, assoc_element_props.
    subst c. rewrite assoc_mdx_props_of. reflexivity. }
  eexists r, _, _, _, new. split; [exact Hd |]. split; [exact Hr |].
  rewrite !Hlaw. simpl.
  split; [rewrite assoc_config_fields; reflexivity |].
  split; [reflexivity |]. split; [reflexivity |].
  split; [rewrite assoc_config_fields; reflexivity |].
  split; [reflexivity |].
  intros k Hin Hres Hc Hmt Ho Hch. rewrite Hlaw, Hres.
  destruct (String.eqb_spec k "children"); [congruence |].
  destruct (String.eqb_spec k "mdxType"); [congruence |].
  destruct (String.eqb_spec k "originalType"); [congruence |].
  rewrite assoc_config_fields.
  destruct (String.eqb_spec k "components"); [congruence |].
  destruct (String.eqb_spec k "mdxType"); [congruence |].
  rewrite (bool_decide_eq_true_2 _ Hin). reflexivity.
Qed.

Lemma page_wrapper_props_witness :
  exists (r key ref : val) (ps : fields) (new : heap),
    d VNull example_env example_props example_heap = Some (r, example_heap ++ new)
    /\ reify 3 (example_heap ++ new) r
       = Some (Element MDXCreateElement key ref ps (map tree_of content))
    /\ assoc "components" ps = VRef 11
    /\ assoc "toc" ps = VRef 9.
Proof.
  destruct (page_wrapper_props (owner:=VNull) example_env example_heap example_props
              [("components", VRef 11)])
    as (r & key & ref & ps & new & Hd & Hr & Hc & _ & _ & Ht & _).
  - vm_compute. split; reflexivity.
  - vm_compute. reflexivity.
  - exists r, key, ref, ps, new. rewrite Hc, Ht. repeat split; assumption.
Defined.

End page_facts.
